(** * Directory-tree synchronisation and hunk-level review: a shallow embedding

    The development embeds the two scripts of the repository that carry the
    core of the tool,

    - [sync.py]   (class [FigmaSyncManager]): tree scanner, change classifier,
      diff generator, label registry, single-label apply;
    - [review.py] (class [InteractiveDiffReviewer]): hunk parser, interactive
      review, decision store, reconciliation, batch apply;

    as Rocq functions, and states the properties of the specification over
    them.  Printing is dropped; every other effect is explicit: dictionaries
    are insertion-ordered association lists, the file system is a finite map
    from paths to file contents, terminal input is a list of lines still to be
    read, and an uncaught Python exception is a result of its own. *)

From Stdlib Require Import String Ascii List ZArith Bool Arith Lia.
From Stdlib Require Import Permutation Sorted DecimalString DecimalNat.
Import ListNotations.
Local Open Scope list_scope.
Local Open Scope string_scope.

(* ================================================================== *)
(** ** Python built-ins used by the scripts *)
(* ================================================================== *)

Module Py.

(** Text is kept as the string of its UTF-8 bytes.  Every test the scripts
    make on text ([startswith] and [endswith] with ASCII markers, splitting
    at line feeds or at [/]) reads the same on bytes and on code points, and
    comparing UTF-8 byte strings orders them as Python orders the code
    points. *)

Definition startswith (s p : string) : bool := String.prefix p s.

Definition endswith (s suffix : string) : bool :=
  let n := String.length s in
  let m := String.length suffix in
  (m <=? n)%nat && (substring (n - m) m s =? suffix).

(** [str.isspace] on the ASCII range: tab to carriage return, the four
    separators 28..31 and the space. *)
Definition isspace (c : ascii) : bool :=
  let n := nat_of_ascii c in
  ((9 <=? n) && (n <=? 13) || (28 <=? n) && (n <=? 32))%nat.

Fixpoint lstrip (s : string) : string :=
  match s with
  | EmptyString => EmptyString
  | String c r => if isspace c then lstrip r else s
  end.

Fixpoint rstrip (s : string) : string :=
  match s with
  | EmptyString => EmptyString
  | String c r =>
      match rstrip r with
      | EmptyString => if isspace c then EmptyString else String c EmptyString
      | r' => String c r'
      end
  end.

Definition strip (s : string) : string := lstrip (rstrip s).

Definition lower_ascii (c : ascii) : ascii :=
  let n := nat_of_ascii c in
  if ((65 <=? n) && (n <=? 90))%nat then ascii_of_nat (n + 32) else c.

Fixpoint lower (s : string) : string :=
  match s with
  | EmptyString => EmptyString
  | String c r => String (lower_ascii c) (lower r)
  end.

(** [str(n)] and [int(s)] on decimal digits. *)
Definition str_of_nat (n : nat) : string :=
  NilEmpty.string_of_uint (Nat.to_uint n).

Definition isdigit (c : ascii) : bool :=
  let n := nat_of_ascii c in ((48 <=? n) && (n <=? 57))%nat.

Fixpoint int_of_digits (acc : nat) (s : string) : nat :=
  match s with
  | EmptyString => acc
  | String c r => int_of_digits (10 * acc + (nat_of_ascii c - 48)) r
  end.

(** The format [{idx:03d}]: decimal, padded with zeros up to three
    characters, longer numbers left as they are. *)
Fixpoint zeros (n : nat) : string :=
  match n with
  | O => EmptyString
  | S k => String "0" (zeros k)
  end.

Definition format_03d (n : nat) : string :=
  let s := str_of_nat n in zeros (3 - String.length s) ++ s.

(** [sorted] on a list of strings.  The order on strings is total and
    antisymmetric, so the sorted list is unique and the way Python reaches
    it does not show; insertion is the shortest way to write it. *)
Fixpoint insert_sorted (x : string) (l : list string) : list string :=
  match l with
  | [] => [x]
  | y :: r => if String.leb x y then x :: l else y :: insert_sorted x r
  end.

Fixpoint sorted (l : list string) : list string :=
  match l with
  | [] => []
  | x :: r => insert_sorted x (sorted r)
  end.

(** The slice assignment [l[start:stop] = new]: a negative index counts
    from the end, both indices are clamped to [0, len(l)], and a stop below
    the start is moved up to it. *)
Definition slice_index (len : nat) (i : Z) : nat :=
  let j := if (i <? 0)%Z then (i + Z.of_nat len)%Z else i in
  if (j <? 0)%Z then 0
  else if (Z.of_nat len <? j)%Z then len
  else Z.to_nat j.

Definition slice_assign {A : Type} (l : list A) (start stop : Z)
    (new : list A) : list A :=
  let lo := slice_index (List.length l) start in
  let hi := Nat.max lo (slice_index (List.length l) stop) in
  (firstn lo l ++ new ++ skipn hi l)%list.

End Py.

(** *** Dictionaries

    A Python [dict] keyed by strings: the bindings in insertion order.
    Assigning to a key that is present keeps its place; a new key goes to
    the end.  The dictionaries of the program come from [json.load] or are
    built by assignment, so their keys are pairwise distinct ([unique]). *)

Module Dict.

Definition t (V : Type) : Type := list (string * V).

Section Ops.
Context {V : Type}.

Fixpoint get (k : string) (d : t V) : option V :=
  match d with
  | [] => None
  | (k', v) :: r => if String.eqb k k' then Some v else get k r
  end.

(** [k in d] *)
Definition contains (k : string) (d : t V) : bool :=
  match get k d with Some _ => true | None => false end.

(** [d[k] = v] *)
Fixpoint set (k : string) (v : V) (d : t V) : t V :=
  match d with
  | [] => [(k, v)]
  | (k', v') :: r =>
      if String.eqb k k' then (k, v) :: r else (k', v') :: set k v r
  end.

(** [del d[k]], called by the program only under a test that [k] is
    present. *)
Fixpoint del (k : string) (d : t V) : t V :=
  match d with
  | [] => []
  | (k', v') :: r =>
      if String.eqb k k' then del k r else (k', v') :: del k r
  end.

Definition keys (d : t V) : list string := map fst d.

(** [bool(d)]: a dictionary is true when it is not empty. *)
Definition truthy (d : t V) : bool :=
  match d with [] => false | _ => true end.

End Ops.

Fixpoint distinct (l : list string) : bool :=
  match l with
  | [] => true
  | k :: r => negb (existsb (String.eqb k) r) && distinct r
  end.

Definition unique {V : Type} (d : t V) : bool := distinct (keys d).

End Dict.

(** *** Paths and files

    A path is the string [str(path)] gives; the scripts only build paths by
    joining a directory and a relative path, take the last component and the
    parent, and add a suffix. *)

Module Path.

(** [a / b] for a relative [b]. *)
Definition join (a b : string) : string := a ++ "/" ++ b.

(** The split at the last [/], when there is one. *)
Fixpoint rsplit (s : string) : option (string * string) :=
  match s with
  | EmptyString => None
  | String c r =>
      match rsplit r with
      | Some (d, n) => Some (String c d, n)
      | None => if Ascii.eqb c "/" then Some (EmptyString, r) else None
      end
  end.

(** [Path(s).name] *)
Definition name (s : string) : string :=
  match rsplit s with Some (_, n) => n | None => s end.

(** [str(Path(s).parent)] of a relative path: ["."] when [s] has one
    component. *)
Definition parent (s : string) : string :=
  match rsplit s with Some (d, _) => d | None => "." end.

(** [p.with_suffix(p.suffix + '.backup')]: the suffix of a name is a final
    part of it, so replacing it by itself followed by [.backup] appends
    [.backup] to the path. *)
Definition with_backup_suffix (p : string) : string := p ++ ".backup".

End Path.

(** *** Exceptions and the file system

    [open], [shutil.copy2] and [Path.glob] see a finite map from paths to
    the bytes of regular files.  A write creates or replaces one binding.
    The text encoding of the platform is taken to be UTF-8 and its line
    separator the line feed. *)

Inductive exn : Type :=
| FileNotFoundError
| SameFileError
| UnicodeDecodeError
| IndexError
| KeyError
| ValueError
| EOFError.

Inductive result (A : Type) : Type :=
| Ok (a : A)
| Raise (e : exn).
Arguments Ok {A} a.
Arguments Raise {A} e.

Definition bind {A B : Type} (r : result A) (k : A -> result B) : result B :=
  match r with
  | Ok a => k a
  | Raise e => Raise e
  end.

Notation "'do' x <- r ; k" := (bind r (fun x => k))
  (at level 10, x name, r at level 100, k at level 200).

(** The line feed; Rocq strings have no escape for it. *)
Definition LF : string := String "010"%char EmptyString.
Definition CR : ascii := "013"%char.

Module FS.

Definition t : Type := Dict.t string.

Definition exists_ (fs : t) (p : string) : bool := Dict.contains p fs.

Definition read_bytes (fs : t) (p : string) : result string :=
  match Dict.get p fs with
  | Some c => Ok c
  | None => Raise FileNotFoundError
  end.

Definition write (fs : t) (p content : string) : t := Dict.set p content fs.

(** [shutil.copy2(src, dst)] onto a file path. *)
Definition copy2 (fs : t) (src dst : string) : result t :=
  do c <- read_bytes fs src;
  if String.eqb src dst then Raise SameFileError else Ok (write fs dst c).

(** Strict UTF-8: shortest forms only, no surrogates, nothing above
    U+10FFFF. *)
Definition cont (b : nat) : bool := ((128 <=? b) && (b <=? 191))%nat.

Fixpoint utf8_valid (bs : list nat) : bool :=
  match bs with
  | [] => true
  | b0 :: r1 =>
      if (b0 <? 128)%nat then utf8_valid r1
      else match r1 with
      | [] => false
      | b1 :: r2 =>
          if ((194 <=? b0) && (b0 <=? 223))%nat then cont b1 && utf8_valid r2
          else match r2 with
          | [] => false
          | b2 :: r3 =>
              if ((224 <=? b0) && (b0 <=? 239))%nat then
                cont b1 && cont b2
                && (if (b0 =? 224)%nat then (160 <=? b1)%nat else true)
                && (if (b0 =? 237)%nat then (b1 <=? 159)%nat else true)
                && utf8_valid r3
              else match r3 with
              | [] => false
              | b3 :: r4 =>
                  ((240 <=? b0) && (b0 <=? 244))%nat
                  && cont b1 && cont b2 && cont b3
                  && (if (b0 =? 240)%nat then (144 <=? b1)%nat else true)
                  && (if (b0 =? 244)%nat then (b1 <=? 143)%nat else true)
                  && utf8_valid r4
              end
          end
      end
  end.

Definition decodable (c : string) : bool :=
  utf8_valid (map nat_of_ascii (list_ascii_of_string c)).

(** Universal newlines on reading: [\r\n] and a lone [\r] become [\n]. *)
Fixpoint universal_newlines (s : string) : string :=
  match s with
  | EmptyString => EmptyString
  | String c r =>
      if Ascii.eqb c CR then
        match r with
        | String c' r' =>
            if Ascii.eqb c' "010" then String "010" (universal_newlines r')
            else String "010" (universal_newlines r)
        | EmptyString => LF
        end
      else String c (universal_newlines r)
  end.

(** The lines of a text, each with its line feed; the last one may lack
    it. *)
Fixpoint split_lines (cur s : string) : list string :=
  match s with
  | EmptyString => match cur with EmptyString => [] | _ => [cur] end
  | String c r =>
      if Ascii.eqb c "010" then (cur ++ LF) :: split_lines EmptyString r
      else split_lines (cur ++ String c EmptyString) r
  end.

(** [open(p, 'r', encoding='utf-8').readlines()] *)
Definition readlines (fs : t) (p : string) : result (list string) :=
  do c <- read_bytes fs p;
  if decodable c then Ok (split_lines EmptyString (universal_newlines c))
  else Raise UnicodeDecodeError.

(** [open(p, 'w').writelines(lines)] *)
Definition writelines (fs : t) (p : string) (lines : list string) : t :=
  write fs p (String.concat EmptyString lines).

Fixpoint strip_prefix (pre s : string) : option string :=
  match pre, s with
  | EmptyString, _ => Some s
  | String a pre', String b s' =>
      if Ascii.eqb a b then strip_prefix pre' s' else None
  | String _ _, EmptyString => None
  end.

Fixpoint has_slash (s : string) : bool :=
  match s with
  | EmptyString => false
  | String c r => Ascii.eqb c "/" || has_slash r
  end.

(** [list(dir.glob('*' + suffix))]: the files right under [dir] whose name
    ends with [suffix], in the order the directory lists them (here the
    order of the map). *)
Definition glob (fs : t) (dir suffix : string) : list string :=
  filter
    (fun p =>
       match strip_prefix (dir ++ "/") p with
       | Some n => negb (has_slash n) && Py.endswith n suffix
       | None => false
       end)
    (Dict.keys fs).

(** [list(...)[0]] *)
Definition first (l : list string) : result string :=
  match l with
  | p :: _ => Ok p
  | [] => Raise IndexError
  end.

End FS.

(* ================================================================== *)
(** ** difflib.unified_diff *)
(* ================================================================== *)

(** The standard library's generator of unified diffs, as far as the
    scripts depend on it: how the opcode groups of the sequence matcher are
    printed.  The matcher itself ([SequenceMatcher.get_grouped_opcodes]) is
    an argument ([groups]). *)

Module Difflib.

Inductive tag : Type := equal | replace | delete | insert.

Record opcode : Type := Opcode
  { op : tag; i1 : nat; i2 : nat; j1 : nat; j2 : nat }.

Definition group : Type := list opcode.

Definition _format_range_unified (start stop : nat) : string :=
  let beginning := start + 1 in
  let length := stop - start in
  if (length =? 1)%nat then Py.str_of_nat beginning
  else
    let beginning := if (length =? 0)%nat then beginning - 1 else beginning in
    Py.str_of_nat beginning ++ "," ++ Py.str_of_nat length.

(** [a[i:j]] *)
Definition slice (a : list string) (i j : nat) : list string :=
  firstn (j - i) (skipn i a).

Definition marked (mark : string) (ls : list string) : list string :=
  map (fun l => mark ++ l) ls.

Definition opcode_lines (a b : list string) (o : opcode) : list string :=
  match op o with
  | equal => marked " " (slice a (i1 o) (i2 o))
  | replace =>
      app (marked "-" (slice a (i1 o) (i2 o)))
          (marked "+" (slice b (j1 o) (j2 o)))
  | delete => marked "-" (slice a (i1 o) (i2 o))
  | insert => marked "+" (slice b (j1 o) (j2 o))
  end.

Definition no_opcode : opcode := Opcode equal 0 0 0 0.

Definition group_lines (a b : list string) (g : group) : list string :=
  let first := hd no_opcode g in
  let last := List.last g no_opcode in
  ("@@ -" ++ _format_range_unified (i1 first) (i2 last)
    ++ " +" ++ _format_range_unified (j1 first) (j2 last) ++ " @@" ++ LF)
  :: flat_map (opcode_lines a b) g.

(** [unified_diff(a, b, fromfile, tofile, n=3)] with the default line
    terminator: the two header lines once, before the first group. *)
Definition unified_diff (groups : list group) (a b : list string)
    (fromfile tofile : string) : list string :=
  match groups with
  | [] => []
  | _ =>
      ("--- " ++ fromfile ++ LF) :: ("+++ " ++ tofile ++ LF)
      :: flat_map (group_lines a b) groups
  end.

End Difflib.

(* ================================================================== *)
(** ** sync.py: class FigmaSyncManager *)
(* ================================================================== *)

Module Sync.

(** What [os.walk] sees: a directory is the list of its entries in the
    order the system lists them; a file carries its bytes, or nothing when
    opening or reading it raises.  Links are not modelled. *)
#[warnings="-register-all"]
Inductive node : Type :=
| File (name : string) (content : option string)
| Dir (name : string) (entries : list node).

(** The result of [_get_project_structure]:
    [{'folders': [...], 'files': {path: hash}}]. *)
Record structure : Type := Structure
  { folders : list string; files : Dict.t string }.

(** The attributes of the manager that the analysis fills. *)
Record manager : Type := Manager
  { old_project : string;
    new_figma : string;
    output_dir : string;
    new_folders : list string;
    new_files : list string;
    updated_files : list string;
    deleted_folders : list string;
    deleted_files : list string;
    identical_files : list string;
    folder_labels : Dict.t string;
    file_labels : Dict.t string;
    update_labels : Dict.t string }.

(** [__init__] *)
Definition init (old new out : string) : manager :=
  Manager old new out [] [] [] [] [] [] [] [] [].

Definition updated_files_dir (m : manager) : string :=
  Path.join (output_dir m) "03_UPDATED_FILES".

(** [x in l] on a list of strings. *)
Definition mem (x : string) (l : list string) : bool :=
  existsb (String.eqb x) l.

Definition ignored_dirs : list string :=
  ["node_modules"; ".next"; "dist"; ".git"; "build"].

(** [file_name.startswith('.') or file_name.endswith(('.pyc', '.log'))] *)
Definition skipped_file (file_name : string) : bool :=
  Py.startswith file_name "."
  || (Py.endswith file_name ".pyc" || Py.endswith file_name ".log").

(** [str((Path(root) / name).relative_to(project_path))] for the directory
    [root] whose own relative path is [rel] (empty for the project root). *)
Definition child (rel name : string) : string :=
  match rel with
  | EmptyString => name
  | _ => Path.join rel name
  end.

Definition dir_names (entries : list node) : list string :=
  flat_map (fun n => match n with Dir d _ => [d] | File _ _ => [] end) entries.

Definition file_entries (entries : list node) : list (string * option string) :=
  flat_map (fun n => match n with File f c => [(f, c)] | Dir _ _ => [] end)
    entries.

Section Scanner.

(** [hashlib.md5(bytes).hexdigest()] *)
Variable md5 : string -> string.

Definition add_folders (rel : string) (dirs : list string) (st : structure)
    : structure :=
  fold_left
    (fun st dir_name =>
       Structure (folders st ++ [child rel dir_name])%list (files st))
    dirs st.

Definition add_files (rel : string) (fs : list (string * option string))
    (st : structure) : structure :=
  fold_left
    (fun st f =>
       let '(file_name, content) := f in
       if skipped_file file_name then st
       else match content with
            | Some bytes =>
                Structure (folders st)
                  (Dict.set (child rel file_name) (md5 bytes) (files st))
            | None => st (* the read raised: reported, the file left out *)
            end)
    fs st.

(** One step of [os.walk] at the directory [n] with relative path [rel],
    followed by the walk of the subdirectories that were kept. *)
Fixpoint visit (rel : string) (n : node) (st : structure) {struct n}
    : structure :=
  match n with
  | File _ _ => st
  | Dir _ entries =>
      let dirs := filter (fun d => negb (mem d ignored_dirs))
                    (dir_names entries) in
      let st := add_folders rel dirs st in
      let st := add_files rel (file_entries entries) st in
      (fix descend (es : list node) (st : structure) : structure :=
         match es with
         | [] => st
         | e :: es' =>
             match e with
             | Dir d _ =>
                 if mem d ignored_dirs then descend es' st
                 else descend es' (visit (child rel d) e st)
             | File _ _ => descend es' st
             end
         end) entries st
  end.

Definition _get_project_structure (root : list node) : structure :=
  visit EmptyString (Dir EmptyString root) (Structure [] []).

End Scanner.

(** The four loops of [scan_projects] over the two structures. *)
Definition classify (old_structure new_structure : structure) (m : manager)
    : manager :=
  (* Find new folders *)
  let nf :=
    fold_left
      (fun acc folder =>
         if negb (mem folder (folders old_structure))
         then (acc ++ [folder])%list else acc)
      (folders new_structure) (new_folders m) in
  (* Find deleted folders *)
  let df :=
    fold_left
      (fun acc folder =>
         if negb (mem folder (folders new_structure))
         then (acc ++ [folder])%list else acc)
      (folders old_structure) (deleted_folders m) in
  (* Find file changes *)
  let '(nfi, ufi, ifi) :=
    fold_left
      (fun acc item =>
         let '(n, u, i) := acc in
         let '(file_path, file_hash) := item in
         match Dict.get file_path (files old_structure) with
         | None => ((n ++ [file_path])%list, u, i)
         | Some old_hash =>
             if negb (String.eqb old_hash file_hash)
             then (n, (u ++ [file_path])%list, i)
             else (n, u, (i ++ [file_path])%list)
         end)
      (files new_structure)
      (new_files m, updated_files m, identical_files m) in
  (* Find deleted files *)
  let dfi :=
    fold_left
      (fun acc file_path =>
         if negb (Dict.contains file_path (files new_structure))
         then (acc ++ [file_path])%list else acc)
      (Dict.keys (files old_structure)) (deleted_files m) in
  Manager (old_project m) (new_figma m) (output_dir m)
    nf nfi ufi df dfi ifi
    (folder_labels m) (file_labels m) (update_labels m).

Definition scan_projects (md5 : string -> string) (old_tree new_tree : list node)
    (m : manager) : manager :=
  classify (_get_project_structure md5 old_tree)
           (_get_project_structure md5 new_tree) m.

(** [enumerate(l, 1)] *)
Definition enumerate1 {A : Type} (l : list A) : list (nat * A) :=
  combine (seq 1 (List.length l)) l.

Definition label (kind : string) (idx : nat) : string :=
  kind ++ Py.format_03d idx.

(** The labels [process_new_folders] assigns.  The preview copy of each
    folder is not part of the registry and is left out. *)
Definition process_new_folders (m : manager) : manager :=
  let labels :=
    fold_left
      (fun acc p => let '(idx, folder) := p in Dict.set (label "F" idx) folder acc)
      (enumerate1 (new_folders m)) (folder_labels m) in
  Manager (old_project m) (new_figma m) (output_dir m)
    (new_folders m) (new_files m) (updated_files m)
    (deleted_folders m) (deleted_files m) (identical_files m)
    labels (file_labels m) (update_labels m).

(** Group files by directory. *)
Definition group_by_dir (paths : list string) : Dict.t (list string) :=
  fold_left
    (fun files_by_dir file_path =>
       let dir_path := Path.parent file_path in
       let files_by_dir :=
         if negb (Dict.contains dir_path files_by_dir)
         then Dict.set dir_path [] files_by_dir else files_by_dir in
       match Dict.get dir_path files_by_dir with
       | Some fs => Dict.set dir_path (fs ++ [file_path])%list files_by_dir
       | None => files_by_dir
       end)
    paths [].

(** The files in the order [process_new_files] labels them: directories
    sorted, and the files of each directory sorted. *)
Definition new_files_order (paths : list string) : list string :=
  let files_by_dir := group_by_dir paths in
  flat_map
    (fun dir_path =>
       match Dict.get dir_path files_by_dir with
       | Some fs => Py.sorted fs
       | None => []
       end)
    (Py.sorted (Dict.keys files_by_dir)).

(** The labels [process_new_files] assigns ([label_counter] runs from 1
    over the whole order); the preview copies are left out. *)
Definition process_new_files (m : manager) : manager :=
  let labels :=
    fold_left
      (fun acc p =>
         let '(label_counter, file_path) := p in
         Dict.set (label "N" label_counter) file_path acc)
      (enumerate1 (new_files_order (new_files m))) (file_labels m) in
  Manager (old_project m) (new_figma m) (output_dir m)
    (new_folders m) (new_files m) (updated_files m)
    (deleted_folders m) (deleted_files m) (identical_files m)
    (folder_labels m) labels (update_labels m).

Record stats : Type := Stats { added : nat; removed : nat }.

(** [sum(1 for line in diff if line.startswith(m) and not
    line.startswith(mmm))] *)
Definition count_marked (m mmm : string) (diff : list string) : nat :=
  List.length
    (filter (fun line => Py.startswith line m && negb (Py.startswith line mmm))
       diff).

Section DiffGenerator.

(** [SequenceMatcher(None, a, b).get_grouped_opcodes(3)] *)
Variable get_grouped_opcodes :
  list string -> list string -> list Difflib.group.

(** The body of the [try], up to the point where nothing can fail in the
    model any more. *)
Definition read_both (fs : FS.t) (old_file new_file : string)
    : result (list string * list string) :=
  do old_lines <- FS.readlines fs old_file;
  do new_lines <- FS.readlines fs new_file;
  Ok (old_lines, new_lines).

Definition _create_diff_file (fs : FS.t) (old_file new_file diff_file : string)
    : FS.t * stats :=
  match read_both fs old_file new_file with
  | Ok (old_lines, new_lines) =>
      let diff :=
        Difflib.unified_diff (get_grouped_opcodes old_lines new_lines)
          old_lines new_lines
          ("a/" ++ Path.name old_file) ("b/" ++ Path.name new_file) in
      let added := count_marked "+" "+++" diff in
      let removed := count_marked "-" "---" diff in
      (FS.writelines fs diff_file diff, Stats added removed)
  | Raise _ =>
      (* except Exception: the error is printed *)
      (fs, Stats 0 0)
  end.

Definition summary_text (file_path label : string) (s : stats) : string :=
  "File: " ++ file_path ++ LF
  ++ "Lines Added: " ++ Py.str_of_nat (added s) ++ LF
  ++ "Lines Removed: " ++ Py.str_of_nat (removed s) ++ LF
  ++ "Total Changes: " ++ Py.str_of_nat (added s + removed s) ++ LF
  ++ LF ++ "To apply: python3 sync.py --apply-update " ++ label ++ LF
  ++ "To view: python3 sync.py --view-diff " ++ label ++ LF.

(** One turn of the loop of [process_updated_files]: the label, the diff,
    the two copies and the summary. *)
Definition process_updated_file (m : manager) (fs : FS.t)
    (idx : nat) (file_path : string) : result (manager * FS.t) :=
  let label := label "U" idx in
  let m :=
    Manager (old_project m) (new_figma m) (output_dir m)
      (new_folders m) (new_files m) (updated_files m)
      (deleted_folders m) (deleted_files m) (identical_files m)
      (folder_labels m) (file_labels m)
      (Dict.set label file_path (update_labels m)) in
  let old_file := Path.join (old_project m) file_path in
  let new_file := Path.join (new_figma m) file_path in
  let update_dir := Path.join (updated_files_dir m) label in
  let diff_file := Path.join update_dir (Path.name file_path ++ ".diff") in
  let '(fs, stats) := _create_diff_file fs old_file new_file diff_file in
  do fs <- FS.copy2 fs old_file
             (Path.join update_dir (Path.name file_path ++ ".OLD"));
  do fs <- FS.copy2 fs new_file
             (Path.join update_dir (Path.name file_path ++ ".NEW"));
  let fs := FS.write fs (Path.join update_dir "SUMMARY.txt")
              (summary_text file_path label stats) in
  Ok (m, fs).

Fixpoint process_updated_loop (m : manager) (fs : FS.t)
    (items : list (nat * string)) : result (manager * FS.t) :=
  match items with
  | [] => Ok (m, fs)
  | (idx, file_path) :: rest =>
      do r <- process_updated_file m fs idx file_path;
      process_updated_loop (fst r) (snd r) rest
  end.

Definition process_updated_files (m : manager) (fs : FS.t)
    : result (manager * FS.t) :=
  process_updated_loop m fs (enumerate1 (Py.sorted (updated_files m))).

End DiffGenerator.

(** The tracking file [sync_tracking.json], as far as it is read back. *)
Record tracking : Type := Tracking
  { t_old_project : string;
    t_new_figma : string;
    folders_of : Dict.t string;
    files_of : Dict.t string;
    updates_of : Dict.t string }.

(** [generate_summary_report] writes the label registry of the manager. *)
Definition generate_summary_report (m : manager) : tracking :=
  Tracking (old_project m) (new_figma m)
    (folder_labels m) (file_labels m) (update_labels m).

Inductive change_type : Type := file | update.

(** [apply_change(label, change_type)] for new files and updates, on a
    manager made from the tracking file as [main] makes it.  [None] for
    the tracking file stands for its absence. *)
Definition apply_change (tracking_file : option tracking) (fs : FS.t)
    (label : string) (ct : change_type) : result (bool * FS.t) :=
  match tracking_file with
  | None => Ok (false, fs)
  | Some tracking =>
      match ct with
      | file =>
          match Dict.get label (files_of tracking) with
          | None => Ok (false, fs)
          | Some file_path =>
              let src := Path.join (t_new_figma tracking) file_path in
              let dest := Path.join (t_old_project tracking) file_path in
              do fs <- FS.copy2 fs src dest;
              Ok (true, fs)
          end
      | update =>
          match Dict.get label (updates_of tracking) with
          | None => Ok (false, fs)
          | Some file_path =>
              let src := Path.join (t_new_figma tracking) file_path in
              let dest := Path.join (t_old_project tracking) file_path in
              (* Backup original *)
              let backup := Path.with_backup_suffix dest in
              do fs <- FS.copy2 fs dest backup;
              (* Apply update *)
              do fs <- FS.copy2 fs src dest;
              Ok (true, fs)
          end
      end
  end.

(** [run_analysis] on the manager [main] makes for [--analyze]: the scan,
    the three label passes and the report, as far as the label registry
    and the preview files of the updates go.  The scan sees the two trees
    and the diff generator the files; the directories of
    [initialize_structure], the list of deleted items and the texts of
    the report hold no label. *)
Definition run_analysis (md5 : string -> string)
    (get_grouped_opcodes : list string -> list string -> list Difflib.group)
    (old_tree new_tree : list node) (fs : FS.t) (m : manager)
    : result (tracking * FS.t) :=
  let m := scan_projects md5 old_tree new_tree m in
  let m := process_new_folders m in
  let m := process_new_files m in
  do r <- process_updated_files get_grouped_opcodes m fs;
  Ok (generate_summary_report (fst r), snd r).

End Sync.

(* ================================================================== *)
(** ** review.py: class InteractiveDiffReviewer *)
(* ================================================================== *)

Module Review.

(** *** Hunks *)

(** The dictionary [_parse_diff_file] makes for a hunk; [added] and
    [removed] are the two counters under ['changes']. *)
Record hunk : Type := Hunk
  { header : string;
    old_start : nat;
    old_count : nat;
    new_start : nat;
    new_count : nat;
    context : string;
    lines : list string;
    added : nat;
    removed : nat }.

Definition obind {A B : Type} (o : option A) (k : A -> option B) : option B :=
  match o with
  | Some a => k a
  | None => None
  end.

Notation "'try' x <- o ; k" := (obind o (fun x => k))
  (at level 10, x name, o at level 100, k at level 200).

(** A run of digits, as long as it goes. *)
Fixpoint span_digits (s : string) : string * string :=
  match s with
  | EmptyString => (EmptyString, EmptyString)
  | String c r =>
      if Py.isdigit c
      then let '(d, rest) := span_digits r in (String c d, rest)
      else (EmptyString, s)
  end.

Definition number (s : string) : option (nat * string) :=
  match span_digits s with
  | (EmptyString, _) => None
  | (d, rest) => Some (Py.int_of_digits 0 d, rest)
  end.

(** The last group, any characters: up to the end of the line. *)
Fixpoint until_newline (s : string) : string :=
  match s with
  | EmptyString => EmptyString
  | String c r =>
      if Ascii.eqb c "010" then EmptyString else String c (until_newline r)
  end.

(** [re.match] of the line against the header pattern: [@@ -] digits [,]
    digits [ +] digits [,] digits [ @@] and anything up to the end of the
    line.  The result is the five groups, the numbers converted by [int].
    A run of digits is followed by a literal that is not a digit, so the
    greedy match is the only one. *)
Definition match_header (line : string)
    : option (nat * nat * nat * nat * string) :=
  try s <- FS.strip_prefix "@@ -" line;
  try g1 <- number s;
  try s <- FS.strip_prefix "," (snd g1);
  try g2 <- number s;
  try s <- FS.strip_prefix " +" (snd g2);
  try g3 <- number s;
  try s <- FS.strip_prefix "," (snd g3);
  try g4 <- number s;
  try s <- FS.strip_prefix " @@" (snd g4);
  Some (fst g1, fst g2, fst g3, fst g4, until_newline s).

(** The state of the loop of [_parse_diff_file].  The hunk dictionaries are
    objects: the list [hunks] and the variable [current_hunk] hold
    references into [heap], so that a line appended through
    [current_hunk] shows in every place of [hunks] that refers to the same
    dictionary. *)
Record parser : Type := Parser
  { heap : list hunk;
    hunks : list nat;
    current_hunk : option nat }.

Definition no_hunk : hunk :=
  Hunk EmptyString 0 0 0 0 EmptyString [] 0 0.

Fixpoint update {A : Type} (l : list A) (i : nat) (f : A -> A) : list A :=
  match l, i with
  | [], _ => []
  | x :: r, O => f x :: r
  | x :: r, S j => x :: update r j f
  end.

Definition add_line (line : string) (h : hunk) : hunk :=
  let h := Hunk (header h) (old_start h) (old_count h) (new_start h)
             (new_count h) (context h) (lines h ++ [line])%list
             (added h) (removed h) in
  if Py.startswith line "+" && negb (Py.startswith line "+++") then
    Hunk (header h) (old_start h) (old_count h) (new_start h)
      (new_count h) (context h) (lines h) (added h + 1) (removed h)
  else if Py.startswith line "-" && negb (Py.startswith line "---") then
    Hunk (header h) (old_start h) (old_count h) (new_start h)
      (new_count h) (context h) (lines h) (added h) (removed h + 1)
  else h.

Definition parse_line (st : parser) (line : string) : parser :=
  if Py.startswith line "@@" then
    (* New hunk *)
    let hunks :=
      match current_hunk st with
      | Some ref => (hunks st ++ [ref])%list
      | None => hunks st
      end in
    (* Parse hunk header *)
    match match_header line with
    | Some (g1, g2, g3, g4, g5) =>
        let new := Hunk (Py.strip line) g1 g2 g3 g4 (Py.strip g5) [] 0 0 in
        Parser (heap st ++ [new])%list hunks (Some (List.length (heap st)))
    | None => Parser (heap st) hunks (current_hunk st)
    end
  else
    match current_hunk st with
    | Some ref => Parser (update (heap st) ref (add_line line)) (hunks st)
                    (current_hunk st)
    | None => st
    end.

(** [_parse_diff_file] on the lines [readlines] gave. *)
Definition _parse_diff_file (lines : list string) : list hunk :=
  let st := fold_left parse_line lines (Parser [] [] None) in
  let hunks :=
    match current_hunk st with
    | Some ref => (hunks st ++ [ref])%list
    | None => hunks st
    end in
  map (fun ref => nth ref (heap st) no_hunk) hunks.

(** [_apply_hunk(file_path, hunk, original_lines)]; the path is not
    used. *)
Definition new_content (h : hunk) : list string :=
  flat_map
    (fun line =>
       if negb (Py.startswith line "-") then
         if Py.startswith line "+" then [substring 1 (String.length line - 1) line]
         else [if Py.startswith line " "
               then substring 1 (String.length line - 1) line
               else line]
       else [])
    (lines h).

Definition _apply_hunk (h : hunk) (original_lines : list string)
    : list string :=
  let start := (Z.of_nat (old_start h) - 1)%Z in
  let end_ := (start + Z.of_nat (old_count h))%Z in
  Py.slice_assign original_lines start end_ (new_content h).

(** All the hunks of a diff applied in order, each to the result of the
    one before. *)
Definition apply_hunks (hs : list hunk) (original_lines : list string)
    : list string :=
  fold_left (fun ls h => _apply_hunk h ls) hs original_lines.

(** *** The decision store *)

(** An entry of the partial bucket:
    [{'file', 'approved', 'rejected', 'total', 'timestamp'}].  A count that
    is missing in the file reads as 0 ([details.get(key, 0)]), like a
    count that is 0. *)
Record details : Type := Details
  { file : string;
    approved_count : Z;
    rejected_count : Z;
    total : Z;
    timestamp : string }.

(** A value of the partial bucket: an entry, or some JSON value that is
    not an object ([isinstance(details, dict)] is false). *)
Inductive partial_value : Type :=
| Entry (d : details)
| NotADict.

(** [{'approved': {...}, 'rejected': {...}, 'partial': {...}}] *)
Record decision_store : Type := Decisions
  { approved : Dict.t string;
    rejected : Dict.t string;
    partial : Dict.t partial_value }.

Definition no_decisions : decision_store := Decisions [] [] [].

(** The reviewer object, and next to it what it reads and writes: the
    tracking file and the decisions file as the JSON documents they hold
    ([None]: no such file), and the other files. *)
Record reviewer : Type := Reviewer
  { sync_dir : string;
    tracking_data : option Sync.tracking;
    decisions : decision_store;
    decisions_file : option decision_store;
    fs : FS.t }.

Definition updates_dir (r : reviewer) : string :=
  Path.join (sync_dir r) "03_UPDATED_FILES".

(** [self.tracking_data.get('labels', {}).get('updates', {})] *)
Definition updates (r : reviewer) : Dict.t string :=
  match tracking_data r with
  | Some t => Sync.updates_of t
  | None => []
  end.

(** [_load_decisions] *)
Definition _load_decisions (decisions_json : option decision_store)
    : decision_store :=
  match decisions_json with
  | Some d => d
  | None => no_decisions
  end.

(** [__init__] *)
Definition make (dir : string) (tracking_json : option Sync.tracking)
    (decisions_json : option decision_store) (files : FS.t) : reviewer :=
  Reviewer dir tracking_json (_load_decisions decisions_json)
    decisions_json files.

Definition with_decisions (r : reviewer) (d : decision_store) : reviewer :=
  Reviewer (sync_dir r) (tracking_data r) d (decisions_file r) (fs r).

Definition with_fs (r : reviewer) (fs' : FS.t) : reviewer :=
  Reviewer (sync_dir r) (tracking_data r) (decisions r)
    (decisions_file r) fs'.

(** [_save_decisions] *)
Definition _save_decisions (r : reviewer) : reviewer :=
  Reviewer (sync_dir r) (tracking_data r) (decisions r)
    (Some (decisions r)) (fs r).


(** *** Interactive review of one file *)

(** How the prompt at one hunk ends. *)
Inductive verdict : Type := accept | reject | skip | quit_review.

(** [input(...).lower().strip()] *)
Definition choice_of (typed : string) : string := Py.strip (Py.lower typed).

(** The [while True] loop at one hunk: it reads lines until one of them is
    a decision; [v] shows the diff and asks again, anything else is an
    invalid choice and asks again.  With no line left, [input] raises. *)
Fixpoint ask (inputs : list string) : result verdict * list string :=
  match inputs with
  | [] => (Raise EOFError, [])
  | typed :: rest =>
      let choice := choice_of typed in
      if choice =? "a" then (Ok accept, rest)
      else if choice =? "r" then (Ok reject, rest)
      else if choice =? "s" then (Ok skip, rest)
      else if choice =? "v" then ask rest
      else if choice =? "q" then (Ok quit_review, rest)
      else ask rest
  end.

(** How the loop over the hunks ends: all hunks visited, or [q]. *)
Inductive loop_end : Type :=
| visited (approved_hunks rejected_hunks : list hunk)
| stopped.

Fixpoint review_hunks (hunks : list hunk) (inputs : list string)
    (approved_hunks rejected_hunks : list hunk)
    : result loop_end * list string :=
  match hunks with
  | [] => (Ok (visited approved_hunks rejected_hunks), inputs)
  | hunk :: hunks' =>
      match ask inputs with
      | (Ok accept, rest) =>
          review_hunks hunks' rest (approved_hunks ++ [hunk])%list rejected_hunks
      | (Ok reject, rest) =>
          review_hunks hunks' rest approved_hunks (rejected_hunks ++ [hunk])%list
      | (Ok skip, rest) =>
          review_hunks hunks' rest approved_hunks rejected_hunks
      | (Ok quit_review, rest) => (Ok stopped, rest)
      | (Raise e, rest) => (Raise e, rest)
      end
  end.

(** [if label in self.decisions['partial']: del
    self.decisions['partial'][label]] *)
Definition remove_from_partial (label : string) (p : Dict.t partial_value)
    : Dict.t partial_value :=
  if Dict.contains label p then Dict.del label p else p.

(** The decision at the end of [review_file]; [now] is
    [datetime.now().isoformat()]. *)
Definition record_review (d : decision_store) (label file_path now : string)
    (approved_hunks rejected_hunks hunks : list hunk) : decision_store :=
  if (List.length approved_hunks =? List.length hunks)%nat then
    (* All approved - move to approved section *)
    Decisions (Dict.set label file_path (approved d)) (rejected d)
      (remove_from_partial label (partial d))
  else if (List.length rejected_hunks =? List.length hunks)%nat then
    (* All rejected - move to rejected section *)
    Decisions (approved d) (Dict.set label file_path (rejected d))
      (remove_from_partial label (partial d))
  else
    (* Mixed or skipped - save in partial *)
    Decisions (approved d) (rejected d)
      (Dict.set label
         (Entry (Details file_path
                   (Z.of_nat (List.length approved_hunks))
                   (Z.of_nat (List.length rejected_hunks))
                   (Z.of_nat (List.length hunks))
                   now))
         (partial d)).

(** The dictionary [review_file] returns. *)
Inductive status : Type :=
| status_error
| no_changes
| quit
| reviewed (approved_hunks rejected_hunks total_hunks : list hunk).

(** The three preview files, found by pattern, and the lines of the
    first. *)
Definition open_preview (r : reviewer) (label : string)
    : result (list string) :=
  let update_dir := Path.join (updates_dir r) label in
  do diff_file <- FS.first (FS.glob (fs r) update_dir ".diff");
  do old_file <- FS.first (FS.glob (fs r) update_dir ".OLD");
  do new_file <- FS.first (FS.glob (fs r) update_dir ".NEW");
  FS.readlines (fs r) diff_file.

(** [review_file(label)]: the result or the exception, the reviewer and
    the files after the call, and the input not yet read. *)
Definition review_file (r : reviewer) (label now : string)
    (inputs : list string) : result status * reviewer * list string :=
  match Dict.get label (updates r) with
  | None => (Ok status_error, r, inputs)
  | Some file_path =>
      match open_preview r label with
      | Raise e => (Raise e, r, inputs)
      | Ok diff_lines =>
          match _parse_diff_file diff_lines with
          | [] => (Ok no_changes, r, inputs)
          | hunks =>
              match review_hunks hunks inputs [] [] with
              | (Raise e, rest) => (Raise e, r, rest)
              | (Ok stopped, rest) => (Ok quit, r, rest)
              | (Ok (visited approved_hunks rejected_hunks), rest) =>
                  let d := record_review (decisions r) label file_path
                             now approved_hunks rejected_hunks hunks in
                  (Ok (reviewed approved_hunks rejected_hunks hunks),
                   _save_decisions (with_decisions r d), rest)
              end
          end
      end
  end.

(** *** Applying the approved changes *)

(** One turn of the first loop of [apply_decisions]. *)
Definition include_if_approved (d : decision_store)
    (item : string * partial_value) : decision_store :=
  match item with
  | (label, Entry details) =>
      if (approved_count details =? total details)%Z then
        (* This file was fully approved, move it to approved *)
        Decisions (Dict.set label (file details) (approved d))
          (rejected d) (partial d)
      else d
  | (_, NotADict) => d
  end.

(** The first loop of [apply_decisions], over the partial bucket. *)
Definition include_approved_partials (d : decision_store) : decision_store :=
  fold_left include_if_approved (partial d) d.

(** One turn of the second loop: the backup, then the new version. *)
Definition apply_one (r : reviewer) (label file_path : string)
    : result FS.t :=
  let update_dir := Path.join (updates_dir r) label in
  do new_file <- FS.first (FS.glob (fs r) update_dir ".NEW");
  do old_project <-
    match tracking_data r with
    | Some t => Ok (Sync.t_old_project t)
    | None => Raise KeyError
    end;
  let target_path := Path.join old_project file_path in
  (* Backup original *)
  let backup_path := Path.with_backup_suffix target_path in
  do fs1 <- FS.copy2 (fs r) target_path backup_path;
  (* Apply new version *)
  FS.copy2 fs1 new_file target_path.

Fixpoint apply_loop (items : list (string * string)) (r : reviewer)
    : result unit * reviewer :=
  match items with
  | [] => (Ok tt, r)
  | (label, file_path) :: rest =>
      match apply_one r label file_path with
      | Ok fs' => apply_loop rest (with_fs r fs')
      | Raise e => (Raise e, r)
      end
  end.

(** [apply_decisions()] *)
Definition apply_decisions (r : reviewer) : result unit * reviewer :=
  let r := with_decisions r (include_approved_partials (decisions r)) in
  if negb (Dict.truthy (approved (decisions r))) then (Ok tt, r)
  else apply_loop (approved (decisions r)) r.

(** *** Quick review of all files *)

(** [_generate_apply_script]: one command per approved label.  The [echo]
    lines and the date of the script are left out. *)
Definition _generate_apply_script (r : reviewer) : reviewer :=
  with_fs r
    (FS.write (fs r) (Path.join (sync_dir r) "apply_approved.sh")
       ("#!/bin/bash" ++ LF
        ++ String.concat EmptyString
             (map (fun label => "python3 sync.py --apply-update " ++ label ++ LF)
                (Dict.keys (approved (decisions r)))))).

(** [_show_final_summary()] with [ask_to_apply] true. *)
Definition _show_final_summary (r : reviewer) (inputs : list string)
    : result unit * reviewer * list string :=
  if Dict.truthy (approved (decisions r)) then
    let r := _generate_apply_script r in
    match inputs with
    | [] => (Raise EOFError, r, [])
    | typed :: rest =>
        if choice_of typed =? "y"
        then let '(res, r') := apply_decisions r in (res, r', rest)
        else (Ok tt, r, rest)
    end
  else (Ok tt, r, inputs).

(** The part of a summary line that [int] is given:
    [line.split(':')[1].strip()]. *)
Fixpoint after_colon (s : string) : option string :=
  match s with
  | EmptyString => None
  | String c r => if Ascii.eqb c ":" then Some r else after_colon r
  end.

Fixpoint until_colon (s : string) : string :=
  match s with
  | EmptyString => EmptyString
  | String c r =>
      if Ascii.eqb c ":" then EmptyString else String c (until_colon r)
  end.

Definition all_digits (s : string) : bool :=
  match span_digits s with
  | (String _ _, EmptyString) => true
  | _ => false
  end.

Fixpoint contains (s sub : string) : bool :=
  Py.startswith s sub
  || match s with
     | EmptyString => false
     | String _ r => contains r sub
     end.

(** Reading the counts of [SUMMARY.txt] for display.  [int] is taken to
    accept decimal digits only, as the analysis writes them. *)
Definition read_count (line : string) : result unit :=
  match after_colon line with
  | Some rest =>
      if all_digits (Py.strip (until_colon rest)) then Ok tt
      else Raise ValueError
  | None => Raise IndexError
  end.

Fixpoint split_at_newlines (cur s : string) : list string :=
  match s with
  | EmptyString => [cur]
  | String c r =>
      if Ascii.eqb c "010" then cur :: split_at_newlines EmptyString r
      else split_at_newlines (cur ++ String c EmptyString) r
  end.

Fixpoint parse_summary_lines (ls : list string) : result unit :=
  match ls with
  | [] => Ok tt
  | line :: rest =>
      if contains line "Lines Added:" || contains line "Lines Removed:"
      then do _ <- read_count line; parse_summary_lines rest
      else parse_summary_lines rest
  end.

Definition read_summary (fs : FS.t) (summary_file : string) : result unit :=
  do c <- FS.read_bytes fs summary_file;
  if FS.decodable c
  then parse_summary_lines
         (split_at_newlines EmptyString (FS.universal_newlines c))
  else Raise UnicodeDecodeError.

(** How the loop of [quick_review_all] ends: all labels seen, or the
    function returned at [q]. *)
Inductive quick_end : Type := all_seen | returned.

Fixpoint quick_loop (items : list (string * string)) (r : reviewer)
    (now : string) (inputs : list string)
    : result quick_end * reviewer * list string :=
  match items with
  | [] => (Ok all_seen, r, inputs)
  | (label, file_path) :: items' =>
      let summary_file :=
        Path.join (Path.join (updates_dir r) label) "SUMMARY.txt" in
      if FS.exists_ (fs r) summary_file then
        match read_summary (fs r) summary_file with
        | Raise e => (Raise e, r, inputs)
        | Ok _ =>
            match inputs with
            | [] => (Raise EOFError, r, [])
            | typed :: rest =>
                let choice := choice_of typed in
                let d := decisions r in
                if choice =? "a" then
                  quick_loop items'
                    (with_decisions r
                       (Decisions (Dict.set label file_path (approved d))
                          (rejected d) (partial d)))
                    now rest
                else if choice =? "r" then
                  quick_loop items'
                    (with_decisions r
                       (Decisions (approved d)
                          (Dict.set label file_path (rejected d)) (partial d)))
                    now rest
                else if choice =? "v" then
                  match review_file r label now rest with
                  | (Ok _, r', rest') => quick_loop items' r' now rest'
                  | (Raise e, r', rest') => (Raise e, r', rest')
                  end
                else if choice =? "q" then
                  match _show_final_summary (_save_decisions r) rest with
                  | (Ok _, r', rest') => (Ok returned, r', rest')
                  | (Raise e, r', rest') => (Raise e, r', rest')
                  end
                else quick_loop items' r now rest
            end
        end
      else quick_loop items' r now inputs
  end.

(** [quick_review_all()] *)
Definition quick_review_all (r : reviewer) (now : string)
    (inputs : list string) : result unit * reviewer * list string :=
  match updates r with
  | [] => (Ok tt, r, inputs)
  | items =>
      match quick_loop items r now inputs with
      | (Ok all_seen, r', rest) => _show_final_summary (_save_decisions r') rest
      | (Ok returned, r', rest) => (Ok tt, r', rest)
      | (Raise e, r', rest) => (Raise e, r', rest)
      end
  end.

(** *** Reconciliation: [main] under [--fix-decisions] *)

Definition fix_step (acc : decision_store * bool)
    (item : string * partial_value) : decision_store * bool :=
  let '(d, fixed) := acc in
  match item with
  | (label, Entry details) =>
      if ((approved_count details =? total details)
          && (total details >? 0))%Z then
        (* Fully approved - move to approved *)
        (Decisions (Dict.set label (file details) (approved d))
           (rejected d) (Dict.del label (partial d)), true)
      else if ((rejected_count details =? total details)
               && (total details >? 0))%Z then
        (* Fully rejected - move to rejected *)
        (Decisions (approved d)
           (Dict.set label (file details) (rejected d))
           (Dict.del label (partial d)), true)
      else acc
  | (_, NotADict) => acc
  end.

(** The branch of [main]: the loop runs over a copy of the items of the
    partial bucket, and the file is written when something was moved. *)
Definition fix_decisions (r : reviewer) : reviewer :=
  let '(d, fixed) :=
    fold_left fix_step (partial (decisions r)) (decisions r, false) in
  let r := with_decisions r d in
  if fixed then _save_decisions r else r.

(** The commands [review.py --fix-decisions] and [review.py --apply] as
    functions of what is on disk: they make the reviewer and run the
    branch.  The result is the decisions file afterwards. *)
Definition main_fix_decisions (dir : string)
    (tracking_json : option Sync.tracking)
    (decisions_json : option decision_store)
    (files : FS.t) : option decision_store :=
  decisions_file (fix_decisions (make dir tracking_json decisions_json files)).

Definition main_apply (dir : string)
    (tracking_json : option Sync.tracking)
    (decisions_json : option decision_store)
    (files : FS.t) : result unit * reviewer :=
  apply_decisions (make dir tracking_json decisions_json files).

End Review.

(* ================================================================== *)
(** ** Notions used in the statements *)
(* ================================================================== *)

(** *** Reconciliation *)

(** What the loop of [--fix-decisions] does with one value of the partial
    bucket. *)
Inductive fate : Type := to_approved | to_rejected | stays.

Definition fate_of (pv : Review.partial_value) : fate :=
  match pv with
  | Review.Entry e =>
      if ((Review.approved_count e =? Review.total e)
          && (Review.total e >? 0))%Z then to_approved
      else if ((Review.rejected_count e =? Review.total e)
               && (Review.total e >? 0))%Z then to_rejected
      else stays
  | Review.NotADict => stays
  end.

(** What one turn of the loop leaves at its own label. *)
Definition promoted (pv : Review.partial_value) (l : string)
    (d' : Review.decision_store) : Prop :=
  match pv with
  | Review.Entry e =>
      match fate_of pv with
      | to_approved =>
          Dict.get l (Review.approved d') = Some (Review.file e)
          /\ Dict.get l (Review.partial d') = None
      | to_rejected =>
          Dict.get l (Review.rejected d') = Some (Review.file e)
          /\ Dict.get l (Review.partial d') = None
      | stays => True
      end
  | Review.NotADict => True
  end.

(** The decisions after the loop of [--fix-decisions]. *)
Definition reconciled (d : Review.decision_store) : Review.decision_store :=
  fst (fold_left Review.fix_step (Review.partial d) (d, false)).

(** *** Apply *)

(** The two copies of an update: the target to its backup, then the new
    version to the target. *)
Definition backup_then_copy (fs : FS.t) (src dest : string) : result FS.t :=
  do fs1 <- FS.copy2 fs dest (Path.with_backup_suffix dest);
  FS.copy2 fs1 src dest.

(** Two file systems that differ at most at the paths [p] and [q]. *)
Definition same_except (p q : string) (fs fs' : FS.t) : Prop :=
  forall x, x <> p -> x <> q -> Dict.get x fs' = Dict.get x fs.

(** *** Review *)

(** The states of the first [n] hunks when the typed lines are read hunk
    by hunk, and the lines left: [Some] when every one of the hunks is
    visited, that is when the input neither ends nor quits before. *)
Fixpoint hunk_states (n : nat) (inputs : list string)
    : option (list Review.verdict * list string) :=
  match n with
  | O => Some ([], inputs)
  | S k =>
      match Review.ask inputs with
      | (Ok Review.quit_review, _) => None
      | (Ok v, rest) =>
          match hunk_states k rest with
          | Some (vs, rest') => Some (v :: vs, rest')
          | None => None
          end
      | (Raise _, _) => None
      end
  end.

Definition is_accept (v : Review.verdict) : bool :=
  match v with Review.accept => true | _ => false end.

Definition is_reject (v : Review.verdict) : bool :=
  match v with Review.reject => true | _ => false end.

Definition count (f : Review.verdict -> bool) (vs : list Review.verdict)
    : nat :=
  List.length (filter f vs).

(** *** Classification *)

(** How a file of the new structure compares with the old structure. *)
Inductive file_change : Type := is_new | is_updated | is_identical.

Definition change_of (old_files : Dict.t string) (item : string * string)
    : file_change :=
  match Dict.get (fst item) old_files with
  | None => is_new
  | Some old_hash =>
      if negb (String.eqb old_hash (snd item)) then is_updated
      else is_identical
  end.

Definition file_change_eqb (a b : file_change) : bool :=
  match a, b with
  | is_new, is_new | is_updated, is_updated | is_identical, is_identical => true
  | _, _ => false
  end.

(** The files of the new structure of one kind, in the order of the
    structure. *)
Definition changed_as (c : file_change) (old_files new_files : Dict.t string)
    : list string :=
  map fst
    (filter (fun item => file_change_eqb (change_of old_files item) c)
       new_files).

Definition b2n (b : bool) : nat := if b then 1 else 0.

(** In how many of the four file buckets, and of the two folder buckets,
    a path is listed. *)
Definition file_buckets (m : Sync.manager) (p : string) : nat :=
  b2n (Sync.mem p (Sync.new_files m)) + b2n (Sync.mem p (Sync.updated_files m))
  + b2n (Sync.mem p (Sync.identical_files m))
  + b2n (Sync.mem p (Sync.deleted_files m)).

Definition folder_buckets (m : Sync.manager) (p : string) : nat :=
  b2n (Sync.mem p (Sync.new_folders m))
  + b2n (Sync.mem p (Sync.deleted_folders m)).

Definition buckets_containing (m : Sync.manager) (p : string) : nat :=
  folder_buckets m p + file_buckets m p.

(** The path is in the scan: as a folder or as a file. *)
Definition scanned (s : Sync.structure) (p : string) : bool :=
  Sync.mem p (Sync.folders s) || Dict.contains p (Sync.files s).

(** *** Scanning *)

(** File names as a file system has them: without a slash. *)
Fixpoint names_ok (n : Sync.node) : bool :=
  match n with
  | Sync.File name _ => negb (FS.has_slash name)
  | Sync.Dir _ entries => forallb names_ok entries
  end.

(** No path of the list names a file the scanner skips. *)
Definition no_skipped_file (paths : list string) : Prop :=
  forall p, In p paths -> Sync.skipped_file (Path.name p) = false.

(* ================================================================== *)
(** ** Notions used in the further properties *)
(* ================================================================== *)

(** *** What a walk keeps *)

(** The files the walk of a directory keeps, with their paths: a file of
    the directory that can be read and whose name is not skipped, or such
    a file of a subdirectory that is not ignored.  [rel] is the path of
    the directory, [entries] are its entries. *)
Inductive kept_file : string -> list Sync.node -> string -> string -> Prop :=
| kept_file_here (rel : string) (entries : list Sync.node)
    (name bytes : string) :
    In (Sync.File name (Some bytes)) entries ->
    Sync.skipped_file name = false ->
    kept_file rel entries (Sync.child rel name) bytes
| kept_file_below (rel : string) (entries : list Sync.node)
    (d : string) (sub : list Sync.node) (p bytes : string) :
    In (Sync.Dir d sub) entries ->
    Sync.mem d Sync.ignored_dirs = false ->
    kept_file (Sync.child rel d) sub p bytes ->
    kept_file rel entries p bytes.

(** The folders the walk keeps: a subdirectory that is not ignored, and
    the folders kept below it. *)
Inductive kept_folder : string -> list Sync.node -> string -> Prop :=
| kept_folder_here (rel : string) (entries : list Sync.node)
    (d : string) (sub : list Sync.node) :
    In (Sync.Dir d sub) entries ->
    Sync.mem d Sync.ignored_dirs = false ->
    kept_folder rel entries (Sync.child rel d)
| kept_folder_below (rel : string) (entries : list Sync.node)
    (d : string) (sub : list Sync.node) (p : string) :
    In (Sync.Dir d sub) entries ->
    Sync.mem d Sync.ignored_dirs = false ->
    kept_folder (Sync.child rel d) sub p ->
    kept_folder rel entries p.

Definition entries_of (n : Sync.node) : list Sync.node :=
  match n with
  | Sync.Dir _ entries => entries
  | Sync.File _ _ => []
  end.

(** *** The label registry *)

(** One turn of the loop that groups the files by directory. *)
Definition group_step (files_by_dir : Dict.t (list string))
    (file_path : string) : Dict.t (list string) :=
  let dir_path := Path.parent file_path in
  let files_by_dir :=
    if negb (Dict.contains dir_path files_by_dir)
    then Dict.set dir_path [] files_by_dir else files_by_dir in
  match Dict.get dir_path files_by_dir with
  | Some fs => Dict.set dir_path (fs ++ [file_path])%list files_by_dir
  | None => files_by_dir
  end.

(** The order in which the new files are labelled: the directory first,
    then the path. *)
Definition dir_then_path (p q : string) : Prop :=
  String.ltb (Path.parent p) (Path.parent q) = true
  \/ (Path.parent p = Path.parent q /\ String.leb p q = true).

(** Every list of the grouping holds files of its own directory. *)
Definition grouped (d : Dict.t (list string)) : Prop :=
  forall k fs p, In (k, fs) d -> In p fs -> Path.parent p = k.

(** The two versions of an updated file lie outside the preview area of
    the manager. *)
Definition outside_previews (m : Sync.manager) (file_path : string) : Prop :=
  Py.startswith (Path.join (Sync.old_project m) file_path)
    (Sync.updated_files_dir m ++ "/") = false
  /\ Py.startswith (Path.join (Sync.new_figma m) file_path)
       (Sync.updated_files_dir m ++ "/") = false.

(** *** Diffs as the generator prints them *)

(** The header line [unified_diff] prints for a group. *)
Definition header_line (g : Difflib.group) : string :=
  let first := hd Difflib.no_opcode g in
  let last := List.last g Difflib.no_opcode in
  "@@ -" ++ Difflib._format_range_unified (Difflib.i1 first) (Difflib.i2 last)
  ++ " +" ++ Difflib._format_range_unified (Difflib.j1 first) (Difflib.j2 last)
  ++ " @@" ++ LF.

(** The lines a group prints under its header. *)
Definition body (a b : list string) (g : Difflib.group) : list string :=
  flat_map (Difflib.opcode_lines a b) g.

(** The first number of a printed range: the line after [start], or
    [start] itself when the range is empty. *)
Definition printed_start (start stop : nat) : nat :=
  if (stop - start =? 0)%nat then start else start + 1.

(** A group whose header gives both counts: neither range has exactly one
    line. *)
Definition prints_counts (g : Difflib.group) : bool :=
  let first := hd Difflib.no_opcode g in
  let last := List.last g Difflib.no_opcode in
  negb (Difflib.i2 last - Difflib.i1 first =? 1)%nat
  && negb (Difflib.j2 last - Difflib.j1 first =? 1)%nat.




(** The hunks of a diff, as far as they are counted: the lines from the
    first header that the parser reads as one. *)
Fixpoint from_first_header (lines : list string) : list string :=
  match lines with
  | [] => []
  | line :: rest =>
      if Py.startswith line "@@" then
        match Review.match_header line with
        | Some _ => lines
        | None => from_first_header rest
        end
      else from_first_header rest
  end.

Definition header_lines (lines : list string) : nat :=
  List.length (filter (fun line => Py.startswith line "@@") lines).




(** A hunk whose counters are the numbers of its lines marked as added and
    as removed. *)
Definition counted (h : Review.hunk) : Prop :=
  Review.added h = Sync.count_marked "+" "+++" (Review.lines h)
  /\ Review.removed h = Sync.count_marked "-" "---" (Review.lines h).

(** The number of places the parser holds: the hunks listed and the
    current one. *)
Definition places (st : Review.parser) : nat :=
  List.length (Review.hunks st)
  + match Review.current_hunk st with Some _ => 1 | None => 0 end.

(** *** Counting changed lines *)

(** The lines whose text does not begin with the two characters [mm]. *)
Definition text_lines (mm : string) (ls : list string) : nat :=
  List.length (filter (fun l => negb (Py.startswith l mm)) ls).

(** The lines of an opcode that the statistics count as added and as
    removed. *)
Definition added_by (b : list string) (o : Difflib.opcode) : nat :=
  match Difflib.op o with
  | Difflib.replace | Difflib.insert =>
      text_lines "++" (Difflib.slice b (Difflib.j1 o) (Difflib.j2 o))
  | _ => 0
  end.

Definition removed_by (a : list string) (o : Difflib.opcode) : nat :=
  match Difflib.op o with
  | Difflib.replace | Difflib.delete =>
      text_lines "--" (Difflib.slice a (Difflib.i1 o) (Difflib.i2 o))
  | _ => 0
  end.

(** *** The decision store *)

(** The labels of the approved and of the rejected bucket of [d] are
    still there in [d']. *)
Definition keeps_labels (d d' : Review.decision_store) : Prop :=
  (forall l, Dict.contains l (Review.approved d) = true ->
             Dict.contains l (Review.approved d') = true)
  /\ (forall l, Dict.contains l (Review.rejected d) = true ->
                Dict.contains l (Review.rejected d') = true).

(** The decisions are on disk: the decisions file holds the store of the
    reviewer, but for the unanimous entries of the partial bucket that
    the apply takes into the approved bucket for its run. *)
Definition saved (r : Review.reviewer) : Prop :=
  exists d,
    Review.decisions_file r = Some d
    /\ (Review.decisions r = d
        \/ Review.decisions r = Review.include_approved_partials d).

(** *** Apply *)


(* ================================================================== *)
(** ** Worked inputs *)
(* ================================================================== *)

(** *** One updated file with three changed regions *)

Definition numbered (word : string) (n : nat) : string :=
  word ++ " " ++ Py.str_of_nat n ++ LF.

(** Thirty lines, and the same with lines 2, 15 and 28 rewritten. *)
Definition app_old : list string := map (numbered "line") (seq 1 30).

Definition app_new : list string :=
  map (fun n => if Sync.mem (Py.str_of_nat n) ["2"; "15"; "28"]
                then numbered "LINE" n else numbered "line" n)
    (seq 1 30).

(** The opcode groups the sequence matcher gives for the two. *)
Definition app_groups : list Difflib.group :=
  [ [Difflib.Opcode Difflib.equal 0 1 0 1;
     Difflib.Opcode Difflib.replace 1 2 1 2;
     Difflib.Opcode Difflib.equal 2 5 2 5];
    [Difflib.Opcode Difflib.equal 11 14 11 14;
     Difflib.Opcode Difflib.replace 14 15 14 15;
     Difflib.Opcode Difflib.equal 15 18 15 18];
    [Difflib.Opcode Difflib.equal 24 27 24 27;
     Difflib.Opcode Difflib.replace 27 28 27 28;
     Difflib.Opcode Difflib.equal 28 30 28 30] ].

Definition app_manager : Sync.manager :=
  Sync.Manager "proj" "figma" "figma-sync"
    [] [] ["src/App.tsx"] [] [] [] [] [] [].

Definition app_files : FS.t :=
  [("proj/src/App.tsx", String.concat EmptyString app_old);
   ("figma/src/App.tsx", String.concat EmptyString app_new)].

(** The reviewer started on the output of an analysis. *)
Definition reviewer_after (analysis : result (Sync.manager * FS.t))
    : Review.reviewer :=
  match analysis with
  | Ok (m, fs) =>
      Review.make "figma-sync" (Some (Sync.generate_summary_report m)) None fs
  | Raise _ => Review.make "figma-sync" None None []
  end.

Definition app_reviewer : Review.reviewer :=
  reviewer_after
    (Sync.process_updated_files (fun _ _ => app_groups) app_manager app_files).

Definition app_diff : list string :=
  Difflib.unified_diff app_groups app_old app_new "a/App.tsx" "b/App.tsx".

(** The reviewer after a review of [U001] that approves the first and the
    third hunk and rejects the second: [U001] is in the partial bucket. *)
Definition app_reviewer_partial : Review.reviewer :=
  snd (fst (Review.review_file app_reviewer "U001" "2024-05-01T10:00:00"
              ["a"; "r"; "a"])).

(** A decisions file whose partial bucket holds a unanimous entry for
    [U001], as an interrupted session may leave it. *)
Definition app_stale_decisions : Review.decision_store :=
  Review.Decisions [] []
    [("U001",
      Review.Entry (Review.Details "src/App.tsx" 3 0 3 "2024-05-01T10:00:00"))].

Definition app_reviewer_stale : Review.reviewer :=
  Review.make "figma-sync" (Review.tracking_data app_reviewer)
    (Some app_stale_decisions) (Review.fs app_reviewer).

(** A decisions file with a fully approved, a fully rejected, a mixed and
    a malformed value in its partial bucket. *)
Definition stale_store : Review.decision_store :=
  Review.Decisions
    [("U009", "src/kept.ts")]
    []
    [("U001", Review.Entry (Review.Details "src/a.ts" 2 0 2 "2024-05-01T10:00:00"));
     ("U002", Review.Entry (Review.Details "src/b.ts" 0 3 3 "2024-05-01T10:05:00"));
     ("U003", Review.Entry (Review.Details "src/c.ts" 1 1 3 "2024-05-01T10:09:00"));
     ("U004", Review.NotADict)].

(** *** The scenario of the specification

    [a.ts] holds [X] in the old tree and [Y] in the new one, and [U001] is
    its label. *)
Definition xy_tracking : Sync.tracking :=
  Sync.Tracking "proj" "figma" [] [] [("U001", "a.ts")].

Definition xy_files : FS.t :=
  [("proj/a.ts", "X"); ("figma/a.ts", "Y");
   ("figma-sync/03_UPDATED_FILES/U001/a.ts.NEW", "Y")].

Definition xy_reviewer : Review.reviewer :=
  Review.make "figma-sync" (Some xy_tracking)
    (Some (Review.Decisions [("U001", "a.ts")] [] [])) xy_files.

(** *** Scans *)

(** Two scans with the same folder [src], and two scans where [lib] is a
    folder in the old tree and a file in the new one. *)
Definition same_folder : Sync.structure :=
  Sync.Structure ["src"] [("src/a.ts", "h1")].

Definition lib_folder : Sync.structure := Sync.Structure ["lib"] [].
Definition lib_file : Sync.structure := Sync.Structure [] [("lib", "h2")].

(** Two trees with a hidden file, a log and a compiled file that differ,
    next to a source file that differs and a dependency directory.  The
    hash of the scans below is the content itself. *)
Definition hidden_old : list Sync.node :=
  [Sync.File ".env" (Some "KEY=1");
   Sync.File "debug.log" (Some "old log");
   Sync.File "a.ts" (Some "X");
   Sync.Dir "src" [Sync.File "m.pyc" (Some "old code");
                   Sync.File "b.ts" (Some "B")];
   Sync.Dir "node_modules" [Sync.File "dep.js" (Some "1")]].

Definition hidden_new : list Sync.node :=
  [Sync.File ".env" (Some "KEY=2");
   Sync.File "debug.log" (Some "new log");
   Sync.File "a.ts" (Some "Y");
   Sync.Dir "src" [Sync.File "m.pyc" (Some "new code");
                   Sync.File "b.ts" (Some "B")];
   Sync.Dir "node_modules" [Sync.File "dep.js" (Some "2")]].

Definition hidden_scan : Sync.manager :=
  Sync.scan_projects (fun bytes => bytes) hidden_old hidden_new
    (Sync.init "proj" "figma" "out").

(** A new tree with the folders [a], [a/z] and [b]; the old tree is
    empty. *)
Definition folders_tree : list Sync.node :=
  [Sync.Dir "a" [Sync.Dir "z" [Sync.File "x.ts" (Some "1")]];
   Sync.Dir "b" [Sync.File "y.ts" (Some "2")]].

Definition folders_manager : Sync.manager :=
  Sync.process_new_files
    (Sync.process_new_folders
       (Sync.scan_projects (fun bytes => bytes) [] folders_tree
          (Sync.init "proj" "figma" "figma-sync"))).

(** *** Diffs *)

(** A file of one line and the same file with the line rewritten; the
    matcher has one group for them, the replacement of line 1 by line 1. *)
Definition one_old : list string := ["x" ++ LF].
Definition one_new : list string := ["y" ++ LF].
Definition one_groups : list Difflib.group :=
  [[Difflib.Opcode Difflib.replace 0 1 0 1]].
Definition one_diff : list string :=
  Difflib.unified_diff one_groups one_old one_new "a/a.ts" "b/a.ts".

Definition one_reviewer : Review.reviewer :=
  reviewer_after
    (Sync.process_updated_files (fun _ _ => one_groups)
       (Sync.Manager "proj" "figma" "figma-sync"
          [] [] ["a.ts"] [] [] [] [] [] [])
       [("proj/a.ts", "x" ++ LF); ("figma/a.ts", "y" ++ LF)]).

(** Twenty lines; in the new file line 2 is gone and line 17 rewritten. *)
Definition drift_old : list string := map (numbered "line") (seq 1 20).
Definition drift_new : list string :=
  (map (numbered "line") [1] ++ map (numbered "line") (seq 3 14)
   ++ [numbered "LINE" 17] ++ map (numbered "line") (seq 18 3))%list.
Definition drift_groups : list Difflib.group :=
  [ [Difflib.Opcode Difflib.equal 0 1 0 1;
     Difflib.Opcode Difflib.delete 1 2 1 1;
     Difflib.Opcode Difflib.equal 2 5 1 4];
    [Difflib.Opcode Difflib.equal 13 16 12 15;
     Difflib.Opcode Difflib.replace 16 17 15 16;
     Difflib.Opcode Difflib.equal 17 20 16 19] ].
Definition drift_diff : list string :=
  Difflib.unified_diff drift_groups drift_old drift_new "a/f.ts" "b/f.ts".

(** *** An image among the updates *)

(** The bytes of an image: the first is no start of a UTF-8 sequence. *)
Definition png (tail : string) : string := String "137"%char ("PNG" ++ tail).

Definition mixed_manager : Sync.manager :=
  Sync.Manager "proj" "figma" "figma-sync"
    [] [] ["src/App.tsx"; "img/logo.png"] [] [] [] [] [] [].

Definition mixed_files : FS.t :=
  [("proj/img/logo.png", png "1"); ("figma/img/logo.png", png "2");
   ("proj/src/App.tsx", String.concat EmptyString app_old);
   ("figma/src/App.tsx", String.concat EmptyString app_new)].

Definition mixed_reviewer : Review.reviewer :=
  reviewer_after
    (Sync.process_updated_files (fun _ _ => app_groups)
       mixed_manager mixed_files).

(** The same reviewer with two approved labels on disk, the first of them
    from an earlier analysis and without preview files. *)
Definition mixed_reviewer_approved : Review.reviewer :=
  Review.make "figma-sync" (Review.tracking_data mixed_reviewer)
    (Some (Review.Decisions
             [("U007", "src/Gone.tsx"); ("U002", "src/App.tsx")] [] []))
    (Review.fs mixed_reviewer).

(** *** A project with changes of every kind

    The old tree has [a.ts] and [src/b.ts].  The new tree rewrites
    [a.ts], keeps [src/b.ts], and adds [z.ts], [src/c.ts] and the folder
    [lib] with [x.ts], next to a dependency directory.  The hash of the
    scan is the content itself, and the matcher has the one group of
    [one_groups] for the two versions of [a.ts]. *)
Definition shop_old : list Sync.node :=
  [Sync.File "a.ts" (Some ("x" ++ LF));
   Sync.Dir "src" [Sync.File "b.ts" (Some "B")]].

Definition shop_new : list Sync.node :=
  [Sync.File "a.ts" (Some ("y" ++ LF));
   Sync.File "z.ts" (Some "Z");
   Sync.Dir "src" [Sync.File "b.ts" (Some "B"); Sync.File "c.ts" (Some "C")];
   Sync.Dir "lib" [Sync.File "x.ts" (Some "1")];
   Sync.Dir "node_modules" [Sync.File "dep.js" (Some "2")]].

Definition shop_files : FS.t :=
  [("proj/a.ts", "x" ++ LF); ("figma/a.ts", "y" ++ LF)].

Definition shop_scan : Sync.manager :=
  Sync.scan_projects (fun bytes => bytes) shop_old shop_new
    (Sync.init "proj" "figma" "figma-sync").

Definition shop_analysis : result (Sync.tracking * FS.t) :=
  Sync.run_analysis (fun bytes => bytes) (fun _ _ => one_groups)
    shop_old shop_new shop_files (Sync.init "proj" "figma" "figma-sync").

(** *** A diff of one hunk

    Six lines, and the same with the third line replaced by two; the
    matcher has one group for them, with the lines around the change. *)
Definition patch_old : list string :=
  ["a" ++ LF; "b" ++ LF; "c" ++ LF; "d" ++ LF; "e" ++ LF; "f" ++ LF].


Definition patch_group : Difflib.group :=
  [Difflib.Opcode Difflib.equal 0 2 0 2;
   Difflib.Opcode Difflib.replace 2 3 2 4;
   Difflib.Opcode Difflib.equal 3 6 4 7].

(** *** A changed comment

    Three lines of SQL whose first line, a comment that begins with two
    minus signs, is rewritten. *)
Definition sql_old : list string :=
  ["-- old comment" ++ LF; "select 1;" ++ LF; "select 2;" ++ LF].

Definition sql_new : list string :=
  ["-- new comment" ++ LF; "select 1;" ++ LF; "select 2;" ++ LF].

Definition sql_groups : list Difflib.group :=
  [[Difflib.Opcode Difflib.replace 0 1 0 1;
    Difflib.Opcode Difflib.equal 1 3 1 3]].

Definition sql_files : FS.t :=
  [("proj/q.sql", String.concat EmptyString sql_old);
   ("figma/q.sql", String.concat EmptyString sql_new)].

(** *** A new file whose place is taken

    [N001] is the new file [b.ts]; the project has a file of its own
    there. *)
Definition taken_tracking : Sync.tracking :=
  Sync.Tracking "proj" "figma" [] [("N001", "b.ts")] [].

Definition taken_files : FS.t :=
  [("proj/b.ts", "mine"); ("figma/b.ts", "theirs")].

(** *** An update whose target is gone

    The scenario of the specification after [proj/a.ts] was deleted, and
    the same scenario with a second approved label that has no preview
    files. *)
Definition gone_reviewer : Review.reviewer :=
  Review.make "figma-sync" (Some xy_tracking)
    (Some (Review.Decisions [("U001", "a.ts")] [] []))
    [("figma/a.ts", "Y");
     ("figma-sync/03_UPDATED_FILES/U001/a.ts.NEW", "Y")].

Definition xy_reviewer_after_first : Review.reviewer :=
  snd (Review.apply_loop [("U001", "a.ts")] xy_reviewer).

(* ================================================================== *)
(** ** Facts about dictionaries *)
(* ================================================================== *)

Section DictFacts.
Context {V : Type}.
Implicit Types (d : Dict.t V) (k : string) (v : V).

Lemma get_set_eq k v d : Dict.get k (Dict.set k v d) = Some v.
Proof.
  induction d as [|[k' v'] d IH]; simpl.
  - now rewrite String.eqb_refl.
  - destruct (String.eqb k k') eqn:E; simpl.
    + now rewrite String.eqb_refl.
    + now rewrite E.
Qed.

Lemma get_set_neq k k' v d :
  k <> k' -> Dict.get k' (Dict.set k v d) = Dict.get k' d.
Proof.
  intros Hne. induction d as [|[k0 v0] d IH]; simpl.
  - destruct (String.eqb_spec k' k); congruence.
  - destruct (String.eqb_spec k k0) as [->|Hk]; simpl.
    + destruct (String.eqb_spec k' k0); congruence.
    + destruct (String.eqb_spec k' k0); congruence.
Qed.

Lemma get_del_eq k d : Dict.get k (Dict.del k d) = None.
Proof.
  induction d as [|[k' v'] d IH]; simpl; auto.
  destruct (String.eqb k k') eqn:E; simpl; auto.
  now rewrite E.
Qed.

Lemma get_del_neq k k' d :
  k <> k' -> Dict.get k' (Dict.del k d) = Dict.get k' d.
Proof.
  intros Hne. induction d as [|[k0 v0] d IH]; simpl; auto.
  destruct (String.eqb_spec k k0) as [->|Hk]; simpl.
  - destruct (String.eqb_spec k' k0); congruence.
  - destruct (String.eqb_spec k' k0); congruence.
Qed.

Lemma in_del k d (x : string * V) :
  In x (Dict.del k d) <-> In x d /\ fst x <> k.
Proof.
  induction d as [|[k' v'] d IH]; simpl.
  - tauto.
  - destruct (String.eqb_spec k k') as [->|Hk]; simpl.
    + rewrite IH. split.
      * tauto.
      * intros [[<-|H] Hx]; simpl in *; [congruence|tauto].
    + rewrite IH. split.
      * intros [<-|[H Hx]]; simpl; [split; [auto|congruence]|tauto].
      * intros [[<-|H] Hx]; auto.
Qed.

Lemma get_in k v d : Dict.get k d = Some v -> In (k, v) d.
Proof.
  induction d as [|[k' v'] d IH]; simpl; [discriminate|].
  destruct (String.eqb_spec k k') as [->|Hk].
  - intros [= ->]. now left.
  - auto.
Qed.

Lemma get_none_not_in k d : Dict.get k d = None <-> ~ In k (Dict.keys d).
Proof.
  induction d as [|[k' v'] d IH]; simpl; [tauto|].
  destruct (String.eqb_spec k k') as [->|Hk].
  - split; [discriminate|]. intros H. exfalso. apply H. now left.
  - rewrite IH. split; [intros H [E|HI]; [congruence|tauto]|tauto].
Qed.

End DictFacts.

Lemma distinct_NoDup (l : list string) : Dict.distinct l = true <-> NoDup l.
Proof.
  induction l as [|k l IH]; simpl.
  - split; [constructor|reflexivity].
  - rewrite andb_true_iff, negb_true_iff, IH. split.
    + intros [Hk Hl]. constructor; auto.
      intros HI. assert (existsb (String.eqb k) l = true) as E.
      { apply existsb_exists. exists k. split; [assumption|apply String.eqb_refl]. }
      congruence.
    + intros H. inversion H as [|? ? Hk Hl]; subst. split; auto.
      destruct (existsb (String.eqb k) l) eqn:E; auto.
      apply existsb_exists in E as (x & Hx & Ex).
      apply String.eqb_eq in Ex. subst. contradiction.
Qed.

Lemma unique_in_get {V : Type} (d : Dict.t V) k v :
  Dict.unique d = true -> In (k, v) d -> Dict.get k d = Some v.
Proof.
  unfold Dict.unique. rewrite distinct_NoDup.
  induction d as [|[k' v'] d IH]; simpl; [tauto|].
  intros Hnd [E|HI].
  - injection E as -> ->. now rewrite String.eqb_refl.
  - inversion Hnd as [|? ? Hk Hl]; subst.
    destruct (String.eqb_spec k k') as [->|Hk'].
    + exfalso. apply Hk. change (In (fst (k', v)) (map fst d)).
      now apply in_map.
    + now apply IH.
Qed.

(* ================================================================== *)
(** ** Facts about [sorted] *)
(* ================================================================== *)

Section SortedFacts.

Let le (a b : string) : Prop := String.leb a b = true.

Lemma insert_sorted_permutation x l :
  Permutation (x :: l) (Py.insert_sorted x l).
Proof.
  induction l as [|y l IH]; cbn; [reflexivity|].
  destruct (String.leb x y); [reflexivity|].
  rewrite perm_swap. now apply perm_skip.
Qed.

(** [sorted] keeps the elements, each as often as it was there. *)
Lemma sorted_permutation l : Permutation l (Py.sorted l).
Proof.
  induction l as [|x l IH]; cbn; [reflexivity|].
  rewrite <- insert_sorted_permutation. now apply perm_skip.
Qed.

Lemma insert_sorted_hd x y l :
  le y x -> HdRel le y l -> HdRel le y (Py.insert_sorted x l).
Proof.
  intros Hyx H. destruct l as [|z l]; cbn.
  - now constructor.
  - destruct (String.leb x z); constructor; [assumption|].
    now inversion H.
Qed.

Lemma insert_sorted_sorted x l :
  Sorted le l -> Sorted le (Py.insert_sorted x l).
Proof.
  induction l as [|y l IH]; cbn; intros S.
  - repeat constructor.
  - inversion S as [|? ? S' H]; subst.
    destruct (String.leb x y) eqn:E.
    + constructor; [assumption|]. now constructor.
    + constructor; [now apply IH|].
      apply insert_sorted_hd; [|assumption].
      destruct (String.leb_total x y) as [L|L]; [congruence|exact L].
Qed.

(** [sorted] gives a list in which each string is at most the next. *)
Lemma sorted_is_sorted l : Sorted le (Py.sorted l).
Proof.
  induction l as [|x l IH]; cbn; [constructor|].
  now apply insert_sorted_sorted.
Qed.

End SortedFacts.

(* ================================================================== *)
(** ** Reconciliation *)
(* ================================================================== *)

Section Reconciliation.
Import Review.

Lemma fix_step_stays d fixed l pv :
  fate_of pv = stays -> fix_step (d, fixed) (l, pv) = (d, fixed).
Proof.
  unfold fate_of, fix_step. destruct pv as [e|]; auto.
  destruct ((approved_count e =? total e) && (total e >? 0))%Z; [discriminate|].
  destruct ((rejected_count e =? total e) && (total e >? 0))%Z; [discriminate|].
  reflexivity.
Qed.

Lemma fix_loop_stays items : forall acc,
  Forall (fun it => fate_of (snd it) = stays) items ->
  fold_left fix_step items acc = acc.
Proof.
  induction items as [|[l pv] items IH]; intros [d fixed] H;
    cbn [fold_left]; auto.
  inversion H as [|? ? H1 H2]; subst. cbn [snd] in H1.
  rewrite fix_step_stays by assumption. now apply IH.
Qed.

Lemma fix_step_partial d fixed l pv :
  partial (fst (fix_step (d, fixed) (l, pv)))
  = match fate_of pv with
    | stays => partial d
    | _ => Dict.del l (partial d)
    end.
Proof.
  unfold fate_of, fix_step. destruct pv as [e|]; auto.
  destruct ((approved_count e =? total e) && (total e >? 0))%Z; auto.
  destruct ((rejected_count e =? total e) && (total e >? 0))%Z; auto.
Qed.

(** The partial bucket after the loop holds only what the loop left
    alone, whatever the loop started from. *)
Lemma fix_loop_partial items : forall d fixed x,
  In x (partial (fst (fold_left fix_step items (d, fixed)))) ->
  In x (partial d)
  /\ forall pv, In (fst x, pv) items -> fate_of pv = stays.
Proof.
  induction items as [|[l pv] items IH]; intros d fixed x; cbn [fold_left].
  - intros H. split; [assumption|]. intros pv [].
  - pose proof (fix_step_partial d fixed l pv) as P.
    destruct (fix_step (d, fixed) (l, pv)) as [d1 f1]. cbn [fst] in P.
    intros H. apply IH in H as [H1 H2]. rewrite P in H1.
    destruct (fate_of pv) eqn:F.
    + apply in_del in H1 as [H1 Hne]. split; [assumption|].
      intros pv' [E|HI]; [injection E as -> _; congruence|auto].
    + apply in_del in H1 as [H1 Hne]. split; [assumption|].
      intros pv' [E|HI]; [injection E as -> _; congruence|auto].
    + split; [assumption|].
      intros pv' [E|HI]; [injection E as _ <-; assumption|auto].
Qed.

Lemma fix_step_frame d fixed l pv k :
  k <> l ->
  let d1 := fst (fix_step (d, fixed) (l, pv)) in
  Dict.get k (approved d1) = Dict.get k (approved d)
  /\ Dict.get k (rejected d1) = Dict.get k (rejected d)
  /\ Dict.get k (partial d1) = Dict.get k (partial d).
Proof.
  intros Hne. unfold fix_step. destruct pv as [e|]; cbn; auto.
  destruct ((approved_count e =? total e) && (total e >? 0))%Z; cbn.
  { rewrite get_set_neq, get_del_neq by congruence. auto. }
  destruct ((rejected_count e =? total e) && (total e >? 0))%Z; cbn; auto.
  rewrite get_set_neq, get_del_neq by congruence. auto.
Qed.

Lemma fix_loop_frame items : forall d fixed k,
  ~ In k (map fst items) ->
  let d' := fst (fold_left fix_step items (d, fixed)) in
  Dict.get k (approved d') = Dict.get k (approved d)
  /\ Dict.get k (rejected d') = Dict.get k (rejected d)
  /\ Dict.get k (partial d') = Dict.get k (partial d).
Proof.
  induction items as [|[l pv] items IH]; intros d fixed k Hk;
    cbn [fold_left]; auto.
  cbn [map fst In] in Hk.
  assert (k <> l) as Hne by (intros ->; tauto).
  pose proof (fix_step_frame d fixed l pv k Hne) as (A & R & P).
  destruct (fix_step (d, fixed) (l, pv)) as [d1 f1]. cbn [fst] in A, R, P.
  destruct (IH d1 f1 k) as (A' & R' & P'); [tauto|].
  cbn zeta. rewrite A', R', P'. auto.
Qed.

Lemma fix_step_at d fixed l pv :
  promoted pv l (fst (fix_step (d, fixed) (l, pv))).
Proof.
  unfold promoted, fate_of, fix_step. destruct pv as [e|]; auto.
  destruct ((approved_count e =? total e) && (total e >? 0))%Z; cbn.
  { now rewrite get_set_eq, get_del_eq. }
  destruct ((rejected_count e =? total e) && (total e >? 0))%Z; cbn; auto.
  now rewrite get_set_eq, get_del_eq.
Qed.

Lemma promoted_frame pv l d1 d2 :
  Dict.get l (approved d2) = Dict.get l (approved d1) ->
  Dict.get l (rejected d2) = Dict.get l (rejected d1) ->
  Dict.get l (partial d2) = Dict.get l (partial d1) ->
  promoted pv l d1 -> promoted pv l d2.
Proof.
  unfold promoted. intros -> -> ->. auto.
Qed.

Lemma fix_loop_at items : forall d fixed l pv,
  NoDup (map fst items) -> In (l, pv) items ->
  promoted pv l (fst (fold_left fix_step items (d, fixed))).
Proof.
  induction items as [|[l0 pv0] items IH]; intros d fixed l pv Hnd HI;
    [destruct HI|].
  cbn [map fst] in Hnd. inversion Hnd as [|? ? Hk Hnd']; subst.
  cbn [fold_left]. destruct HI as [E|HI].
  - injection E as -> ->.
    pose proof (fix_step_at d fixed l pv) as S.
    destruct (fix_step (d, fixed) (l, pv)) as [d1 f1]. cbn [fst] in S.
    destruct (fix_loop_frame items d1 f1 l Hk) as (A & R & P).
    eapply promoted_frame; eauto.
  - destruct (fix_step (d, fixed) (l0, pv0)) as [d1 f1]. now apply IH.
Qed.

Lemma fix_step_fixed d fixed l pv :
  snd (fix_step (d, fixed) (l, pv))
  = match fate_of pv with stays => fixed | _ => true end.
Proof.
  unfold fate_of, fix_step. destruct pv as [e|]; auto.
  destruct ((approved_count e =? total e) && (total e >? 0))%Z; auto.
  destruct ((rejected_count e =? total e) && (total e >? 0))%Z; auto.
Qed.

(** The loop reports a fix exactly when it changes something. *)
Lemma fix_loop_not_fixed items : forall d,
  snd (fold_left fix_step items (d, false)) = false ->
  fold_left fix_step items (d, false) = (d, false).
Proof.
  assert (forall items acc, snd acc = true ->
            snd (fold_left fix_step items acc) = true) as Sticky.
  { induction items0 as [|[l pv] items0 IH]; intros [d fixed] H; auto.
    cbn [fold_left]. apply IH. rewrite fix_step_fixed.
    cbn [snd] in H. subst. now destruct (fate_of pv). }
  induction items as [|[l pv] items IH]; intros d H; auto.
  cbn [fold_left] in *.
  destruct (fate_of pv) eqn:F.
  - rewrite Sticky in H; [discriminate|]. rewrite fix_step_fixed. now rewrite F.
  - rewrite Sticky in H; [discriminate|]. rewrite fix_step_fixed. now rewrite F.
  - rewrite fix_step_stays in * by assumption. now apply IH.
Qed.

Lemma main_fix_decisions_some dir t files d :
  main_fix_decisions dir t (Some d) files = Some (reconciled d).
Proof.
  unfold main_fix_decisions, fix_decisions, make, reconciled.
  cbn [_load_decisions decisions].
  destruct (fold_left fix_step (partial d) (d, false)) as [d' fixed] eqn:E.
  destruct fixed; cbn; auto.
  pose proof (fix_loop_not_fixed (partial d) d) as H.
  rewrite E in H. specialize (H eq_refl). congruence.
Qed.

Lemma main_fix_decisions_none dir t files :
  main_fix_decisions dir t None files = None.
Proof. reflexivity. Qed.

Lemma reconciled_settled d :
  Forall (fun it => fate_of (snd it) = stays) (partial (reconciled d)).
Proof.
  apply Forall_forall. intros [l pv] HI. unfold reconciled in HI.
  apply fix_loop_partial in HI as [H1 H2]. cbn [fst snd] in *. auto.
Qed.

Lemma reconciled_idempotent d : reconciled (reconciled d) = reconciled d.
Proof.
  unfold reconciled at 1.
  rewrite fix_loop_stays by apply reconciled_settled. reflexivity.
Qed.

End Reconciliation.

Section ReconciliationClaim.
Import Review.

(** C5.  Reconciliation ([review.py --fix-decisions]) promotes and is
    idempotent.  For a decisions file [store] whose partial bucket has
    distinct labels, the file after the pass holds every entry of the
    partial bucket whose approved count equals its total, the total being
    positive, in the approved bucket under its file and no longer in the
    partial bucket; likewise every entry whose rejected count equals its
    positive total goes to the rejected bucket (the approved test comes
    first in the code, so this is for an entry that is not also fully
    approved).  And for any decisions file, present or not, running the
    pass on the result of the pass changes nothing. *)
Theorem fix_decisions_promotes_and_is_idempotent
    (dir : string) (t : option Sync.tracking) (files : FS.t) :
  (forall store : decision_store,
     Dict.unique (partial store) = true ->
     exists store',
       main_fix_decisions dir t (Some store) files = Some store'
       /\ (forall l e,
             Dict.get l (partial store) = Some (Entry e) ->
             approved_count e = total e -> (total e > 0)%Z ->
             Dict.get l (approved store') = Some (file e)
             /\ Dict.get l (partial store') = None)
       /\ (forall l e,
             Dict.get l (partial store) = Some (Entry e) ->
             rejected_count e = total e -> (total e > 0)%Z ->
             approved_count e <> total e ->
             Dict.get l (rejected store') = Some (file e)
             /\ Dict.get l (partial store') = None))
  /\ (forall on_disk : option decision_store,
        main_fix_decisions dir t (main_fix_decisions dir t on_disk files) files
        = main_fix_decisions dir t on_disk files).
Proof.
  split.
  - intros store U. exists (reconciled store).
    split; [apply main_fix_decisions_some|].
    apply distinct_NoDup in U.
    split; intros l e G.
    + intros A T. apply get_in in G.
      pose proof (fix_loop_at (partial store) store false l (Entry e) U G) as P.
      unfold promoted, fate_of in P.
      replace (approved_count e =? total e)%Z with true in P
        by (symmetry; apply Z.eqb_eq; assumption).
      replace (total e >? 0)%Z with true in P
        by (symmetry; apply Z.gtb_lt; lia).
      exact P.
    + intros R T NA. apply get_in in G.
      pose proof (fix_loop_at (partial store) store false l (Entry e) U G) as P.
      unfold promoted, fate_of in P.
      replace (approved_count e =? total e)%Z with false in P
        by (symmetry; apply Z.eqb_neq; assumption).
      replace (rejected_count e =? total e)%Z with true in P
        by (symmetry; apply Z.eqb_eq; assumption).
      replace (total e >? 0)%Z with true in P
        by (symmetry; apply Z.gtb_lt; lia).
      exact P.
  - intros [d|].
    + rewrite !main_fix_decisions_some. now rewrite reconciled_idempotent.
    + reflexivity.
Qed.

End ReconciliationClaim.

Lemma fix_decisions_promotes_and_is_idempotent_witness :
  Dict.unique (Review.partial stale_store) = true
  /\ exists store',
       Review.main_fix_decisions "figma-sync" None (Some stale_store) []
       = Some store'
       /\ Dict.get "U001" (Review.approved store') = Some "src/a.ts"
       /\ Dict.get "U001" (Review.partial store') = None
       /\ Dict.get "U002" (Review.rejected store') = Some "src/b.ts"
       /\ Dict.get "U002" (Review.partial store') = None
       /\ Review.main_fix_decisions "figma-sync" None (Some store') []
          = Some store'.
Proof.
  split; [reflexivity|].
  destruct (fix_decisions_promotes_and_is_idempotent "figma-sync" None [])
    as [Promote Idem].
  destruct (Promote stale_store eq_refl) as (store' & E & A & R).
  exists store'. split; [exact E|].
  destruct (A "U001" _ eq_refl eq_refl eq_refl) as [A1 A2].
  destruct (R "U002" _ eq_refl eq_refl eq_refl ltac:(discriminate)) as [R1 R2].
  repeat split; try assumption.
  specialize (Idem (Some stale_store)). rewrite E in Idem. exact Idem.
Defined.

(* ================================================================== *)
(** ** Apply: the backup and the overwrite *)
(* ================================================================== *)

Lemma string_length_append (s1 s2 : string) :
  String.length (s1 ++ s2) = String.length s1 + String.length s2.
Proof. induction s1; simpl; auto. Qed.

Lemma append_nonempty_neq (p s : string) : s <> EmptyString -> p <> p ++ s.
Proof.
  intros Hs E. apply Hs.
  assert (String.length p = String.length (p ++ s)) as L by (f_equal; exact E).
  rewrite string_length_append in L.
  destruct s; [reflexivity|simpl in L; lia].
Qed.

Lemma backup_path_differs (p : string) : p <> Path.with_backup_suffix p.
Proof. apply append_nonempty_neq. discriminate. Qed.

Lemma copy2_ok fs src dst c :
  Dict.get src fs = Some c -> src <> dst ->
  FS.copy2 fs src dst = Ok (Dict.set dst c fs).
Proof.
  intros G Hne. unfold FS.copy2, FS.read_bytes, FS.write, bind. rewrite G.
  destruct (String.eqb_spec src dst); [contradiction|reflexivity].
Qed.

Lemma backup_then_copy_ok fs src dest old_c new_c :
  Dict.get dest fs = Some old_c ->
  Dict.get src fs = Some new_c ->
  src <> dest ->
  src <> Path.with_backup_suffix dest ->
  let fs' := Dict.set dest new_c
               (Dict.set (Path.with_backup_suffix dest) old_c fs) in
  backup_then_copy fs src dest = Ok fs'
  /\ Dict.get dest fs' = Some new_c
  /\ Dict.get (Path.with_backup_suffix dest) fs' = Some old_c
  /\ Dict.get src fs' = Some new_c
  /\ same_except dest (Path.with_backup_suffix dest) fs fs'.
Proof.
  intros Gd Gs Hsd Hsb fs'.
  pose proof (backup_path_differs dest) as Hdb.
  unfold backup_then_copy, bind.
  rewrite (copy2_ok _ _ _ _ Gd Hdb).
  rewrite (copy2_ok _ src dest new_c);
    [|now rewrite get_set_neq by congruence|assumption].
  split; [reflexivity|]. unfold fs'.
  repeat split.
  - apply get_set_eq.
  - rewrite get_set_neq by congruence. apply get_set_eq.
  - now rewrite !get_set_neq by congruence.
  - intros x Hx1 Hx2. now rewrite !get_set_neq by congruence.
Qed.

(** What two runs of the two copies leave. *)
Lemma backup_then_copy_twice fs src dest old_c new_c :
  Dict.get dest fs = Some old_c ->
  Dict.get src fs = Some new_c ->
  src <> dest ->
  src <> Path.with_backup_suffix dest ->
  let backup := Path.with_backup_suffix dest in
  let fs1 := Dict.set dest new_c (Dict.set backup old_c fs) in
  exists fs2,
    backup_then_copy fs src dest = Ok fs1
    /\ Dict.get dest fs1 = Some new_c
    /\ Dict.get backup fs1 = Some old_c
    /\ same_except dest backup fs fs1
    /\ backup_then_copy fs1 src dest = Ok fs2
    /\ Dict.get dest fs2 = Some new_c
    /\ Dict.get backup fs2 = Some new_c
    /\ same_except dest backup fs fs2.
Proof.
  intros Gd Gs Hsd Hsb backup fs1.
  destruct (backup_then_copy_ok fs src dest old_c new_c Gd Gs Hsd Hsb)
    as (E1 & D1 & B1 & S1 & F1).
  fold backup fs1 in E1, D1, B1, S1, F1.
  destruct (backup_then_copy_ok fs1 src dest new_c new_c D1 S1 Hsd Hsb)
    as (E2 & D2 & B2 & S2 & F2).
  exists (Dict.set dest new_c (Dict.set backup new_c fs1)).
  repeat split; try assumption.
  intros x H1 H2. rewrite F2, F1 by assumption. reflexivity.
Qed.

Lemma apply_change_update t fs l p :
  Dict.get l (Sync.updates_of t) = Some p ->
  Sync.apply_change (Some t) fs l Sync.update
  = do fs' <- backup_then_copy fs (Path.join (Sync.t_new_figma t) p)
                (Path.join (Sync.t_old_project t) p);
    Ok (true, fs').
Proof.
  intros G. unfold Sync.apply_change, backup_then_copy, bind. rewrite G.
  destruct (FS.copy2 fs _ _); reflexivity.
Qed.

Lemma apply_one_found r t l p new_file :
  Review.tracking_data r = Some t ->
  FS.first (FS.glob (Review.fs r) (Path.join (Review.updates_dir r) l) ".NEW")
  = Ok new_file ->
  Review.apply_one r l p
  = backup_then_copy (Review.fs r) new_file
      (Path.join (Sync.t_old_project t) p).
Proof.
  intros T G. unfold Review.apply_one, backup_then_copy. rewrite G, T.
  reflexivity.
Qed.

Section GlobFacts.

Lemma keys_set {V : Type} k (v : V) d :
  Dict.keys (Dict.set k v d)
  = if Dict.contains k d then Dict.keys d else (Dict.keys d ++ [k])%list.
Proof.
  unfold Dict.contains, Dict.keys.
  induction d as [|[k' v'] d IH]; cbn; [reflexivity|].
  destruct (String.eqb_spec k k') as [->|Hne]; cbn; [reflexivity|].
  rewrite IH. now destruct (Dict.get k d).
Qed.

Lemma substring_skip (s t : string) (k m : nat) :
  substring (String.length s + k) m (s ++ t) = substring k m t.
Proof. induction s as [|c s IH]; cbn; auto. Qed.

Lemma backup_is_no_new_version (p : string) :
  Py.endswith (Path.with_backup_suffix p) ".NEW" = false.
Proof.
  unfold Py.endswith, Path.with_backup_suffix.
  rewrite string_length_append. cbn [String.length].
  replace (String.length p + 7 - 4) with (String.length p + 3) by lia.
  rewrite substring_skip. cbn. apply andb_false_r.
Qed.

Lemma strip_prefix_append pre s n :
  FS.strip_prefix pre s = Some n -> s = pre ++ n.
Proof.
  revert s. induction pre as [|a pre IH]; intros s; cbn.
  - now intros [= ->].
  - destruct s as [|b s]; [discriminate|].
    destruct (Ascii.eqb_spec a b) as [->|]; [|discriminate].
    intros H. f_equal. now apply IH.
Qed.

Lemma endswith_strip_prefix pre s n suffix :
  FS.strip_prefix pre s = Some n ->
  Py.endswith n suffix = true -> Py.endswith s suffix = true.
Proof.
  intros H E. apply strip_prefix_append in H. subst s.
  unfold Py.endswith in *. apply andb_true_iff in E as [L E].
  apply Nat.leb_le in L. rewrite string_length_append.
  apply andb_true_iff. split; [apply Nat.leb_le; lia|].
  replace (String.length pre + String.length n - String.length suffix)
    with (String.length pre + (String.length n - String.length suffix)) by lia.
  now rewrite substring_skip.
Qed.

(** The new versions found in a preview directory are the same after a
    target, which is there already, and its backup have been written. *)
Lemma glob_new_after_apply fs dir target c1 c2 :
  Dict.contains target fs = true ->
  FS.glob (Dict.set target c2 (Dict.set (Path.with_backup_suffix target) c1 fs))
    dir ".NEW"
  = FS.glob fs dir ".NEW".
Proof.
  intros T. unfold FS.glob. rewrite !keys_set.
  assert (Dict.contains target
            (Dict.set (Path.with_backup_suffix target) c1 fs) = true) as T'.
  { unfold Dict.contains in *.
    rewrite get_set_neq; [assumption|].
    intros E. symmetry in E. now apply backup_path_differs in E. }
  rewrite T'. destruct (Dict.contains (Path.with_backup_suffix target) fs);
    [reflexivity|].
  rewrite filter_app. cbn [filter].
  destruct (FS.strip_prefix (dir ++ "/") (Path.with_backup_suffix target))
    as [n|] eqn:S; [|now rewrite app_nil_r].
  destruct (Py.endswith n ".NEW") eqn:E.
  - apply (endswith_strip_prefix _ _ _ _ S) in E.
    now rewrite backup_is_no_new_version in E.
  - rewrite andb_false_r. now rewrite app_nil_r.
Qed.

End GlobFacts.

Section ApplyUpdateClaim.

(** C3, as the code has it.  Applying an update label whose target exists
    copies the target to the path of the target followed by [.backup],
    replacing what may be there, and then overwrites the target with the
    new version.  Applying the same label again succeeds as well: the
    target still equals the new version, no path other than the target and
    the one backup path has changed, and the backup now holds the new
    version, which is what the target held before the second apply.  This
    is so for [sync.py --apply-update] ([apply_change]), where the new
    version is the file of the new tree, and for a turn of the loop of
    [apply_decisions], where it is the copy in the preview directory. *)
Theorem apply_update_backs_up_then_overwrites :
  (forall (t : Sync.tracking) (fs : FS.t) (l p old_c new_c : string),
     let src := Path.join (Sync.t_new_figma t) p in
     let dest := Path.join (Sync.t_old_project t) p in
     let backup := Path.with_backup_suffix dest in
     Dict.get l (Sync.updates_of t) = Some p ->
     Dict.get dest fs = Some old_c ->
     Dict.get src fs = Some new_c ->
     src <> dest ->
     src <> backup ->
     exists fs1 fs2,
       Sync.apply_change (Some t) fs l Sync.update = Ok (true, fs1)
       /\ Dict.get dest fs1 = Some new_c
       /\ Dict.get backup fs1 = Some old_c
       /\ same_except dest backup fs fs1
       /\ Sync.apply_change (Some t) fs1 l Sync.update = Ok (true, fs2)
       /\ Dict.get dest fs2 = Some new_c
       /\ Dict.get backup fs2 = Some new_c
       /\ same_except dest backup fs fs2)
  /\
  (forall (r : Review.reviewer) (t : Sync.tracking)
          (l p new_file old_c new_c : string),
     let target := Path.join (Sync.t_old_project t) p in
     let backup := Path.with_backup_suffix target in
     Review.tracking_data r = Some t ->
     FS.first (FS.glob (Review.fs r) (Path.join (Review.updates_dir r) l) ".NEW")
     = Ok new_file ->
     Dict.get target (Review.fs r) = Some old_c ->
     Dict.get new_file (Review.fs r) = Some new_c ->
     new_file <> target ->
     new_file <> backup ->
     exists fs1 fs2,
       Review.apply_one r l p = Ok fs1
       /\ Dict.get target fs1 = Some new_c
       /\ Dict.get backup fs1 = Some old_c
       /\ same_except target backup (Review.fs r) fs1
       /\ Review.apply_one (Review.with_fs r fs1) l p = Ok fs2
       /\ Dict.get target fs2 = Some new_c
       /\ Dict.get backup fs2 = Some new_c
       /\ same_except target backup (Review.fs r) fs2).
Proof.
  split.
  - intros t fs l p old_c new_c src dest backup Gl Gd Gs Hsd Hsb.
    destruct (backup_then_copy_twice fs src dest old_c new_c Gd Gs Hsd Hsb)
      as (fs2 & E1 & D1 & B1 & F1 & E2 & D2 & B2 & F2).
    eexists. exists fs2.
    rewrite !(apply_change_update t _ l p Gl).
    fold src dest. rewrite E1, E2. cbn [bind].
    repeat split; assumption.
  - intros r t l p new_file old_c new_c target backup T G Gt Gn Hnt Hnb.
    destruct (backup_then_copy_twice (Review.fs r) new_file target old_c new_c
                Gt Gn Hnt Hnb)
      as (fs2 & E1 & D1 & B1 & F1 & E2 & D2 & B2 & F2).
    fold backup in E1, D1, B1, F1, E2, D2, B2, F2.
    set (fs1 := Dict.set target new_c (Dict.set backup old_c (Review.fs r)))
      in *.
    exists fs1, fs2.
    assert (FS.first
              (FS.glob (Review.fs (Review.with_fs r fs1))
                 (Path.join (Review.updates_dir (Review.with_fs r fs1)) l)
                 ".NEW") = Ok new_file) as G'.
    { cbn [Review.fs Review.with_fs Review.updates_dir Review.sync_dir].
      unfold fs1, backup. rewrite glob_new_after_apply; [exact G|].
      unfold Dict.contains. now rewrite Gt. }
    rewrite (apply_one_found r t l p new_file T G).
    rewrite (apply_one_found (Review.with_fs r fs1) t l p new_file T G').
    fold target. cbn [Review.fs Review.with_fs].
    repeat split; assumption.
Qed.

End ApplyUpdateClaim.

Lemma apply_update_backs_up_then_overwrites_witness :
  (exists fs1 fs2,
     Sync.apply_change (Some xy_tracking) xy_files "U001" Sync.update
     = Ok (true, fs1)
     /\ Dict.get "proj/a.ts" fs1 = Some "Y"
     /\ Dict.get "proj/a.ts.backup" fs1 = Some "X"
     /\ same_except "proj/a.ts" "proj/a.ts.backup" xy_files fs1
     /\ Sync.apply_change (Some xy_tracking) fs1 "U001" Sync.update
        = Ok (true, fs2)
     /\ Dict.get "proj/a.ts" fs2 = Some "Y"
     /\ Dict.get "proj/a.ts.backup" fs2 = Some "Y"
     /\ same_except "proj/a.ts" "proj/a.ts.backup" xy_files fs2)
  /\
  (exists fs1 fs2,
     Review.apply_one xy_reviewer "U001" "a.ts" = Ok fs1
     /\ Dict.get "proj/a.ts" fs1 = Some "Y"
     /\ Dict.get "proj/a.ts.backup" fs1 = Some "X"
     /\ same_except "proj/a.ts" "proj/a.ts.backup" xy_files fs1
     /\ Review.apply_one (Review.with_fs xy_reviewer fs1) "U001" "a.ts" = Ok fs2
     /\ Dict.get "proj/a.ts" fs2 = Some "Y"
     /\ Dict.get "proj/a.ts.backup" fs2 = Some "Y"
     /\ same_except "proj/a.ts" "proj/a.ts.backup" xy_files fs2).
Proof.
  split.
  - apply (proj1 apply_update_backs_up_then_overwrites
             xy_tracking xy_files "U001" "a.ts" "X" "Y");
      solve [reflexivity | discriminate].
  - apply (proj2 apply_update_backs_up_then_overwrites
             xy_reviewer xy_tracking "U001" "a.ts"
             "figma-sync/03_UPDATED_FILES/U001/a.ts.NEW" "X" "Y");
      solve [reflexivity | discriminate].
Defined.

(** C3, as the specification has it, fails: the backup made by the first
    apply holds [X], the content before the first apply, and the second
    apply replaces it by [Y]. *)
Lemma second_apply_replaces_the_backup :
  exists fs1 fs2,
    Sync.apply_change (Some xy_tracking) xy_files "U001" Sync.update
    = Ok (true, fs1)
    /\ Sync.apply_change (Some xy_tracking) fs1 "U001" Sync.update
       = Ok (true, fs2)
    /\ Dict.get "proj/a.ts.backup" xy_files = None
    /\ Dict.get "proj/a.ts.backup" fs1 = Some "X"
    /\ Dict.get "proj/a.ts.backup" fs2 = Some "Y"
    /\ Dict.get "proj/a.ts.backup" fs2 <> Some "X".
Proof.
  do 2 eexists. repeat split; try reflexivity. discriminate.
Qed.

(* ================================================================== *)
(** ** The review of one file *)
(* ================================================================== *)

Section ReviewFacts.
Import Review.

Lemma review_hunks_states hunks : forall inputs vs rest a0 r0,
  hunk_states (List.length hunks) inputs = Some (vs, rest) ->
  exists a rj,
    review_hunks hunks inputs a0 r0 = (Ok (visited (a0 ++ a) (r0 ++ rj)), rest)
    /\ List.length a = count is_accept vs
    /\ List.length rj = count is_reject vs
    /\ List.length vs = List.length hunks.
Proof.
  induction hunks as [|h hunks IH]; intros inputs vs rest a0 r0 H.
  - cbn in H. injection H as <- <-. exists [], [].
    cbn. now rewrite !app_nil_r.
  - cbn [List.length hunk_states] in H. cbn [review_hunks].
    destruct (ask inputs) as [[v|e] rest1]; [|discriminate].
    destruct v; try discriminate;
      destruct (hunk_states (List.length hunks) rest1) as [[vs1 rest2]|] eqn:E;
      try discriminate; injection H as <- <-.
    + destruct (IH _ _ _ (a0 ++ [h])%list r0 E) as (a & rj & R & La & Lr & Lv).
      exists (h :: a), rj. rewrite R, <- app_assoc. cbn. unfold count in *.
      cbn. auto.
    + destruct (IH _ _ _ a0 (r0 ++ [h])%list E) as (a & rj & R & La & Lr & Lv).
      exists a, (h :: rj). rewrite R, <- app_assoc. cbn. unfold count in *.
      cbn. auto.
    + destruct (IH _ _ _ a0 r0 E) as (a & rj & R & La & Lr & Lv).
      exists a, rj. rewrite R. cbn. unfold count in *. cbn. auto.
Qed.

Lemma count_le f vs : count f vs <= List.length vs.
Proof. unfold count. apply filter_length_le. Qed.

Lemma count_all f vs :
  count f vs = List.length vs <-> Forall (fun v => f v = true) vs.
Proof.
  unfold count. induction vs as [|v vs IH]; cbn.
  - split; auto.
  - destruct (f v) eqn:F; cbn.
    + split.
      * intros H. constructor; [assumption|]. apply IH. lia.
      * intros H. inversion H; subst. f_equal. now apply IH.
    + split.
      * intros H. pose proof (filter_length_le f vs). lia.
      * intros H. inversion H; subst. congruence.
Qed.

Lemma accept_excludes_reject vs :
  vs <> [] -> Forall (fun v => is_reject v = true) vs ->
  ~ Forall (fun v => is_accept v = true) vs.
Proof.
  destruct vs as [|v vs]; [congruence|].
  intros _ R A. inversion R; inversion A; subst. now destruct v.
Qed.

Lemma remove_from_partial_get l p :
  Dict.get l (remove_from_partial l p) = None.
Proof.
  unfold remove_from_partial, Dict.contains.
  destruct (Dict.get l p) eqn:G; [apply get_del_eq|assumption].
Qed.

(** The entry a review writes into the partial bucket counts the hunks
    of a diff that has some: the total is positive and the approved and the
    rejected hunks together are at most the total, so that an entry whose
    rejected count is the total is not also fully approved. *)
Lemma partial_entry_of_a_review_is_consistent vs path now :
  vs <> [] ->
  let e := Details path (Z.of_nat (count is_accept vs))
             (Z.of_nat (count is_reject vs)) (Z.of_nat (List.length vs)) now in
  (0 < total e)%Z
  /\ (approved_count e + rejected_count e <= total e)%Z
  /\ (rejected_count e = total e -> approved_count e <> total e).
Proof.
  intros NE. cbn.
  assert (count is_accept vs + count is_reject vs <= List.length vs) as L.
  { unfold count. clear NE. induction vs as [|v vs IH]; cbn; [lia|].
    destruct v; cbn; lia. }
  assert (0 < List.length vs) as P by (destruct vs; [congruence|cbn; lia]).
  lia.
Qed.

End ReviewFacts.

Section ReviewClaim.
Import Review.

(** C4.  The transition rule of a file review.  Let the label be an update
    label, its preview files be there, and the diff parse into at least
    one hunk; let the typed lines visit every hunk, leaving the hunks in
    the states [vs].  Then [review_file] returns the status [reviewed]
    and writes the decisions file, where: if every hunk was approved the
    label is in the approved bucket under its path and not in the partial
    bucket; if every hunk was rejected it is in the rejected bucket and not
    in the partial bucket; in any other case, skipped hunks included, it is
    in the partial bucket with the number of approved hunks, the number of
    rejected hunks and the number of hunks. *)
Theorem review_file_transition_rule
    (r : reviewer) (label path now : string) (inputs : list string)
    (diff_lines : list string) (vs : list verdict) (rest : list string) :
  let hunks := _parse_diff_file diff_lines in
  Dict.get label (updates r) = Some path ->
  open_preview r label = Ok diff_lines ->
  hunks <> [] ->
  hunk_states (List.length hunks) inputs = Some (vs, rest) ->
  exists a rj r',
    review_file r label now inputs = (Ok (reviewed a rj hunks), r', rest)
    /\ decisions_file r' = Some (decisions r')
    /\ (Forall (fun v => is_accept v = true) vs ->
        Dict.get label (approved (decisions r')) = Some path
        /\ Dict.get label (partial (decisions r')) = None)
    /\ (Forall (fun v => is_reject v = true) vs ->
        Dict.get label (rejected (decisions r')) = Some path
        /\ Dict.get label (partial (decisions r')) = None)
    /\ (~ Forall (fun v => is_accept v = true) vs ->
        ~ Forall (fun v => is_reject v = true) vs ->
        Dict.get label (partial (decisions r'))
        = Some (Entry (Details path
                         (Z.of_nat (count is_accept vs))
                         (Z.of_nat (count is_reject vs))
                         (Z.of_nat (List.length hunks))
                         now))).
Proof.
  intros hunks G P NE S.
  destruct (review_hunks_states hunks inputs vs rest [] [] S)
    as (a & rj & R & La & Lr & Lv).
  cbn [app] in R.
  exists a, rj.
  eexists. unfold review_file. rewrite G, P. fold hunks.
  destruct hunks as [|h hunks'] eqn:EH; [congruence|]. rewrite <- EH in *.
  rewrite R. split; [reflexivity|].
  cbn [_save_decisions with_decisions decisions_file decisions].
  split; [reflexivity|].
  assert (vs <> []) as NV.
  { intros ->. rewrite EH in Lv. discriminate. }
  unfold record_review. rewrite La, Lr, <- Lv.
  repeat split.
  - apply count_all in H. rewrite H, Nat.eqb_refl. cbn. apply get_set_eq.
  - apply count_all in H. rewrite H, Nat.eqb_refl. cbn.
    apply remove_from_partial_get.
  - pose proof (accept_excludes_reject vs NV H) as NA.
    destruct (Nat.eqb_spec (count is_accept vs) (List.length vs)) as [E|_].
    { apply count_all in E. contradiction. }
    apply count_all in H. rewrite H, Nat.eqb_refl. cbn. apply get_set_eq.
  - pose proof (accept_excludes_reject vs NV H) as NA.
    destruct (Nat.eqb_spec (count is_accept vs) (List.length vs)) as [E|_].
    { apply count_all in E. contradiction. }
    apply count_all in H. rewrite H, Nat.eqb_refl. cbn.
    apply remove_from_partial_get.
  - intros NA NR.
    destruct (Nat.eqb_spec (count is_accept vs) (List.length vs)) as [E|_].
    { apply count_all in E. contradiction. }
    destruct (Nat.eqb_spec (count is_reject vs) (List.length vs)) as [E|_].
    { apply count_all in E. contradiction. }
    cbn. apply get_set_eq.
Qed.

End ReviewClaim.

(* ================================================================== *)
(** ** Apply and the decision store *)
(* ================================================================== *)

Section ApplyFacts.
Import Review.

Lemma include_loop items : forall d,
  let d' := fold_left include_if_approved items d in
  partial d' = partial d
  /\ rejected d' = rejected d
  /\ (forall l, ~ In l (map fst items) ->
        Dict.get l (approved d') = Dict.get l (approved d))
  /\ (forall l f,
        Dict.get l (approved d') = Some f ->
        Dict.get l (approved d) = Some f
        \/ exists e, In (l, Entry e) items
                     /\ approved_count e = total e /\ file e = f)
  /\ (NoDup (map fst items) ->
      forall l e, In (l, Entry e) items -> approved_count e = total e ->
        Dict.get l (approved d') = Some (file e)).
Proof.
  induction items as [|[l0 pv0] items IH]; intros d; cbn [fold_left].
  - cbn. repeat split; auto. intros _ l e [].
  - destruct (IH (include_if_approved d (l0, pv0))) as (P & R & F & O & N).
    set (d1 := include_if_approved d (l0, pv0)) in *.
    assert (partial d1 = partial d /\ rejected d1 = rejected d) as [P1 R1].
    { unfold d1, include_if_approved. destruct pv0 as [e|]; auto.
      destruct (approved_count e =? total e)%Z; auto. }
    assert (forall l, l <> l0 ->
              Dict.get l (approved d1) = Dict.get l (approved d)) as F1.
    { intros l Hl. unfold d1, include_if_approved. destruct pv0 as [e|]; auto.
      destruct (approved_count e =? total e)%Z; auto.
      cbn. apply get_set_neq. congruence. }
    cbn zeta. repeat split.
    + congruence.
    + congruence.
    + intros l Hl. cbn [map fst In] in Hl.
      rewrite F by tauto. apply F1. intros ->. tauto.
    + intros l f G. apply O in G as [G|(e & HI & A & E)].
      * destruct (String.eqb_spec l l0) as [->|Hl].
        -- unfold d1, include_if_approved in G. destruct pv0 as [e|]; auto.
           destruct (approved_count e =? total e)%Z eqn:A; auto.
           cbn in G. rewrite get_set_eq in G. injection G as <-.
           right. exists e. split; [now left|].
           split; [now apply Z.eqb_eq|reflexivity].
        -- left. now rewrite <- F1.
      * right. exists e. split; [now right|auto].
    + intros Hnd l e HI A. cbn [map fst] in Hnd.
      inversion Hnd as [|? ? Hk Hnd']; subst.
      destruct HI as [E|HI].
      * injection E as -> ->. rewrite F by assumption.
        unfold d1, include_if_approved.
        replace (approved_count e =? total e)%Z with true
          by (symmetry; now apply Z.eqb_eq).
        cbn. apply get_set_eq.
      * now apply N.
Qed.

Lemma apply_loop_keeps_decisions items : forall r,
  decisions (snd (apply_loop items r)) = decisions r
  /\ decisions_file (snd (apply_loop items r)) = decisions_file r.
Proof.
  induction items as [|[l p] items IH]; intros r; cbn [apply_loop].
  - auto.
  - destruct (apply_one r l p) as [fs'|e]; [|auto].
    destruct (IH (with_fs r fs')) as [D F]. now rewrite D, F.
Qed.

Lemma apply_decisions_decisions r :
  decisions (snd (apply_decisions r))
  = include_approved_partials (decisions r)
  /\ decisions_file (snd (apply_decisions r)) = decisions_file r.
Proof.
  unfold apply_decisions.
  set (r1 := with_decisions r (include_approved_partials (decisions r))).
  destruct (negb (Dict.truthy (approved (decisions r1)))); [auto|].
  destruct (apply_loop_keeps_decisions (approved (decisions r1)) r1)
    as [D F].
  now rewrite D, F.
Qed.

End ApplyFacts.

Section ApplyClaim.
Import Review.

(** C6, as the code has it.  [apply_decisions] never writes the decisions
    file and leaves the partial and the rejected bucket of the reviewer as
    they are; what it changes, for the run only, is the approved bucket:
    a label is there afterwards when it was there before or when the
    partial bucket has an entry for it whose approved count equals its
    total, and with distinct labels every such entry is there under its
    file.  These labels are then applied like the approved ones. *)
Theorem apply_keeps_partial_but_includes_approved_partials (r : reviewer) :
  let r' := snd (apply_decisions r) in
  decisions_file r' = decisions_file r
  /\ partial (decisions r') = partial (decisions r)
  /\ rejected (decisions r') = rejected (decisions r)
  /\ (forall l f,
        Dict.get l (approved (decisions r')) = Some f ->
        Dict.get l (approved (decisions r)) = Some f
        \/ exists e, In (l, Entry e) (partial (decisions r))
                     /\ approved_count e = total e /\ file e = f)
  /\ (forall l e,
        Dict.unique (partial (decisions r)) = true ->
        Dict.get l (partial (decisions r)) = Some (Entry e) ->
        approved_count e = total e ->
        Dict.get l (approved (decisions r')) = Some (file e)).
Proof.
  destruct (apply_decisions_decisions r) as [D F].
  cbn zeta. rewrite D, F. unfold include_approved_partials.
  destruct (include_loop (partial (decisions r)) (decisions r))
    as (P & R & _ & O & N).
  repeat split; auto.
  intros l e U G A. apply N; [now apply distinct_NoDup|now apply get_in|auto].
Qed.

End ApplyClaim.

Lemma apply_keeps_partial_but_includes_approved_partials_witness :
  Dict.unique (Review.partial (Review.decisions app_reviewer_stale)) = true
  /\ let r' := snd (Review.apply_decisions app_reviewer_stale) in
     Review.decisions_file r' = Review.decisions_file app_reviewer_stale
     /\ Review.partial (Review.decisions r')
        = Review.partial (Review.decisions app_reviewer_stale)
     /\ Review.rejected (Review.decisions r')
        = Review.rejected (Review.decisions app_reviewer_stale)
     /\ Dict.get "U001" (Review.approved (Review.decisions r'))
        = Some "src/App.tsx".
Proof.
  split; [reflexivity|].
  destruct (apply_keeps_partial_but_includes_approved_partials
              app_reviewer_stale) as (F & P & R & _ & N).
  cbn zeta. split; [exact F|]. split; [exact P|]. split; [exact R|].
  exact (N "U001" _ eq_refl eq_refl eq_refl).
Defined.

Lemma review_file_transition_rule_witness :
  exists a rj r',
    Review.review_file app_reviewer "U001" "2024-05-01T10:00:00" ["a"; "r"; "a"]
    = (Ok (Review.reviewed a rj (Review._parse_diff_file app_diff)), r', [])
    /\ List.length (Review._parse_diff_file app_diff) = 3
    /\ Dict.get "U001" (Review.partial (Review.decisions r'))
       = Some (Review.Entry
                 (Review.Details "src/App.tsx" 2 1 3 "2024-05-01T10:00:00")).
Proof.
  destruct (review_file_transition_rule app_reviewer "U001" "src/App.tsx"
              "2024-05-01T10:00:00" ["a"; "r"; "a"] app_diff
              [Review.accept; Review.reject; Review.accept] [])
    as (a & rj & r' & E & _ & _ & _ & P).
  - reflexivity.
  - vm_compute. reflexivity.
  - vm_compute. discriminate.
  - vm_compute. reflexivity.
  - exists a, rj, r'. split; [exact E|]. split; [reflexivity|].
    apply P; intros F; inversion F as [|? ? H1 H2]; subst;
      [inversion H2; discriminate|discriminate].
Defined.

(** C1 fails on the code.  Quick review records an accepted label in the
    approved bucket and leaves its entry in the partial bucket: after the
    mixed review of [U001] and then its quick accept, the decisions file
    holds [U001] both as approved and as partial.  A full review that ends
    unanimous removes the label from the partial bucket only: a file
    rejected in one review and approved in the next is in the rejected and
    in the approved bucket. *)
Theorem recorded_label_stays_in_its_old_bucket :
  (let '(res, r, rest) :=
     Review.quick_review_all app_reviewer_partial "2024-05-01T11:00:00"
       ["a"; "n"] in
   res = Ok tt
   /\ rest = []
   /\ Review.decisions_file r = Some (Review.decisions r)
   /\ Dict.get "U001" (Review.approved (Review.decisions r))
      = Some "src/App.tsx"
   /\ Dict.get "U001" (Review.partial (Review.decisions r))
      = Some (Review.Entry
                (Review.Details "src/App.tsx" 2 1 3 "2024-05-01T10:00:00")))
  /\
  (let '(_, r1, _) :=
     Review.review_file app_reviewer "U001" "2024-05-01T10:00:00"
       ["r"; "r"; "r"] in
   let '(res, r2, _) :=
     Review.review_file r1 "U001" "2024-05-01T11:00:00" ["a"; "a"; "a"] in
   Review.decisions_file r2 = Some (Review.decisions r2)
   /\ Dict.get "U001" (Review.rejected (Review.decisions r2))
      = Some "src/App.tsx"
   /\ Dict.get "U001" (Review.approved (Review.decisions r2))
      = Some "src/App.tsx").
Proof.
  split; vm_compute; repeat split; reflexivity.
Qed.

(** C6, as the specification has it, fails: [review.py --apply] on a store
    with nothing approved and a unanimous entry in the partial bucket puts
    the label into the approved bucket of the run and applies it: the
    target is overwritten with the new version and backed up. *)
Lemma apply_acts_on_unanimous_partial_entry :
  let '(res, r') := Review.apply_decisions app_reviewer_stale in
  res = Ok tt
  /\ Dict.get "U001" (Review.approved (Review.decisions app_reviewer_stale))
     = None
  /\ Dict.get "U001" (Review.approved (Review.decisions r'))
     = Some "src/App.tsx"
  /\ Dict.get "proj/src/App.tsx" (Review.fs app_reviewer_stale)
     = Some (String.concat EmptyString app_old)
  /\ Dict.get "proj/src/App.tsx" (Review.fs r')
     = Some (String.concat EmptyString app_new)
  /\ Dict.get "proj/src/App.tsx.backup" (Review.fs r')
     = Some (String.concat EmptyString app_old).
Proof.
  vm_compute. repeat split; reflexivity.
Qed.

(* ================================================================== *)
(** ** The change classifier *)
(* ================================================================== *)

Section ClassifierFacts.
Import Sync.

Lemma mem_iff x l : mem x l = true <-> In x l.
Proof.
  unfold mem. rewrite existsb_exists. split.
  - intros (y & HI & E). apply String.eqb_eq in E. now subst.
  - intros HI. exists x. split; [assumption|apply String.eqb_refl].
Qed.

Lemma mem_app x l1 l2 : mem x (l1 ++ l2) = mem x l1 || mem x l2.
Proof. unfold mem. apply existsb_app. Qed.

Lemma contains_iff {V : Type} k (d : Dict.t V) :
  Dict.contains k d = true <-> In k (Dict.keys d).
Proof.
  unfold Dict.contains. destruct (Dict.get k d) eqn:G.
  - split; [|reflexivity]. intros _. apply get_in in G.
    change k with (fst (k, v)). now apply in_map.
  - split; [discriminate|]. intros HI. now apply get_none_not_in in G.
Qed.

Lemma append_if_loop (c : string -> bool) l : forall acc,
  fold_left (fun acc x => if c x then (acc ++ [x])%list else acc) l acc
  = (acc ++ filter c l)%list.
Proof.
  induction l as [|x l IH]; intros acc; cbn.
  - now rewrite app_nil_r.
  - rewrite IH. destruct (c x); [now rewrite <- app_assoc|reflexivity].
Qed.

Lemma file_loop old_files items : forall n u i,
  fold_left
    (fun acc item =>
       let '(n, u, i) := acc in
       let '(file_path, file_hash) := item in
       match Dict.get file_path old_files with
       | None => ((n ++ [file_path])%list, u, i)
       | Some old_hash =>
           if negb (String.eqb old_hash file_hash)
           then (n, (u ++ [file_path])%list, i)
           else (n, u, (i ++ [file_path])%list)
       end)
    items (n, u, i)
  = ((n ++ changed_as is_new old_files items)%list,
     (u ++ changed_as is_updated old_files items)%list,
     (i ++ changed_as is_identical old_files items)%list).
Proof.
  unfold changed_as, change_of.
  induction items as [|[p h] items IH]; intros n u i; cbn.
  - now rewrite !app_nil_r.
  - destruct (Dict.get p old_files) as [oh|]; cbn.
    + destruct (negb (String.eqb oh h)); cbn;
        rewrite IH; now rewrite <- app_assoc.
    + rewrite IH. now rewrite <- app_assoc.
Qed.

(** The six lists after [scan_projects]: what was there, followed by the
    paths of each kind in scan order. *)
Lemma classify_lists old new m :
  let m' := classify old new m in
  new_folders m'
  = (new_folders m
     ++ filter (fun f => negb (mem f (folders old))) (folders new))%list
  /\ deleted_folders m'
     = (deleted_folders m
        ++ filter (fun f => negb (mem f (folders new))) (folders old))%list
  /\ new_files m' = (new_files m ++ changed_as is_new (files old) (files new))%list
  /\ updated_files m'
     = (updated_files m ++ changed_as is_updated (files old) (files new))%list
  /\ identical_files m'
     = (identical_files m
        ++ changed_as is_identical (files old) (files new))%list
  /\ deleted_files m'
     = (deleted_files m
        ++ filter (fun p => negb (Dict.contains p (files new)))
             (Dict.keys (files old)))%list.
Proof.
  unfold classify. rewrite file_loop, !append_if_loop. cbn. tauto.
Qed.

Lemma mem_changed_as c old_files new_files p :
  Dict.unique new_files = true ->
  mem p (changed_as c old_files new_files)
  = match Dict.get p new_files with
    | Some h => file_change_eqb (change_of old_files (p, h)) c
    | None => false
    end.
Proof.
  intros U. apply Bool.eq_iff_eq_true. rewrite mem_iff.
  unfold changed_as. rewrite in_map_iff. split.
  - intros ([p' h] & E & HI). cbn in E. subst p'.
    apply filter_In in HI as [HI C].
    now rewrite (unique_in_get _ _ _ U HI).
  - destruct (Dict.get p new_files) as [h|] eqn:G; [|discriminate].
    intros C. exists (p, h). split; [reflexivity|].
    apply filter_In. split; [now apply get_in|assumption].
Qed.

Lemma mem_filter c x l : mem x (filter c l) = mem x l && c x.
Proof.
  apply Bool.eq_iff_eq_true.
  rewrite andb_true_iff, !mem_iff, filter_In. tauto.
Qed.

Lemma mem_keys {V : Type} k (d : Dict.t V) :
  mem k (Dict.keys d) = Dict.contains k d.
Proof.
  apply Bool.eq_iff_eq_true. rewrite mem_iff. symmetry. apply contains_iff.
Qed.

End ClassifierFacts.

Section ClassifierClaim.
Import Sync.

(** C7, as the code has it.  After [scan_projects] on a fresh manager, a
    path that is a file in the old or in the new scan is in exactly one of
    the four file buckets, and a path that is a file in neither is in none
    of them; a path that is a folder in exactly one of the two scans is in
    exactly one of the two folder buckets, and a folder of both scans, or
    of neither, is in no bucket.  A path that is a folder on one side and
    a file on the other is listed as a deleted folder and a new file, or as
    a new folder and a deleted file, and not as an update.  The file paths
    of the new scan are distinct, as the paths of a scan are
    ([scan_files_unique]). *)
Theorem classification_by_kind
    (old new : structure) (o n out p : string) :
  Dict.unique (files new) = true ->
  let m := classify old new (init o n out) in
  file_buckets m p
  = b2n (Dict.contains p (files old) || Dict.contains p (files new))
  /\ folder_buckets m p
     = b2n (xorb (mem p (folders old)) (mem p (folders new)))
  /\ (mem p (folders old) = true -> mem p (folders new) = false ->
      Dict.contains p (files old) = false ->
      Dict.contains p (files new) = true ->
      mem p (deleted_folders m) = true /\ mem p (new_files m) = true
      /\ mem p (updated_files m) = false)
  /\ (mem p (folders new) = true -> mem p (folders old) = false ->
      Dict.contains p (files new) = false ->
      Dict.contains p (files old) = true ->
      mem p (new_folders m) = true /\ mem p (deleted_files m) = true
      /\ mem p (updated_files m) = false).
Proof.
  intros U m.
  destruct (classify_lists old new (init o n out))
    as (NF & DF & NFi & UFi & IFi & DFi).
  fold m in NF, DF, NFi, UFi, IFi, DFi. cbn [init new_folders deleted_folders
    new_files updated_files identical_files deleted_files app] in *.
  unfold file_buckets, folder_buckets.
  rewrite NF, DF, NFi, UFi, IFi, DFi.
  rewrite !mem_changed_as by assumption.
  rewrite !mem_filter, mem_keys.
  unfold change_of, Dict.contains. cbn [fst snd].
  destruct (Dict.get p (files new)) as [h|];
    destruct (Dict.get p (files old)) as [oh|];
    destruct (mem p (folders new)); destruct (mem p (folders old));
    try destruct (String.eqb oh h); cbn;
    repeat split; try reflexivity; try discriminate.
Qed.

End ClassifierClaim.

Lemma classification_by_kind_witness :
  Dict.unique (Sync.files lib_file) = true
  /\ let m := Sync.classify lib_folder lib_file (Sync.init "proj" "figma" "out") in
     file_buckets m "lib" = 1 /\ folder_buckets m "lib" = 1
     /\ Sync.mem "lib" (Sync.deleted_folders m) = true
     /\ Sync.mem "lib" (Sync.new_files m) = true
     /\ Sync.mem "lib" (Sync.updated_files m) = false.
Proof.
  split; [reflexivity|].
  destruct (classification_by_kind lib_folder lib_file "proj" "figma" "out"
              "lib" eq_refl) as (F & D & M & _).
  destruct (M eq_refl eq_refl eq_refl eq_refl) as (M1 & M2 & M3).
  cbn zeta. repeat split; assumption.
Defined.

(** C7, as the specification has it, fails: a folder of both trees is in
    the union of the scans and in no bucket, and a path that changes from
    folder to file is in two buckets. *)
Lemma unchanged_folder_is_in_no_bucket :
  (scanned same_folder "src" || scanned same_folder "src" = true
   /\ buckets_containing
        (Sync.classify same_folder same_folder (Sync.init "proj" "figma" "out"))
        "src" = 0)
  /\ (scanned lib_folder "lib" || scanned lib_file "lib" = true
      /\ buckets_containing
           (Sync.classify lib_folder lib_file (Sync.init "proj" "figma" "out"))
           "lib" = 2).
Proof.
  repeat split; reflexivity.
Qed.

(* ================================================================== *)
(** ** The tree scanner *)
(* ================================================================== *)

(** Induction on a tree that reaches the entries of a directory. *)
Lemma node_induction (P : Sync.node -> Prop) :
  (forall name content, P (Sync.File name content)) ->
  (forall name entries, Forall P entries -> P (Sync.Dir name entries)) ->
  forall n, P n.
Proof.
  intros file_case dir_case. fix IH 1. intros [name content|name entries].
  - apply file_case.
  - apply dir_case. induction entries as [|e entries IHe]; constructor.
    + apply IH.
    + exact IHe.
Qed.

Section ScannerFacts.
Import Sync.
Variable md5 : string -> string.

Lemma rsplit_no_slash name : FS.has_slash name = false -> Path.rsplit name = None.
Proof.
  induction name as [|c name IH]; cbn; [reflexivity|].
  intros H. apply orb_false_iff in H as [C H]. now rewrite IH, C.
Qed.

Lemma rsplit_join rel name :
  FS.has_slash name = false ->
  Path.rsplit (Path.join rel name) = Some (rel, name).
Proof.
  intros H. unfold Path.join. induction rel as [|c rel IH]; cbn.
  - now rewrite rsplit_no_slash.
  - cbn in IH. now rewrite IH.
Qed.

Lemma name_child rel name :
  FS.has_slash name = false -> Path.name (child rel name) = name.
Proof.
  intros H. unfold Path.name, child. destruct rel.
  - now rewrite rsplit_no_slash.
  - now rewrite rsplit_join.
Qed.

Lemma keys_set_in {V : Type} k k0 (v : V) d :
  In k (Dict.keys (Dict.set k0 v d)) -> k = k0 \/ In k (Dict.keys d).
Proof.
  induction d as [|[k' v'] d IH]; cbn.
  - intros [<-|[]]. now left.
  - destruct (String.eqb_spec k0 k') as [->|Hne]; cbn.
    + tauto.
    + intros [<-|H]; [tauto|]. apply IH in H. tauto.
Qed.

Lemma add_folders_files rel dirs : forall st,
  files (add_folders rel dirs st) = files st.
Proof.
  unfold add_folders. induction dirs as [|d dirs IH]; intros st; cbn; auto.
  now rewrite IH.
Qed.

Lemma add_files_ok rel fs : forall st,
  Forall (fun f => FS.has_slash (fst f) = false) fs ->
  no_skipped_file (Dict.keys (files st)) ->
  no_skipped_file (Dict.keys (files (add_files md5 rel fs st))).
Proof.
  unfold add_files.
  induction fs as [|[name content] fs IH]; intros st W H; cbn [fold_left];
    [assumption|].
  inversion W as [|? ? W1 W2]; subst. cbn [fst] in W1.
  apply IH; [assumption|].
  destruct (skipped_file name) eqn:S; [assumption|].
  destruct content as [bytes|]; [|assumption].
  cbn [files]. intros p HI. apply keys_set_in in HI as [->|HI]; [|now apply H].
  now rewrite name_child.
Qed.

Lemma file_entries_ok entries :
  forallb names_ok entries = true ->
  Forall (fun f => FS.has_slash (fst f) = false) (file_entries entries).
Proof.
  unfold file_entries. induction entries as [|e entries IH]; cbn; intros H.
  - constructor.
  - apply andb_true_iff in H as [He H]. destruct e as [name c|name es]; cbn.
    + constructor; [|now apply IH]. cbn in *. now apply negb_true_iff.
    + now apply IH.
Qed.

Lemma visit_ok n : forall rel st,
  names_ok n = true ->
  no_skipped_file (Dict.keys (files st)) ->
  no_skipped_file (Dict.keys (files (visit md5 rel n st))).
Proof.
  induction n as [name content|name entries IH] using node_induction;
    intros rel st W H; [assumption|].
  cbn [visit names_ok] in *.
  set (st2 := add_files md5 rel (file_entries entries) _).
  assert (no_skipped_file (Dict.keys (files st2))) as H2.
  { apply add_files_ok; [now apply file_entries_ok|].
    now rewrite add_folders_files. }
  clearbody st2. clear H st. revert st2 H2.
  induction entries as [|e entries IHe]; intros st H; [assumption|].
  cbn [forallb] in W. apply andb_true_iff in W as [We W].
  inversion IH as [|? ? IH1 IH2]; subst.
  destruct e as [f c|d es].
  - now apply IHe.
  - destruct (mem d ignored_dirs); apply IHe; auto.
Qed.

Lemma scan_has_no_skipped_file root :
  forallb names_ok root = true ->
  no_skipped_file (Dict.keys (files (_get_project_structure md5 root))).
Proof.
  intros W. unfold _get_project_structure. apply visit_ok; [exact W|].
  intros p [].
Qed.

End ScannerFacts.

Section ScanUnique.
Import Sync.
Variable md5 : string -> string.

Lemma set_unique {V : Type} k (v : V) d :
  Dict.unique d = true -> Dict.unique (Dict.set k v d) = true.
Proof.
  unfold Dict.unique. rewrite keys_set. intros U.
  destruct (Dict.contains k d) eqn:C; [assumption|].
  apply distinct_NoDup. apply distinct_NoDup in U.
  apply NoDup_app; [assumption|repeat constructor; intros []|].
  intros x Hx [<-|[]].
  apply contains_iff in Hx. congruence.
Qed.

Lemma add_files_unique rel fs : forall st,
  Dict.unique (files st) = true ->
  Dict.unique (files (add_files md5 rel fs st)) = true.
Proof.
  unfold add_files.
  induction fs as [|[name content] fs IH]; intros st U; cbn [fold_left];
    [assumption|].
  apply IH. destruct (skipped_file name); [assumption|].
  destruct content; [|assumption]. cbn [files]. now apply set_unique.
Qed.

Lemma visit_unique n : forall rel st,
  Dict.unique (files st) = true ->
  Dict.unique (files (visit md5 rel n st)) = true.
Proof.
  induction n as [name content|name entries IH] using node_induction;
    intros rel st U; [assumption|].
  cbn [visit].
  set (st2 := add_files md5 rel (file_entries entries) _).
  assert (Dict.unique (files st2) = true) as U2.
  { apply add_files_unique. now rewrite add_folders_files. }
  clearbody st2. clear U st. revert st2 U2.
  induction entries as [|e entries IHe]; intros st U; [assumption|].
  inversion IH as [|? ? IH1 IH2]; subst.
  destruct e as [f c|d es].
  - now apply IHe.
  - destruct (mem d ignored_dirs); apply IHe; auto.
Qed.

(** The file paths of a scan are pairwise distinct, as the classifier is
    assumed to find them. *)
Lemma scan_files_unique root :
  Dict.unique (files (_get_project_structure md5 root)) = true.
Proof. apply visit_unique. reflexivity. Qed.

End ScanUnique.

Section ScannerClaim.
Import Sync.

(** C10.  The scanner leaves hidden and generated files out.  On trees
    whose file names are names (no slash), a path that is a file of the
    scan of the old or of the new tree, or that [scan_projects] lists as a
    new, updated, identical or deleted file, has a last component that
    neither starts with a dot nor ends with [.pyc] or [.log]. *)
Theorem scan_excludes_hidden_and_generated_files
    (md5 : string -> string) (old_tree new_tree : list node)
    (o n out p : string) :
  forallb names_ok old_tree = true ->
  forallb names_ok new_tree = true ->
  let m := scan_projects md5 old_tree new_tree (init o n out) in
  Dict.contains p (files (_get_project_structure md5 old_tree)) = true
  \/ Dict.contains p (files (_get_project_structure md5 new_tree)) = true
  \/ mem p (new_files m) = true \/ mem p (updated_files m) = true
  \/ mem p (identical_files m) = true \/ mem p (deleted_files m) = true ->
  Py.startswith (Path.name p) "." = false
  /\ Py.endswith (Path.name p) ".pyc" = false
  /\ Py.endswith (Path.name p) ".log" = false.
Proof.
  intros Wo Wn m H.
  assert (skipped_file (Path.name p) = false) as S.
  { pose proof (scan_has_no_skipped_file md5 old_tree Wo) as So.
    pose proof (scan_has_no_skipped_file md5 new_tree Wn) as Sn.
    destruct (classify_lists (_get_project_structure md5 old_tree)
                (_get_project_structure md5 new_tree) (init o n out))
      as (_ & _ & NFi & UFi & IFi & DFi).
    fold (scan_projects md5 old_tree new_tree (init o n out)) in *.
    fold m in NFi, UFi, IFi, DFi.
    cbn [init new_files updated_files identical_files deleted_files app] in *.
    assert (forall c, mem p (changed_as c
                               (files (_get_project_structure md5 old_tree))
                               (files (_get_project_structure md5 new_tree)))
                      = true ->
                      In p (Dict.keys (files (_get_project_structure md5 new_tree))))
      as Sub.
    { intros c M. apply mem_iff in M. unfold changed_as in M.
      apply in_map_iff in M as (it & <- & HI). apply filter_In in HI as [HI _].
      now apply in_map. }
    destruct H as [H|[H|[H|[H|[H|H]]]]].
    - apply So. now apply contains_iff.
    - apply Sn. now apply contains_iff.
    - rewrite NFi in H. apply Sn. eauto.
    - rewrite UFi in H. apply Sn. eauto.
    - rewrite IFi in H. apply Sn. eauto.
    - rewrite DFi in H. apply mem_iff in H. apply filter_In in H as [H _].
      now apply So. }
  unfold skipped_file in S.
  apply orb_false_iff in S as [S1 S].
  apply orb_false_iff in S as [S2 S3]. auto.
Qed.

End ScannerClaim.

Lemma scan_excludes_hidden_and_generated_files_witness :
  forallb names_ok hidden_old = true
  /\ forallb names_ok hidden_new = true
  /\ Sync.updated_files hidden_scan = ["a.ts"]
  /\ Sync.identical_files hidden_scan = ["src/b.ts"]
  /\ buckets_containing hidden_scan ".env" = 0
  /\ buckets_containing hidden_scan "debug.log" = 0
  /\ buckets_containing hidden_scan "src/m.pyc" = 0
  /\ Py.startswith (Path.name "a.ts") "." = false
  /\ Py.endswith (Path.name "a.ts") ".pyc" = false
  /\ Py.endswith (Path.name "a.ts") ".log" = false.
Proof.
  split; [reflexivity|]. split; [reflexivity|].
  do 5 (split; [reflexivity|]).
  apply (scan_excludes_hidden_and_generated_files (fun bytes => bytes)
           hidden_old hidden_new "proj" "figma" "out" "a.ts");
    [reflexivity|reflexivity|].
  right. right. right. left. reflexivity.
Defined.

(* ================================================================== *)
(** ** Diffs, hunks and the round trip *)
(* ================================================================== *)

(** Where the hunks do reproduce the new file: the three rewritten lines
    of the worked analysis, whose hunks keep the number of lines. *)
Lemma round_trip_of_the_worked_analysis :
  Review.apply_hunks (Review._parse_diff_file app_diff) app_old = app_new.
Proof. vm_compute. reflexivity. Qed.

(** C9 fails on the code.  A hunk of one old and one new line has the
    header [@@ -1 +1 @@], without counts; the parser wants both counts and
    finds no hunk, so that nothing is applied, and [review_file] reports a
    file without changes.  And where the diff has several hunks, each is
    applied at its old-range offset to the lines the hunks before it have
    already changed: after a hunk that removes a line the next one lands a
    line too low. *)
Theorem hunks_of_a_diff_do_not_reproduce_the_new_file :
  (one_diff
   = ["--- a/a.ts" ++ LF; "+++ b/a.ts" ++ LF; "@@ -1 +1 @@" ++ LF;
      "-x" ++ LF; "+y" ++ LF]
   /\ Review._parse_diff_file one_diff = []
   /\ Review.apply_hunks (Review._parse_diff_file one_diff) one_old = one_old
   /\ Review.apply_hunks (Review._parse_diff_file one_diff) one_old <> one_new
   /\ fst (fst (Review.review_file one_reviewer "U001" "2024-05-01T10:00:00"
                  ["a"]))
      = Ok Review.no_changes)
  /\ (map Review.header (Review._parse_diff_file drift_diff)
      = ["@@ -1,5 +1,4 @@"; "@@ -14,7 +13,7 @@"]
      /\ Review.apply_hunks (Review._parse_diff_file drift_diff) drift_old
         <> drift_new
      /\ nth 12 (Review.apply_hunks (Review._parse_diff_file drift_diff)
                   drift_old) EmptyString = numbered "line" 14
      /\ nth 13 (Review.apply_hunks (Review._parse_diff_file drift_diff)
                   drift_old) EmptyString = numbered "line" 14
      /\ nth 13 drift_new EmptyString = numbered "line" 15).
Proof.
  split.
  - repeat split; try (vm_compute; reflexivity).
    vm_compute. discriminate.
  - repeat split; try (vm_compute; reflexivity).
    vm_compute. discriminate.
Qed.

(* ================================================================== *)
(** ** Errors on single items *)
(* ================================================================== *)

Section DiffErrors.
Variable get_grouped_opcodes : list string -> list string -> list Difflib.group.

(** Where the old or the new file cannot be read as text, the diff
    generator writes nothing and reports no added and no removed line. *)
Lemma create_diff_file_unreadable fs old_file new_file diff_file e :
  Sync.read_both fs old_file new_file = Raise e ->
  Sync._create_diff_file get_grouped_opcodes fs old_file new_file diff_file
  = (fs, Sync.Stats 0 0).
Proof.
  intros H. unfold Sync._create_diff_file. now rewrite H.
Qed.

Lemma read_both_undecodable fs old_file new_file c :
  Dict.get old_file fs = Some c -> FS.decodable c = false ->
  Sync.read_both fs old_file new_file = Raise UnicodeDecodeError.
Proof.
  intros G D. unfold Sync.read_both, FS.readlines, FS.read_bytes, bind.
  now rewrite G, D.
Qed.

(** An updated file that is gone when its turn comes ends the loop: the
    diff generator reports no change, and the copy of the old version
    raises. *)
Lemma process_updated_file_missing m fs idx p :
  Dict.get (Path.join (Sync.old_project m) p) fs = None ->
  Sync.process_updated_file get_grouped_opcodes m fs idx p
  = Raise FileNotFoundError.
Proof.
  intros G. unfold Sync.process_updated_file.
  rewrite (create_diff_file_unreadable _ _ _ _ FileNotFoundError).
  - cbn [Sync.old_project Sync.new_figma]. unfold FS.copy2, FS.read_bytes, bind.
    cbn [Sync.old_project]. now rewrite G.
  - unfold Sync.read_both, FS.readlines, FS.read_bytes, bind.
    cbn [Sync.old_project]. now rewrite G.
Qed.

End DiffErrors.

(** C8 fails on the code where a preview file is missing.  The analysis
    itself gets past the image: it is labelled [U001], no diff is written
    for it, its summary counts no line, and the source file after it is
    processed as [U002].  But the review of [U001] looks up the first
    match of the pattern for the diff in an empty list: [review_file] ends
    with [IndexError], and a quick review that views [U001] ends with it
    before [U002] is shown and before anything is saved.  In the same way
    [apply_decisions] ends with [IndexError] at an approved label without
    a new version, and the approved labels after it are not applied. *)
Theorem missing_preview_file_ends_the_run :
  (Review.updates mixed_reviewer
   = [("U001", "img/logo.png"); ("U002", "src/App.tsx")]
   /\ FS.glob (Review.fs mixed_reviewer) "figma-sync/03_UPDATED_FILES/U001"
        ".diff" = []
   /\ FS.glob (Review.fs mixed_reviewer) "figma-sync/03_UPDATED_FILES/U002"
        ".diff" = ["figma-sync/03_UPDATED_FILES/U002/App.tsx.diff"]
   /\ Review.contains
        (match Dict.get "figma-sync/03_UPDATED_FILES/U001/SUMMARY.txt"
                 (Review.fs mixed_reviewer) with
         | Some s => s
         | None => EmptyString
         end)
        ("Lines Added: 0" ++ LF ++ "Lines Removed: 0" ++ LF) = true)
  /\ Review.review_file mixed_reviewer "U001" "2024-05-01T10:00:00" ["a"]
     = (Raise IndexError, mixed_reviewer, ["a"])
  /\ (let '(res, r, rest) :=
        Review.quick_review_all mixed_reviewer "2024-05-01T10:00:00"
          ["v"; "a"; "n"] in
      res = Raise IndexError /\ rest = ["a"; "n"]
      /\ Review.decisions_file r = None)
  /\ (let '(res, r) := Review.apply_decisions mixed_reviewer_approved in
      res = Raise IndexError
      /\ Dict.get "proj/src/App.tsx" (Review.fs r)
         = Some (String.concat EmptyString app_old)
      /\ Dict.get "proj/src/App.tsx.backup" (Review.fs r) = None).
Proof.
  split; [repeat split; vm_compute; reflexivity|].
  split; [vm_compute; reflexivity|].
  split; vm_compute; repeat split; reflexivity.
Qed.

(* ================================================================== *)
(** ** The label registry *)
(* ================================================================== *)

Section LabelFacts.
Import Sync.

Lemma int_of_digits_uint d : forall acc,
  Py.int_of_digits acc (NilEmpty.string_of_uint d) = Nat.of_uint_acc d acc.
Proof.
  induction d; intros acc; cbn [NilEmpty.string_of_uint Py.int_of_digits
    Nat.of_uint_acc]; try reflexivity;
    rewrite IHd, Nat.tail_mul_spec; f_equal; cbn; lia.
Qed.

Lemma int_of_digits_zeros k s :
  Py.int_of_digits 0 (Py.zeros k ++ s) = Py.int_of_digits 0 s.
Proof. induction k as [|k IH]; cbn; auto. Qed.

(** Reading a formatted number back gives the number. *)
Lemma int_of_format_03d n : Py.int_of_digits 0 (Py.format_03d n) = n.
Proof.
  unfold Py.format_03d, Py.str_of_nat.
  rewrite int_of_digits_zeros, int_of_digits_uint.
  apply DecimalNat.Unsigned.of_to.
Qed.

Lemma append_injective (p a b : string) : p ++ a = p ++ b -> a = b.
Proof.
  induction p as [|c p IH]; cbn; [auto|]. intros [= H]. auto.
Qed.

(** Two indices have two labels. *)
Lemma label_injective kind i j : label kind i = label kind j -> i = j.
Proof.
  unfold label. intros H. apply append_injective in H.
  rewrite <- (int_of_format_03d i), <- (int_of_format_03d j). now rewrite H.
Qed.

Lemma set_new {V : Type} k (v : V) d :
  Dict.get k d = None -> Dict.set k v d = (d ++ [(k, v)])%list.
Proof.
  induction d as [|[k' v'] d IH]; cbn; [reflexivity|].
  destruct (String.eqb k k'); [discriminate|]. intros G. now rewrite IH.
Qed.

Lemma get_app_none {V : Type} k (d1 d2 : Dict.t V) :
  Dict.get k d1 = None -> Dict.get k (d1 ++ d2)%list = Dict.get k d2.
Proof.
  induction d1 as [|[k' v'] d1 IH]; cbn; [reflexivity|].
  destruct (String.eqb k k'); [discriminate|auto].
Qed.

(** Numbering a list from [a] on, into a dictionary that has none of the
    labels yet: the dictionary grows by one binding for each element, in
    the order of the list. *)
Lemma assign_labels kind (l : list string) : forall a acc,
  (forall i, a <= i -> Dict.get (label kind i) acc = None) ->
  fold_left
    (fun acc p => let '(idx, x) := p in Dict.set (label kind idx) x acc)
    (combine (seq a (List.length l)) l) acc
  = (acc ++ map (fun p => (label kind (fst p), snd p))
              (combine (seq a (List.length l)) l))%list.
Proof.
  induction l as [|x l IH]; intros a acc F; cbn.
  - now rewrite app_nil_r.
  - rewrite set_new by (apply F; lia).
    rewrite IH.
    + now rewrite <- app_assoc.
    + intros i Hi. rewrite get_app_none by (apply F; lia).
      cbn. destruct (String.eqb_spec (label kind i) (label kind a)) as [E|_];
        [|reflexivity].
      apply label_injective in E. lia.
Qed.

(** On a fresh manager the folders are labelled in the order of
    [new_folders], which is the order of the walk. *)
Lemma folder_labels_in_scan_order m :
  folder_labels m = [] ->
  folder_labels (process_new_folders m)
  = map (fun p => (label "F" (fst p), snd p)) (enumerate1 (new_folders m)).
Proof.
  intros E. unfold process_new_folders, enumerate1. cbn [folder_labels].
  rewrite assign_labels; rewrite E; [reflexivity|reflexivity].
Qed.

(** And the new files in the order directory by directory, sorted. *)
Lemma file_labels_in_sorted_order m :
  file_labels m = [] ->
  file_labels (process_new_files m)
  = map (fun p => (label "N" (fst p), snd p))
      (enumerate1 (new_files_order (new_files m))).
Proof.
  intros E. unfold process_new_files, enumerate1. cbn [file_labels].
  rewrite assign_labels; rewrite E; [reflexivity|reflexivity].
Qed.

End LabelFacts.

Section UpdateLabelFacts.
Import Sync.
Variable get_grouped_opcodes : list string -> list string -> list Difflib.group.

Lemma process_updated_loop_labels items : forall m fs m' fs',
  process_updated_loop get_grouped_opcodes m fs items = Ok (m', fs') ->
  update_labels m'
  = fold_left
      (fun acc p => let '(idx, x) := p in Dict.set (label "U" idx) x acc)
      items (update_labels m).
Proof.
  induction items as [|[idx p] items IH]; intros m fs m' fs' H;
    cbn [process_updated_loop] in H.
  - now injection H as <- _.
  - unfold bind in H.
    destruct (process_updated_file get_grouped_opcodes m fs idx p)
      as [[m1 fs1]|e] eqn:S; [|discriminate].
    cbn [fst snd] in H. apply IH in H. rewrite H. cbn [fold_left]. f_equal.
    unfold process_updated_file in S.
    destruct (_create_diff_file _ _ _ _ _) as [fs0 st].
    unfold bind in S.
    destruct (FS.copy2 fs0 _ _) as [fs2|]; [|discriminate].
    destruct (FS.copy2 fs2 _ _) as [fs3|]; [|discriminate].
    now injection S as <- _.
Qed.

(** When the analysis of the updated files gets through, a fresh manager
    has them labelled in sorted order. *)
Lemma update_labels_in_sorted_order m fs m' fs' :
  update_labels m = [] ->
  process_updated_files get_grouped_opcodes m fs = Ok (m', fs') ->
  update_labels m'
  = map (fun p => (label "U" (fst p), snd p))
      (enumerate1 (Py.sorted (updated_files m))).
Proof.
  intros E H. unfold process_updated_files in H.
  apply process_updated_loop_labels in H. rewrite H. unfold enumerate1.
  rewrite assign_labels; rewrite E; [reflexivity|reflexivity].
Qed.

End UpdateLabelFacts.

(** C2 fails on the code for folders.  The walk lists the folders of a
    directory before it descends, so the new folders come as [a], [b],
    [a/z], and [process_new_folders] numbers them as they come: [F002] is
    [b] and [F003] is [a/z], where the sorted order has [a/z] before [b].
    New files are numbered in sorted order. *)
Theorem folder_labels_follow_the_walk :
  Sync.new_folders folders_manager = ["a"; "b"; "a/z"]
  /\ Sync.folder_labels folders_manager
     = [("F001", "a"); ("F002", "b"); ("F003", "a/z")]
  /\ Py.sorted (Sync.new_folders folders_manager) = ["a"; "a/z"; "b"]
  /\ map snd (Sync.folder_labels folders_manager)
     <> Py.sorted (Sync.new_folders folders_manager)
  /\ Sync.file_labels folders_manager
     = [("N001", "a/z/x.ts"); ("N002", "b/y.ts")].
Proof.
  repeat split; try (vm_compute; reflexivity).
  vm_compute. discriminate.
Qed.

(* ================================================================== *)
(** ** Further properties of the code *)
(* ================================================================== *)

Section WalkFacts.
Import Sync.
Variable md5 : string -> string.

Lemma contains_set {V : Type} k k' (v : V) d :
  Dict.contains k (Dict.set k' v d) = String.eqb k' k || Dict.contains k d.
Proof.
  unfold Dict.contains. destruct (String.eqb_spec k' k) as [->|N].
  - now rewrite get_set_eq.
  - now rewrite get_set_neq.
Qed.

Lemma in_file_entries name content entries :
  In (name, content) (file_entries entries) <-> In (File name content) entries.
Proof.
  unfold file_entries. rewrite in_flat_map. split.
  - intros ([f c|d es] & Hx & Hi); cbn in Hi; [|contradiction].
    destruct Hi as [[= -> ->]|[]]. exact Hx.
  - intros H. exists (File name content). split; [exact H|now left].
Qed.

Lemma in_dir_names d entries :
  In d (dir_names entries) <-> exists sub, In (Dir d sub) entries.
Proof.
  unfold dir_names. rewrite in_flat_map. split.
  - intros ([f c|d' es] & Hx & Hi); cbn in Hi; [contradiction|].
    destruct Hi as [->|[]]. now exists es.
  - intros [sub H]. exists (Dir d sub). split; [exact H|now left].
Qed.

(** The files one directory adds. *)
Lemma add_files_get rel fs : forall st p h,
  Dict.get p (files (add_files md5 rel fs st)) = Some h ->
  Dict.get p (files st) = Some h
  \/ exists name bytes,
       In (name, Some bytes) fs /\ skipped_file name = false
       /\ p = child rel name /\ h = md5 bytes.
Proof.
  unfold add_files.
  induction fs as [|[name content] fs IH]; intros st p h; cbn [fold_left];
    [now left|].
  intros H. apply IH in H as [H|(n & bs & Hi & Hs & -> & ->)].
  - destruct (skipped_file name) eqn:S; [now left|].
    destruct content as [bytes|]; [|now left].
    cbn [files] in H.
    destruct (String.eqb_spec (child rel name) p) as [<-|N].
    + rewrite get_set_eq in H. injection H as <-.
      right. exists name, bytes. repeat split; auto. now left.
    + rewrite get_set_neq in H by assumption. now left.
  - right. exists n, bs. repeat split; auto. now right.
Qed.

Lemma add_files_contains rel fs : forall st p,
  Dict.contains p (files st) = true
  \/ (exists name bytes,
        In (name, Some bytes) fs /\ skipped_file name = false
        /\ p = child rel name) ->
  Dict.contains p (files (add_files md5 rel fs st)) = true.
Proof.
  unfold add_files.
  induction fs as [|[name content] fs IH]; intros st p; cbn [fold_left].
  - intros [H|(n & bs & [] & _)]. exact H.
  - intros H. apply IH.
    destruct H as [H|(n & bs & [E|Hi] & Hs & ->)].
    + left. destruct (skipped_file name); [exact H|].
      destruct content; [|exact H]. cbn [files]. rewrite contains_set, H.
      apply orb_true_r.
    + injection E as -> ->. left. rewrite Hs. cbn [files].
      rewrite contains_set, String.eqb_refl. reflexivity.
    + right. exists n, bs. auto.
Qed.

Lemma add_files_folders rel fs : forall st,
  folders (add_files md5 rel fs st) = folders st.
Proof.
  unfold add_files. induction fs as [|[name content] fs IH]; intros st;
    cbn [fold_left]; [reflexivity|].
  rewrite IH. destruct (skipped_file name); [reflexivity|].
  now destruct content.
Qed.

Lemma add_folders_folders rel dirs : forall st,
  folders (add_folders rel dirs st)
  = (folders st ++ map (child rel) dirs)%list.
Proof.
  unfold add_folders. induction dirs as [|d dirs IH]; intros st;
    cbn [fold_left map].
  - now rewrite app_nil_r.
  - rewrite IH. cbn [folders]. now rewrite <- app_assoc.
Qed.

(** The files a walk adds to a structure are the files it keeps, each
    with the hash of its bytes. *)
Lemma visit_get n : forall rel st p h,
  Dict.get p (files (visit md5 rel n st)) = Some h ->
  Dict.get p (files st) = Some h
  \/ exists bytes, kept_file rel (entries_of n) p bytes /\ h = md5 bytes.
Proof.
  induction n as [name content|name entries IH] using node_induction;
    intros rel st p h; [now left|].
  cbn [visit entries_of].
  set (st2 := add_files md5 rel (file_entries entries) _).
  assert (forall h, Dict.get p (files st2) = Some h ->
            Dict.get p (files st) = Some h
            \/ exists bytes, kept_file rel entries p bytes /\ h = md5 bytes) as H2.
  { intros h' H. apply add_files_get in H as [H|(n & bs & Hi & Hs & -> & ->)].
    - left. now rewrite add_folders_files in H.
    - right. exists bs. split; [|reflexivity].
      apply kept_file_here; [now apply in_file_entries|exact Hs]. }
  clearbody st2.
  assert (forall e, In e entries -> In e entries) as Sub by auto.
  revert Sub. generalize entries at 1 3 as es.
  intros es. revert st2 H2 h.
  induction es as [|e es IHe]; intros st2 H2 h Sub H; [now apply H2|].
  assert (In e entries) as He by (apply Sub; now left).
  assert (forall x, In x es -> In x entries) as Sub' by (intros x Hx; apply Sub; now right).
  destruct e as [f c|d sub].
  - now apply (IHe st2 H2 h Sub').
  - destruct (mem d ignored_dirs) eqn:M; [now apply (IHe st2 H2 h Sub')|].
    refine (IHe _ _ h Sub' H). intros h' H'.
    rewrite Forall_forall in IH.
    apply (IH _ He) in H' as [H'|(bs & K & ->)]; [now apply H2|].
    right. exists bs. split; [|reflexivity].
    now apply (kept_file_below rel entries d sub).
Qed.

Lemma visit_contains n : forall rel st p,
  Dict.contains p (files st) = true
  \/ (exists bytes, kept_file rel (entries_of n) p bytes) ->
  Dict.contains p (files (visit md5 rel n st)) = true.
Proof.
  induction n as [name content|name entries IH] using node_induction;
    intros rel st p.
  - intros [H|[bytes K]]; [exact H|]. cbn [entries_of] in K.
    inversion K; subst; contradiction.
  - cbn [visit entries_of].
    set (st2 := add_files md5 rel (file_entries entries) _).
    intros H.
    assert (Dict.contains p (files st2) = true
            \/ exists d sub bytes,
                 In (Dir d sub) entries /\ mem d ignored_dirs = false
                 /\ kept_file (child rel d) sub p bytes) as H2.
    { destruct H as [H|[bytes K]].
      - left. apply add_files_contains. left. now rewrite add_folders_files.
      - inversion K as [? ? name' ? Hi Hs|? ? d sub ? ? Hi Hm K']; subst.
        + left. apply add_files_contains. right. exists name', bytes.
          repeat split; auto. now apply in_file_entries.
        + right. exists d, sub, bytes. auto. }
    clearbody st2. clear H.
    rewrite Forall_forall in IH.
    revert st2 H2. induction entries as [|e es IHe]; intros st2 H2.
    + destruct H2 as [H2|(d & sub & bytes & [] & _)]. exact H2.
    + assert (forall x, In x es -> forall rel st p,
                Dict.contains p (files st) = true
                \/ (exists bytes, kept_file rel (entries_of x) p bytes) ->
                Dict.contains p (files (visit md5 rel x st)) = true) as IH'
        by (intros x Hx; apply IH; now right).
      specialize (IHe IH').
      destruct e as [f c|d0 sub0].
      * apply IHe. destruct H2 as [H2|(d & sub & bytes & [E|Hi] & Hm & K)];
          [now left|discriminate|]. right. exists d, sub, bytes. auto.
      * destruct H2 as [H2|(d & sub & bytes & [E|Hi] & Hm & K)].
        -- destruct (mem d0 ignored_dirs); apply IHe; left; [exact H2|].
           apply (IH (Dir d0 sub0)); [now left|]. now left.
        -- injection E as -> ->. rewrite Hm. apply IHe. left.
           apply (IH (Dir d sub)); [now left|]. right. now exists bytes.
        -- destruct (mem d0 ignored_dirs); apply IHe; right;
             exists d, sub, bytes; auto.
Qed.

End WalkFacts.

Section WalkFolders.
Import Sync.
Variable md5 : string -> string.

Lemma visit_folders n : forall rel st p,
  In p (folders (visit md5 rel n st))
  <-> In p (folders st) \/ kept_folder rel (entries_of n) p.
Proof.
  induction n as [name content|name entries IH] using node_induction;
    intros rel st p.
  - cbn [visit entries_of]. split; [now left|].
    intros [H|K]; [exact H|]. inversion K; subst; contradiction.
  - cbn [visit entries_of].
    set (st2 := add_files md5 rel (file_entries entries) _).
    assert (In p (folders st2)
            <-> In p (folders st)
                \/ exists d sub, In (Dir d sub) entries
                     /\ mem d ignored_dirs = false /\ p = child rel d) as H2.
    { unfold st2. rewrite add_files_folders, add_folders_folders, in_app_iff.
      rewrite in_map_iff. split; (intros [H|H]; [now left|right]).
      - destruct H as (d & <- & Hd). apply filter_In in Hd as [Hd Hm].
        apply in_dir_names in Hd as [sub Hd]. apply negb_true_iff in Hm.
        exists d, sub. auto.
      - destruct H as (d & sub & Hi & Hm & ->). exists d. split; [reflexivity|].
        apply filter_In. split; [apply in_dir_names; now exists sub|].
        now apply negb_true_iff. }
    clearbody st2.
    rewrite Forall_forall in IH.
    assert (forall es st2,
              (forall x, In x es -> In x entries) ->
              In p (folders
                      ((fix descend (es : list node) (st : structure) : structure :=
                          match es with
                          | [] => st
                          | e :: es' =>
                              match e with
                              | Dir d _ =>
                                  if mem d ignored_dirs then descend es' st
                                  else descend es' (visit md5 (child rel d) e st)
                              | File _ _ => descend es' st
                              end
                          end) es st2))
              <-> In p (folders st2)
                  \/ exists d sub, In (Dir d sub) es
                       /\ mem d ignored_dirs = false
                       /\ kept_folder (child rel d) sub p) as Loop.
    { induction es as [|e es IHe]; intros st' Sub.
      - split; [now left|]. intros [H|(d & sub & [] & _)]. exact H.
      - assert (forall x, In x es -> In x entries) as Sub'
          by (intros x Hx; apply Sub; now right).
        destruct e as [f c|d0 sub0].
        + rewrite (IHe _ Sub'). split; (intros [H|(d & sub & Hi & Hm & K)];
            [now left|right; exists d, sub]).
          * split; [now right|auto].
          * destruct Hi as [E|Hi]; [discriminate|auto].
        + destruct (mem d0 ignored_dirs) eqn:M.
          * rewrite (IHe _ Sub'). split; (intros [H|(d & sub & Hi & Hm & K)];
              [now left|right; exists d, sub]).
            -- split; [now right|auto].
            -- destruct Hi as [E|Hi]; [|auto]. injection E as -> ->. congruence.
          * rewrite (IHe _ Sub'), (IH (Dir d0 sub0)) by (apply Sub; now left).
            cbn [entries_of]. split.
            -- intros [[H|K]|(d & sub & Hi & Hm & K)]; [now left| |].
               ++ right. exists d0, sub0. split; [now left|auto].
               ++ right. exists d, sub. split; [now right|auto].
            -- intros [H|(d & sub & [E|Hi] & Hm & K)]; [now left; left| |].
               ++ injection E as -> ->. left. now right.
               ++ right. exists d, sub. auto. }
    rewrite (Loop entries st2 (fun x H => H)), H2. split.
    + intros [[H|(d & sub & Hi & Hm & ->)]|(d & sub & Hi & Hm & K)];
        [now left| |]; right.
      * now apply (kept_folder_here rel entries d sub).
      * now apply (kept_folder_below rel entries d sub).
    + intros [H|K]; [now left; left|].
      inversion K as [? ? d sub Hi Hm|? ? d sub ? Hi Hm K']; subst.
      * left. right. exists d, sub. auto.
      * right. exists d, sub. auto.
Qed.

End WalkFolders.

Section WalkTheorems.
Import Sync.

(** X1. The files of a scan are the files the walk keeps.  Every path of
    the scan stands for a file that can be read, whose name is not
    skipped and that lies under no ignored directory, and its hash is the
    hash of the bytes of such a file; and every such file is in the
    scan. *)
Theorem scan_has_the_kept_files
    (md5 : string -> string) (root : list node) (p : string) :
  (forall h,
     Dict.get p (files (_get_project_structure md5 root)) = Some h ->
     exists bytes, kept_file EmptyString root p bytes /\ h = md5 bytes)
  /\ (forall bytes,
        kept_file EmptyString root p bytes ->
        Dict.contains p (files (_get_project_structure md5 root)) = true).
Proof.
  unfold _get_project_structure. split.
  - intros h H. apply visit_get in H as [H|H]; [discriminate|exact H].
  - intros bytes K. apply visit_contains. right. now exists bytes.
Qed.

(** X2. The folders of a scan are the directories the walk keeps: the
    directories below the root that are not ignored and lie under no
    ignored directory, whatever they contain. *)
Theorem scan_has_the_kept_folders
    (md5 : string -> string) (root : list node) (p : string) :
  mem p (folders (_get_project_structure md5 root)) = true
  <-> kept_folder EmptyString root p.
Proof.
  rewrite mem_iff. unfold _get_project_structure. rewrite visit_folders.
  cbn [folders entries_of In]. tauto.
Qed.

End WalkTheorems.

Section ClassifierCounts.
Import Sync.

Lemma filter_none {A : Type} (c : A -> bool) l :
  (forall x, In x l -> c x = false) -> filter c l = [].
Proof.
  induction l as [|x l IH]; intros H; cbn [filter]; [reflexivity|].
  rewrite (H x) by now left. apply IH. intros y Hy. apply H. now right.
Qed.

Lemma filter_all {A : Type} (c : A -> bool) l :
  (forall x, In x l -> c x = true) -> filter c l = l.
Proof.
  induction l as [|x l IH]; intros H; cbn [filter]; [reflexivity|].
  rewrite (H x) by now left. f_equal. apply IH. intros y Hy. apply H. now right.
Qed.

Lemma filter_split_length {A : Type} (c : A -> bool) l :
  List.length (filter c l) + List.length (filter (fun x => negb (c x)) l)
  = List.length l.
Proof.
  induction l as [|x l IH]; cbn [filter]; [reflexivity|].
  destruct (c x); cbn [negb List.length]; lia.
Qed.

(** Each file of the new structure is of one kind. *)
Lemma changed_as_lengths old_files new_files :
  List.length (changed_as is_new old_files new_files)
  + List.length (changed_as is_updated old_files new_files)
  + List.length (changed_as is_identical old_files new_files)
  = List.length new_files.
Proof.
  unfold changed_as. rewrite !length_map.
  induction new_files as [|item l IH]; cbn [filter]; [reflexivity|].
  destruct (change_of old_files item); cbn [file_change_eqb List.length]; lia.
Qed.

(** The files of the new structure that the old structure has too. *)
Lemma common_length old_files new_files :
  List.length (changed_as is_updated old_files new_files)
  + List.length (changed_as is_identical old_files new_files)
  = List.length (filter (fun p => Dict.contains p old_files)
                   (Dict.keys new_files)).
Proof.
  unfold changed_as, Dict.keys, Dict.contains, change_of. rewrite !length_map.
  induction new_files as [|[p h] l IH]; cbn [filter map fst snd];
    [reflexivity|].
  destruct (Dict.get p old_files) as [oh|]; [|exact IH].
  destruct (negb (String.eqb oh h)); cbn [file_change_eqb List.length]; lia.
Qed.

Lemma NoDup_same_length {A : Type} (l1 l2 : list A) :
  NoDup l1 -> NoDup l2 -> (forall x, In x l1 <-> In x l2) ->
  List.length l1 = List.length l2.
Proof.
  intros N1 N2 H. apply Nat.le_antisymm; apply NoDup_incl_length;
    try assumption; intros x Hx; now apply H.
Qed.

Lemma common_symmetric (d1 d2 : Dict.t string) :
  Dict.unique d1 = true -> Dict.unique d2 = true ->
  List.length (filter (fun p => Dict.contains p d1) (Dict.keys d2))
  = List.length (filter (fun p => Dict.contains p d2) (Dict.keys d1)).
Proof.
  unfold Dict.unique. rewrite !distinct_NoDup. intros U1 U2.
  apply NoDup_same_length; try now apply NoDup_filter.
  intros x. rewrite !filter_In, !contains_iff. tauto.
Qed.

End ClassifierCounts.

Section ClassifierTheorems.
Import Sync.

(** X3. The counts of a comparison add up.  The new, updated and unchanged
    files are as many as the files of the new tree, and the deleted,
    updated and unchanged files as many as the files of the old tree: no
    file is counted twice and none is left out. *)
Theorem file_counts_add_up
    (md5 : string -> string) (old_tree new_tree : list node)
    (o n out : string) :
  let m := scan_projects md5 old_tree new_tree (init o n out) in
  List.length (new_files m) + List.length (updated_files m)
  + List.length (identical_files m)
  = List.length (files (_get_project_structure md5 new_tree))
  /\ List.length (deleted_files m) + List.length (updated_files m)
     + List.length (identical_files m)
     = List.length (files (_get_project_structure md5 old_tree)).
Proof.
  unfold scan_projects.
  set (old := _get_project_structure md5 old_tree).
  set (new := _get_project_structure md5 new_tree).
  destruct (classify_lists old new (init o n out))
    as (_ & _ & -> & -> & -> & ->).
  cbn [init new_files updated_files identical_files deleted_files app].
  split; [apply changed_as_lengths|].
  rewrite <- Nat.add_assoc, common_length.
  rewrite (common_symmetric (files old) (files new))
    by apply scan_files_unique.
  rewrite Nat.add_comm, filter_split_length.
  unfold Dict.keys. apply length_map.
Qed.

(** X4. A tree compared with itself has no change: no new, updated or
    deleted file, no new or deleted folder, and every file of the scan is
    listed as unchanged, in scan order. *)
Theorem same_tree_has_no_change
    (md5 : string -> string) (tree : list node) (o n out : string) :
  let m := scan_projects md5 tree tree (init o n out) in
  new_folders m = [] /\ deleted_folders m = []
  /\ new_files m = [] /\ updated_files m = [] /\ deleted_files m = []
  /\ identical_files m = Dict.keys (files (_get_project_structure md5 tree)).
Proof.
  unfold scan_projects. set (s := _get_project_structure md5 tree).
  destruct (classify_lists s s (init o n out))
    as (-> & -> & -> & -> & -> & ->).
  cbn [init new_folders new_files updated_files identical_files deleted_files
       deleted_folders app].
  pose proof (scan_files_unique md5 tree) as U. fold s in U.
  assert (forall item, In item (files s) ->
            change_of (files s) item = is_identical) as Same.
  { intros [p h] Hi. unfold change_of. cbn [fst snd].
    rewrite (unique_in_get _ _ _ U Hi). now rewrite String.eqb_refl. }
  repeat split.
  - apply filter_none. intros f Hf. apply mem_iff in Hf. now rewrite Hf.
  - apply filter_none. intros f Hf. apply mem_iff in Hf. now rewrite Hf.
  - unfold changed_as. rewrite filter_none; [reflexivity|].
    intros item Hi. now rewrite Same.
  - unfold changed_as. rewrite filter_none; [reflexivity|].
    intros item Hi. now rewrite Same.
  - apply filter_none. intros p Hp. apply contains_iff in Hp. now rewrite Hp.
  - unfold changed_as. rewrite filter_all; [reflexivity|].
    intros item Hi. now rewrite Same.
Qed.

(** X5. Swapping the two trees swaps creation and deletion.  The new files
    and folders of one direction are the deleted files and folders of the
    other, in the same order, and a path is an updated (an unchanged)
    file in one direction exactly when it is in the other. *)
Theorem swapped_trees_swap_new_and_deleted
    (md5 : string -> string) (tree1 tree2 : list node) (o n out : string) :
  let m := scan_projects md5 tree1 tree2 (init o n out) in
  let w := scan_projects md5 tree2 tree1 (init o n out) in
  new_files m = deleted_files w
  /\ deleted_files m = new_files w
  /\ new_folders m = deleted_folders w
  /\ deleted_folders m = new_folders w
  /\ (forall p, mem p (updated_files m) = mem p (updated_files w))
  /\ (forall p, mem p (identical_files m) = mem p (identical_files w)).
Proof.
  unfold scan_projects.
  set (s1 := _get_project_structure md5 tree1).
  set (s2 := _get_project_structure md5 tree2).
  destruct (classify_lists s1 s2 (init o n out))
    as (-> & -> & -> & -> & -> & ->).
  destruct (classify_lists s2 s1 (init o n out))
    as (-> & -> & -> & -> & -> & ->).
  cbn [init new_folders new_files updated_files identical_files deleted_files
       deleted_folders app].
  pose proof (scan_files_unique md5 tree1) as U1. fold s1 in U1.
  pose proof (scan_files_unique md5 tree2) as U2. fold s2 in U2.
  assert (forall d1 d2 : Dict.t string,
            changed_as is_new d1 d2
            = filter (fun p => negb (Dict.contains p d1)) (Dict.keys d2)) as New.
  { intros d1 d2. unfold changed_as, Dict.keys, Dict.contains, change_of.
    induction d2 as [|[p h] d2 IH]; cbn [filter map fst snd]; [reflexivity|].
    destruct (Dict.get p d1) as [oh|]; cbn [negb file_change_eqb].
    - destruct (negb (String.eqb oh h)); exact IH.
    - cbn [map fst]. now rewrite IH. }
  repeat split; try apply New; try (symmetry; apply New).
  - intros p. rewrite !mem_changed_as by assumption. unfold change_of.
    cbn [fst snd].
    destruct (Dict.get p (files s1)) as [h1|], (Dict.get p (files s2)) as [h2|];
      try reflexivity.
    rewrite (String.eqb_sym h1 h2). reflexivity.
  - intros p. rewrite !mem_changed_as by assumption. unfold change_of.
    cbn [fst snd].
    destruct (Dict.get p (files s1)) as [h1|], (Dict.get p (files s2)) as [h2|];
      try reflexivity.
    rewrite (String.eqb_sym h1 h2). reflexivity.
Qed.

End ClassifierTheorems.

Section RegistryFacts.
Import Sync.

Lemma map_snd_combine {A B : Type} (l1 : list A) (l2 : list B) :
  List.length l1 = List.length l2 -> map snd (combine l1 l2) = l2.
Proof.
  revert l2. induction l1 as [|x l1 IH]; intros [|y l2] H; cbn in *;
    try discriminate; [reflexivity|]. f_equal. apply IH. lia.
Qed.

Lemma map_fst_combine {A B : Type} (l1 : list A) (l2 : list B) :
  List.length l1 = List.length l2 -> map fst (combine l1 l2) = l1.
Proof.
  revert l2. induction l1 as [|x l1 IH]; intros [|y l2] H; cbn in *;
    try discriminate; [reflexivity|]. f_equal. apply IH. lia.
Qed.

(** The paths and the labels of a numbered list. *)
Lemma numbered_paths kind (l : list string) :
  map snd (map (fun p => (label kind (fst p), snd p)) (enumerate1 l)) = l.
Proof.
  rewrite map_map. cbn [snd]. unfold enumerate1.
  apply map_snd_combine. apply length_seq.
Qed.

Lemma numbered_keys kind (l : list string) :
  Dict.keys (map (fun p => (label kind (fst p), snd p)) (enumerate1 l))
  = map (label kind) (seq 1 (List.length l)).
Proof.
  unfold Dict.keys. rewrite map_map. cbn [fst]. unfold enumerate1.
  rewrite <- (map_fst_combine (seq 1 (List.length l)) l) at 2
    by apply length_seq.
  now rewrite map_map.
Qed.

Lemma labels_distinct kind a n :
  Dict.distinct (map (label kind) (seq a n)) = true.
Proof.
  apply distinct_NoDup. revert a. induction n as [|n IH]; intros a;
    cbn [seq map]; constructor; [|apply IH].
  intros H. apply in_map_iff in H as (i & E & Hi).
  apply label_injective in E. apply in_seq in Hi. lia.
Qed.

Lemma classify_labels old new m :
  folder_labels (classify old new m) = folder_labels m
  /\ file_labels (classify old new m) = file_labels m
  /\ update_labels (classify old new m) = update_labels m.
Proof.
  unfold classify.
  destruct (fold_left _ (files new) _) as [[nfi ufi] ifi]. now cbn.
Qed.

Lemma sorted_length l : List.length (Py.sorted l) = List.length l.
Proof. symmetry. apply Permutation_length, sorted_permutation. Qed.

End RegistryFacts.

Section GroupingFacts.
Import Sync.

Lemma concat_set_new (k : string) (d : Dict.t (list string)) :
  concat (map snd (Dict.set k [] d)) = concat (map snd d)
  \/ Dict.contains k d = true.
Proof.
  destruct (Dict.contains k d) eqn:C; [now right|left].
  unfold Dict.contains in C. destruct (Dict.get k d) eqn:G; [discriminate|].
  rewrite set_new by assumption. rewrite map_app, concat_app. cbn.
  now rewrite app_nil_r.
Qed.

Lemma concat_set_append (k p : string) (d : Dict.t (list string)) fs :
  Dict.get k d = Some fs ->
  Permutation (concat (map snd (Dict.set k (fs ++ [p])%list d)))
    (concat (map snd d) ++ [p])%list.
Proof.
  induction d as [|[k' v'] d IH]; cbn [Dict.get Dict.set]; [discriminate|].
  destruct (String.eqb k k').
  - intros [= ->]. cbn [map snd concat]. rewrite <- !app_assoc.
    apply Permutation_app_head, Permutation_app_comm.
  - intros G. cbn [map snd concat]. rewrite <- app_assoc.
    apply Permutation_app_head. now apply IH.
Qed.

Lemma group_step_spec d p :
  Dict.unique d = true ->
  Dict.unique (group_step d p) = true
  /\ Permutation (concat (map snd (group_step d p)))
       (concat (map snd d) ++ [p])%list.
Proof.
  intros U. unfold group_step.
  set (k := Path.parent p).
  destruct (Dict.contains k d) eqn:C; cbn [negb].
  - unfold Dict.contains in C. destruct (Dict.get k d) as [fs|] eqn:G;
      [|discriminate].
    split; [now apply set_unique|now apply concat_set_append].
  - rewrite get_set_eq. split; [now apply set_unique, set_unique|].
    rewrite concat_set_append by apply get_set_eq.
    destruct (concat_set_new k d) as [->|C']; [reflexivity|congruence].
Qed.

Lemma group_loop_spec paths : forall d,
  Dict.unique d = true ->
  Dict.unique (fold_left group_step paths d) = true
  /\ Permutation (concat (map snd (fold_left group_step paths d)))
       (concat (map snd d) ++ paths)%list.
Proof.
  induction paths as [|p paths IH]; intros d U; cbn [fold_left].
  - rewrite app_nil_r. auto.
  - destruct (group_step_spec d p U) as [U1 P1].
    destruct (IH _ U1) as [U2 P2]. split; [exact U2|].
    rewrite P2, P1, <- app_assoc. reflexivity.
Qed.

Lemma flat_map_pointwise_permutation {A B : Type} (f g : A -> list B) l :
  (forall x, In x l -> Permutation (f x) (g x)) ->
  Permutation (flat_map f l) (flat_map g l).
Proof.
  induction l as [|x l IH]; intros H; cbn [flat_map]; [reflexivity|].
  apply Permutation_app; [apply H; now left|].
  apply IH. intros y Hy. apply H. now right.
Qed.

Lemma flat_map_keys (d : Dict.t (list string)) :
  Dict.unique d = true ->
  flat_map (fun k => match Dict.get k d with Some fs => fs | None => [] end)
    (Dict.keys d)
  = concat (map snd d).
Proof.
  intros U. unfold Dict.keys. rewrite flat_map_concat_map, map_map.
  f_equal. apply map_ext_in. intros [k fs] Hi. cbn [fst snd].
  now rewrite (unique_in_get _ _ _ U Hi).
Qed.

(** Grouping by directory loses no file and makes none twice. *)
Lemma new_files_order_permutation paths :
  Permutation (new_files_order paths) paths.
Proof.
  unfold new_files_order. change (group_by_dir paths)
    with (fold_left group_step paths []).
  destruct (group_loop_spec paths [] eq_refl) as [U P].
  set (d := fold_left group_step paths []) in *.
  rewrite <- (Permutation_flat_map _ (sorted_permutation (Dict.keys d))).
  rewrite (flat_map_pointwise_permutation _
             (fun k => match Dict.get k d with Some fs => fs | None => [] end)).
  - rewrite flat_map_keys by assumption. exact P.
  - intros k _. destruct (Dict.get k d); [|reflexivity].
    symmetry. apply sorted_permutation.
Qed.

End GroupingFacts.

Section RegistryTheorem.
Import Sync.

Lemma process_updated_loop_keeps get_grouped_opcodes items :
  forall m fs m' fs',
  process_updated_loop get_grouped_opcodes m fs items = Ok (m', fs') ->
  folder_labels m' = folder_labels m /\ file_labels m' = file_labels m.
Proof.
  induction items as [|[idx p] items IH]; intros m fs m' fs' P;
    cbn [process_updated_loop] in P.
  - now injection P as <- _.
  - unfold bind in P.
    destruct (process_updated_file _ m fs idx p) as [[m1 fs2]|e] eqn:S;
      [|discriminate].
    cbn [fst snd] in P. apply IH in P as [-> ->].
    unfold process_updated_file in S.
    destruct (_create_diff_file _ _ _ _ _) as [fs3 st].
    unfold bind in S.
    destruct (FS.copy2 fs3 _ _) as [fs4|]; [|discriminate].
    destruct (FS.copy2 fs4 _ _) as [fs5|]; [|discriminate].
    injection S as <- _. split; reflexivity.
Qed.

(** X6. The label registry of an analysis.  When the analysis gets
    through, the tracking file holds one label for every new folder, new
    file and updated file of the comparison and no other: the folders
    under [F001], [F002], ... in scan order, the new files under [N001],
    ... and the updated files under [U001], ... in sorted order, and no
    label is used twice. *)
Theorem analysis_labels_each_change_once
    (md5 : string -> string)
    (get_grouped_opcodes : list string -> list string -> list Difflib.group)
    (old_tree new_tree : list node) (fs fs' : FS.t) (o n out : string)
    (t : tracking) :
  run_analysis md5 get_grouped_opcodes old_tree new_tree fs (init o n out)
  = Ok (t, fs') ->
  let m := scan_projects md5 old_tree new_tree (init o n out) in
  (map snd (folders_of t) = new_folders m
   /\ Dict.keys (folders_of t)
      = map (label "F") (seq 1 (List.length (new_folders m))))
  /\ (Permutation (map snd (files_of t)) (new_files m)
      /\ Dict.keys (files_of t)
         = map (label "N") (seq 1 (List.length (new_files m))))
  /\ (map snd (updates_of t) = Py.sorted (updated_files m)
      /\ Dict.keys (updates_of t)
         = map (label "U") (seq 1 (List.length (updated_files m))))
  /\ Dict.unique (folders_of t) = true
  /\ Dict.unique (files_of t) = true
  /\ Dict.unique (updates_of t) = true.
Proof.
  intros H m. unfold run_analysis in H. fold m in H.
  unfold bind in H.
  destruct (process_updated_files _ _ _) as [[m' fs1]|e] eqn:P; [|discriminate].
  cbn [fst snd] in H. injection H as <- <-.
  destruct (classify_labels (_get_project_structure md5 old_tree)
              (_get_project_structure md5 new_tree) (init o n out))
    as (F0 & N0 & U0).
  fold (scan_projects md5 old_tree new_tree (init o n out)) in F0, N0, U0.
  fold m in F0, N0, U0. cbn [init folder_labels file_labels update_labels]
    in F0, N0, U0.
  assert (update_labels (process_new_files (process_new_folders m)) = [])
    as Fresh by exact U0.
  pose proof (update_labels_in_sorted_order _ _ _ _ _ Fresh P) as EU.
  clear Fresh.
  destruct (process_updated_loop_keeps _ _ _ _ _ _ P) as [EF EN].
  change (folder_labels (process_new_files (process_new_folders m)))
    with (folder_labels (process_new_folders m)) in EF.
  cbn [generate_summary_report folders_of files_of updates_of].
  rewrite EF, EN, EU.
  rewrite (folder_labels_in_scan_order m) by exact F0.
  rewrite (file_labels_in_sorted_order (process_new_folders m)) by exact N0.
  change (new_files (process_new_folders m)) with (new_files m).
  change (updated_files (process_new_files (process_new_folders m)))
    with (updated_files m).
  rewrite !numbered_paths, !numbered_keys.
  rewrite (Permutation_length (new_files_order_permutation (new_files m))).
  rewrite sorted_length.
  unfold Dict.unique. rewrite !numbered_keys.
  repeat split; try apply labels_distinct.
  apply new_files_order_permutation.
Qed.

End RegistryTheorem.

Section StringOrder.

Lemma ascii_compare_eq c1 c2 : Ascii.compare c1 c2 = Eq -> c1 = c2.
Proof.
  unfold Ascii.compare. intros H. apply N.compare_eq in H.
  rewrite <- (ascii_N_embedding c1), <- (ascii_N_embedding c2). now rewrite H.
Qed.

Lemma ascii_compare_lt_trans c1 c2 c3 :
  Ascii.compare c1 c2 = Lt -> Ascii.compare c2 c3 = Lt ->
  Ascii.compare c1 c3 = Lt.
Proof.
  unfold Ascii.compare. rewrite !N.compare_lt_iff. apply N.lt_trans.
Qed.

Lemma string_leb_trans (a b c : string) :
  String.leb a b = true -> String.leb b c = true -> String.leb a c = true.
Proof.
  unfold String.leb. revert b c.
  induction a as [|c1 a IH]; intros [|c2 b] [|c3 c]; cbn [String.compare];
    try discriminate; try reflexivity.
  destruct (Ascii.compare c1 c2) eqn:E12; try discriminate.
  - apply ascii_compare_eq in E12 as ->.
    destruct (Ascii.compare c2 c3); try discriminate; [apply IH|reflexivity].
  - intros _. destruct (Ascii.compare c2 c3) eqn:E23; try discriminate.
    + apply ascii_compare_eq in E23 as <-. now rewrite E12.
    + now rewrite (ascii_compare_lt_trans _ _ _ E12 E23).
Qed.

Lemma string_leb_neq_ltb (a b : string) :
  String.leb a b = true -> a <> b -> String.ltb a b = true.
Proof.
  unfold String.leb, String.ltb. destruct (String.compare a b) eqn:E;
    try discriminate; [|reflexivity].
  apply String.compare_eq_iff in E. congruence.
Qed.

Lemma sorted_strongly l :
  StronglySorted (fun a b => String.leb a b = true) (Py.sorted l).
Proof.
  apply Sorted_StronglySorted; [|apply sorted_is_sorted].
  intros a b c. apply string_leb_trans.
Qed.

End StringOrder.

Section OrderOfNewFiles.
Import Sync.

Lemma in_set {V : Type} k (v : V) d x :
  In x (Dict.set k v d) -> x = (k, v) \/ In x d.
Proof.
  induction d as [|[k' v'] d IH]; cbn [Dict.set].
  - intros [<-|[]]. now left.
  - destruct (String.eqb k k'); cbn [In].
    + intros [<-|H]; auto.
    + intros [<-|H]; auto. apply IH in H. tauto.
Qed.

Lemma group_step_grouped d p : grouped d -> grouped (group_step d p).
Proof.
  intros G. unfold group_step. set (k := Path.parent p).
  assert (grouped (if negb (Dict.contains k d) then Dict.set k [] d else d))
    as G1.
  { destruct (negb (Dict.contains k d)); [|exact G].
    intros k' fs q Hi Hq. apply in_set in Hi as [[= -> ->]|Hi];
      [contradiction|]. now apply (G k' fs). }
  set (d1 := if negb (Dict.contains k d) then Dict.set k [] d else d) in *.
  destruct (Dict.get k d1) as [fs|] eqn:E; [|exact G1].
  intros k' fs' q Hi Hq. apply in_set in Hi as [[= -> ->]|Hi].
  - apply in_app_iff in Hq as [Hq|[<-|[]]]; [|reflexivity].
    apply (G1 k fs); [now apply get_in|exact Hq].
  - now apply (G1 k' fs').
Qed.

Lemma group_loop_grouped paths : forall d,
  grouped d -> grouped (fold_left group_step paths d).
Proof.
  induction paths as [|p paths IH]; intros d G; cbn [fold_left]; [exact G|].
  apply IH. now apply group_step_grouped.
Qed.

Lemma strongly_sorted_app {A : Type} (R : A -> A -> Prop) l1 l2 :
  StronglySorted R l1 -> StronglySorted R l2 ->
  (forall x y, In x l1 -> In y l2 -> R x y) ->
  StronglySorted R (l1 ++ l2).
Proof.
  induction l1 as [|x l1 IH]; intros S1 S2 H; cbn [app]; [exact S2|].
  apply StronglySorted_inv in S1 as [S1 F]. constructor.
  - apply IH; [assumption..|]. intros a b Ha Hb. apply H; [now right|exact Hb].
  - apply Forall_app. split; [exact F|].
    apply Forall_forall. intros y Hy. apply H; [now left|exact Hy].
Qed.

Lemma blocks_sorted (d : Dict.t (list string)) : forall ks,
  grouped d ->
  StronglySorted (fun a b => String.ltb a b = true) ks ->
  StronglySorted dir_then_path
    (flat_map
       (fun k => match Dict.get k d with Some fs => Py.sorted fs | None => [] end)
       ks).
Proof.
  intros ks G. induction ks as [|k ks IH]; intros S; cbn [flat_map];
    [constructor|].
  apply StronglySorted_inv in S as [S F].
  assert (forall q,
            In q match Dict.get k d with Some fs => Py.sorted fs | None => [] end ->
            Path.parent q = k) as Here.
  { intros q Hq. destruct (Dict.get k d) as [fs|] eqn:E; [|contradiction].
    apply (G k fs); [now apply get_in|].
    apply (Permutation_in _ (Permutation_sym (sorted_permutation fs))), Hq. }
  apply strongly_sorted_app; [|now apply IH|].
  - destruct (Dict.get k d) as [fs|] eqn:E; [|constructor].
    pose proof (sorted_strongly fs) as SS.
    assert (forall q, In q (Py.sorted fs) -> Path.parent q = k) as Par
      by exact Here.
    clear Here. induction SS as [|q l SS IHs Fq]; constructor.
    + apply IHs. intros x Hx. apply Par. now right.
    + rewrite Forall_forall in Fq |- *. intros y Hy. right. split.
      * rewrite (Par q) by now left. symmetry. apply Par. now right.
      * now apply Fq.
  - intros x y Hx Hy. left. rewrite (Here x Hx).
    apply in_flat_map in Hy as (k' & Hk' & Hy).
    rewrite Forall_forall in F.
    destruct (Dict.get k' d) as [fs'|] eqn:E'; [|contradiction].
    rewrite (G k' fs' y); [now apply F|now apply get_in|].
    apply (Permutation_in _ (Permutation_sym (sorted_permutation fs'))), Hy.
Qed.

Lemma sorted_keys_strictly (ks : list string) :
  NoDup ks ->
  StronglySorted (fun a b => String.ltb a b = true) (Py.sorted ks).
Proof.
  intros ND.
  assert (NoDup (Py.sorted ks)) as ND'
    by (apply (Permutation_NoDup (sorted_permutation ks)), ND).
  pose proof (sorted_strongly ks) as SS.
  induction SS as [|k l SS IH F]; constructor.
  - apply IH. now inversion ND'.
  - rewrite Forall_forall in F |- *. intros y Hy.
    apply string_leb_neq_ltb; [now apply F|].
    intros ->. inversion ND'; subst. contradiction.
Qed.

Lemma new_files_order_sorted paths :
  StronglySorted dir_then_path (new_files_order paths).
Proof.
  unfold new_files_order. change (group_by_dir paths)
    with (fold_left group_step paths []).
  destruct (group_loop_spec paths [] eq_refl) as [U _].
  apply blocks_sorted.
  - apply group_loop_grouped. intros k fs p [].
  - apply sorted_keys_strictly. now apply distinct_NoDup.
Qed.

(** X7. The new files are labelled directory by directory.  On a fresh
    registry the paths under [N001], [N002], ... are the new files, each
    once, ordered by their directory first and by their path within a
    directory, which need not be the sorted order of the paths. *)
Theorem new_files_are_labelled_directory_by_directory (m : manager) :
  file_labels m = [] ->
  let paths := map snd (file_labels (process_new_files m)) in
  Permutation paths (new_files m)
  /\ StronglySorted dir_then_path paths
  /\ Dict.keys (file_labels (process_new_files m))
     = map (label "N") (seq 1 (List.length (new_files m))).
Proof.
  intros E paths. unfold paths.
  rewrite (file_labels_in_sorted_order m E), numbered_paths, numbered_keys.
  rewrite (Permutation_length (new_files_order_permutation (new_files m))).
  repeat split.
  - apply new_files_order_permutation.
  - apply new_files_order_sorted.
Qed.

End OrderOfNewFiles.

Section DecimalFacts.

Lemma to_uint_not_nil n : Nat.to_uint n <> Decimal.Nil.
Proof.
  intros H. pose proof (DecimalNat.Unsigned.of_to n) as E.
  rewrite H in E. cbn in E. subst n. discriminate.
Qed.

Lemma span_digits_uint d rest :
  match rest with
  | EmptyString => True
  | String c _ => Py.isdigit c = false
  end ->
  Review.span_digits (NilEmpty.string_of_uint d ++ rest)
  = (NilEmpty.string_of_uint d, rest).
Proof.
  intros R. induction d; cbn [NilEmpty.string_of_uint append];
    try (cbn [Review.span_digits]; rewrite IHd; reflexivity).
  destruct rest as [|c r]; [reflexivity|]. cbn. now rewrite R.
Qed.

Lemma string_of_uint_not_empty d :
  d <> Decimal.Nil -> NilEmpty.string_of_uint d <> EmptyString.
Proof. destruct d; cbn; congruence. Qed.

(** The parser reads a printed number back, up to the next character that
    is no digit. *)
Lemma number_str_of_nat n rest :
  match rest with
  | EmptyString => True
  | String c _ => Py.isdigit c = false
  end ->
  Review.number (Py.str_of_nat n ++ rest) = Some (n, rest).
Proof.
  intros R. unfold Review.number, Py.str_of_nat.
  rewrite span_digits_uint by assumption.
  pose proof (string_of_uint_not_empty _ (to_uint_not_nil n)) as NE.
  destruct (NilEmpty.string_of_uint (Nat.to_uint n)) as [|c s] eqn:E;
    [congruence|].
  rewrite <- E, int_of_digits_uint.
  change (Nat.of_uint_acc (Nat.to_uint n) 0) with (Nat.of_uint (Nat.to_uint n)).
  now rewrite DecimalNat.Unsigned.of_to.
Qed.

End DecimalFacts.

Section HeaderFacts.

Lemma append_assoc (s1 s2 s3 : string) : (s1 ++ s2) ++ s3 = s1 ++ (s2 ++ s3).
Proof. induction s1 as [|c s1 IH]; cbn; [reflexivity|now rewrite IH]. Qed.

(** What the parser makes of a printed range that is followed by a
    space: with the count it reads the two numbers, without it (a range
    of one line) it finds no comma. *)
Lemma read_range {A : Type} start stop rest
    (k : nat * string -> nat * string -> option A) :
  Review.obind
    (Review.number (Difflib._format_range_unified start stop ++ " " ++ rest))
    (fun g1 =>
       Review.obind (FS.strip_prefix "," (snd g1))
         (fun s => Review.obind (Review.number s) (fun g2 => k g1 g2)))
  = if (stop - start =? 1)%nat then None
    else k (printed_start start stop,
            "," ++ Py.str_of_nat (stop - start) ++ " " ++ rest)
           (stop - start, " " ++ rest).
Proof.
  unfold Difflib._format_range_unified, printed_start.
  destruct (stop - start =? 1)%nat eqn:E1.
  - rewrite number_str_of_nat by reflexivity. reflexivity.
  - rewrite !append_assoc. rewrite number_str_of_nat by reflexivity.
    cbn [Review.obind snd fst FS.strip_prefix append Ascii.eqb Bool.eqb].
    rewrite number_str_of_nat by reflexivity.
    cbn [Review.obind snd fst].
    destruct (stop - start =? 0)%nat eqn:E0; [|reflexivity].
    replace (start + 1 - 1) with start by lia. reflexivity.
Qed.

End HeaderFacts.

Section HeaderTheorem.

Lemma header_read (g : Difflib.group) :
  let first := hd Difflib.no_opcode g in
  let last := List.last g Difflib.no_opcode in
  Review.match_header (header_line g)
  = if prints_counts g
    then Some (printed_start (Difflib.i1 first) (Difflib.i2 last),
               Difflib.i2 last - Difflib.i1 first,
               printed_start (Difflib.j1 first) (Difflib.j2 last),
               Difflib.j2 last - Difflib.j1 first,
               EmptyString)
    else None.
Proof.
  intros first last. unfold Review.match_header, header_line, prints_counts.
  fold first last.
  set (r1 := Difflib._format_range_unified (Difflib.i1 first) (Difflib.i2 last)).
  set (r2 := Difflib._format_range_unified (Difflib.j1 first) (Difflib.j2 last)).
  change (FS.strip_prefix "@@ -" ("@@ -" ++ r1 ++ " +" ++ r2 ++ " @@" ++ LF))
    with (Some (r1 ++ " " ++ "+" ++ r2 ++ " @@" ++ LF)).
  cbn [Review.obind]. subst r1. rewrite read_range.
  destruct (Difflib.i2 last - Difflib.i1 first =? 1)%nat; [reflexivity|].
  cbn [negb andb snd fst].
  change (FS.strip_prefix " +" (" " ++ "+" ++ r2 ++ " @@" ++ LF))
    with (Some (r2 ++ " " ++ "@@" ++ LF)).
  cbn [Review.obind]. subst r2. rewrite read_range.
  destruct (Difflib.j2 last - Difflib.j1 first =? 1)%nat; reflexivity.
Qed.

End HeaderTheorem.

Section ParserFacts.
Import Review.




Lemma update_Forall {A : Type} (P : A -> Prop) (l : list A) i (f : A -> A) :
  (forall x, P x -> P (f x)) -> Forall P l -> Forall P (update l i f).
Proof.
  intros Hf. revert i. induction l as [|y l IH]; intros [|i] H; cbn;
    try assumption; inversion H; subst; constructor; auto.
Qed.

Lemma count_marked_app m mmm l1 l2 :
  Sync.count_marked m mmm (l1 ++ l2)
  = Sync.count_marked m mmm l1 + Sync.count_marked m mmm l2.
Proof. unfold Sync.count_marked. now rewrite filter_app, length_app. Qed.

Lemma startswith_plus_minus line :
  Py.startswith line "+" = true -> Py.startswith line "-" = false.
Proof.
  unfold Py.startswith. destruct line as [|c s]; cbn [String.prefix];
    [discriminate|].
  destruct (Ascii.ascii_dec "+" c) as [<-|N]; [reflexivity|discriminate].
Qed.

Lemma add_line_spec line h :
  add_line line h
  = Hunk (header h) (old_start h) (old_count h) (new_start h) (new_count h)
      (context h) (lines h ++ [line])
      (added h + Sync.count_marked "+" "+++" [line])
      (removed h + Sync.count_marked "-" "---" [line]).
Proof.
  unfold add_line, Sync.count_marked. cbn [filter lines added removed header
    old_start old_count new_start new_count context].
  destruct (Py.startswith line "+") eqn:P.
  - rewrite (startswith_plus_minus _ P). cbn [andb].
    destruct (Py.startswith line "+++"); cbn [negb List.length];
      now rewrite ?Nat.add_0_r.
  - cbn [andb]. destruct (Py.startswith line "-" && negb (Py.startswith line "---"));
      cbn [List.length]; now rewrite ?Nat.add_0_r.
Qed.



End ParserFacts.

Section PrintedDiffs.
Import Review.
Variables a b : list string.









End PrintedDiffs.

Section RoundTripFacts.
Import Review.




Lemma startswith_mark c l :
  Py.startswith (String c l) (String c EmptyString) = true.
Proof.
  unfold Py.startswith. cbn [String.prefix].
  destruct (Ascii.ascii_dec c c); [now destruct l|congruence].
Qed.












Lemma slice_index_nat len n :
  Py.slice_index len (Z.of_nat n) = Nat.min n len.
Proof.
  unfold Py.slice_index.
  assert ((Z.of_nat n <? 0)%Z = false) as E by (apply Z.ltb_ge; lia).
  rewrite E. cbv beta iota zeta. rewrite E.
  destruct (Z.ltb_spec (Z.of_nat len) (Z.of_nat n)); [lia|].
  rewrite Nat2Z.id. lia.
Qed.

Lemma firstn_min {A : Type} (l : list A) n :
  firstn (Nat.min n (List.length l)) l = firstn n l.
Proof.
  destruct (Nat.le_gt_cases n (List.length l)).
  - f_equal. lia.
  - replace (Nat.min n (List.length l)) with (List.length l) by lia.
    rewrite firstn_all. symmetry. apply firstn_all2. lia.
Qed.

Lemma skipn_min {A : Type} (l : list A) n :
  skipn (Nat.min n (List.length l)) l = skipn n l.
Proof.
  destruct (Nat.le_gt_cases n (List.length l)).
  - f_equal. lia.
  - replace (Nat.min n (List.length l)) with (List.length l) by lia.
    rewrite skipn_all. symmetry. apply skipn_all2. lia.
Qed.


(** The slice assignment between two lines of the list. *)
Lemma slice_assign_nat {A : Type} (l new : list A) s e :
  s <= e ->
  Py.slice_assign l (Z.of_nat s) (Z.of_nat e) new
  = (firstn s l ++ new ++ skipn e l)%list.
Proof.
  intros H. unfold Py.slice_assign. rewrite !slice_index_nat.
  rewrite firstn_min.
  replace (Nat.max (Nat.min s (List.length l)) (Nat.min e (List.length l)))
    with (Nat.min e (List.length l)) by lia.
  now rewrite skipn_min.
Qed.

End RoundTripFacts.

Section ParserTheorems.
Import Review.

Lemma add_line_counted line h : counted h -> counted (add_line line h).
Proof.
  intros [A R]. rewrite add_line_spec. unfold counted.
  cbn [added removed lines]. rewrite !count_marked_app. now rewrite A, R.
Qed.

Lemma parse_line_counted st line :
  Forall counted (heap st) -> Forall counted (heap (parse_line st line)).
Proof.
  intros H. unfold parse_line.
  destruct (Py.startswith line "@@").
  - destruct (match_header line) as [[[[[g1 g2] g3] g4] g5]|]; cbn [heap];
      [|assumption].
    apply Forall_app. split; [assumption|]. repeat constructor.
  - destruct (current_hunk st); cbn [heap]; [|assumption].
    apply update_Forall; [apply add_line_counted|assumption].
Qed.

Lemma parse_counted ls : forall st,
  Forall counted (heap st) -> Forall counted (heap (fold_left parse_line ls st)).
Proof.
  induction ls as [|l ls IH]; intros st H; cbn [fold_left]; [assumption|].
  apply IH. now apply parse_line_counted.
Qed.

(** X8. The counters of every hunk the parser returns are the numbers of
    the lines of the hunk that are marked as added and as removed, for
    any text at all. *)
Theorem parsed_hunks_count_their_marked_lines (diff_lines : list string) :
  Forall
    (fun h =>
       added h = Sync.count_marked "+" "+++" (lines h)
       /\ removed h = Sync.count_marked "-" "---" (lines h))
    (_parse_diff_file diff_lines).
Proof.
  unfold _parse_diff_file.
  pose proof (parse_counted diff_lines (Parser [] [] None) (Forall_nil _)) as H.
  set (st := fold_left parse_line diff_lines (Parser [] [] None)) in *.
  apply Forall_map, Forall_forall. intros ref _.
  destruct (Nat.lt_ge_cases ref (List.length (heap st))) as [L|L].
  - rewrite Forall_forall in H. apply H, nth_In, L.
  - rewrite nth_overflow by assumption. split; reflexivity.
Qed.

Lemma parse_line_places st line ref :
  current_hunk st = Some ref ->
  (exists ref', current_hunk (parse_line st line) = Some ref')
  /\ places (parse_line st line)
     = places st + header_lines [line].
Proof.
  destruct st as [hp hs c]. cbn [current_hunk]. intros ->.
  unfold parse_line, places, header_lines. cbn [filter current_hunk hunks heap].
  destruct (Py.startswith line "@@").
  - destruct (match_header line) as [[[[[g1 g2] g3] g4] g5]|];
      cbn [current_hunk hunks List.length]; rewrite length_app;
      cbn [List.length]; split; eauto; lia.
  - cbn [current_hunk hunks List.length]. split; eauto; lia.
Qed.

Lemma parse_places ls : forall st ref,
  current_hunk st = Some ref ->
  places (fold_left parse_line ls st) = places st + header_lines ls.
Proof.
  induction ls as [|l ls IH]; intros st ref C; cbn [fold_left].
  - unfold header_lines. cbn. lia.
  - destruct (parse_line_places st l ref C) as [[ref' C'] P].
    rewrite (IH _ _ C'), P. unfold header_lines. cbn [filter].
    destruct (Py.startswith l "@@"); cbn [List.length]; lia.
Qed.

Lemma parse_places_from_start ls :
  places (fold_left parse_line ls (Parser [] [] None))
  = header_lines (from_first_header ls).
Proof.
  induction ls as [|l ls IH]; [reflexivity|].
  cbn [fold_left from_first_header]. unfold parse_line at 2.
  destruct (Py.startswith l "@@") eqn:S; cbn [current_hunk hunks heap];
    [|exact IH].
  destruct (match_header l) as [[[[[g1 g2] g3] g4] g5]|]; [|exact IH].
  erewrite parse_places by reflexivity.
  unfold places, header_lines. cbn [hunks current_hunk List.length filter].
  rewrite S. cbn [List.length]. lia.
Qed.

(** X9. The parser returns as many hunks as there are header lines from
    the first header it can read on: before that header nothing counts,
    after it every line that starts with two at-signs stands for a hunk,
    readable or not. *)
Theorem parser_counts_the_headers_after_the_first_it_reads
    (diff_lines : list string) :
  List.length (_parse_diff_file diff_lines)
  = header_lines (from_first_header diff_lines).
Proof.
  unfold _parse_diff_file. rewrite length_map.
  rewrite <- parse_places_from_start. unfold places.
  destruct (current_hunk _); rewrite ?length_app; cbn [List.length]; lia.
Qed.

(** X10. The parser reads the header of a group exactly when the generator
    has printed both counts, that is when neither range of the group has
    one line; the four numbers are then the ones printed, and the context
    is empty. *)
Theorem header_is_read_iff_both_counts_are_printed (g : Difflib.group) :
  let first := hd Difflib.no_opcode g in
  let last := List.last g Difflib.no_opcode in
  let old_lines := Difflib.i2 last - Difflib.i1 first in
  let new_lines := Difflib.j2 last - Difflib.j1 first in
  (old_lines <> 1 /\ new_lines <> 1 ->
   match_header (header_line g)
   = Some (printed_start (Difflib.i1 first) (Difflib.i2 last), old_lines,
           printed_start (Difflib.j1 first) (Difflib.j2 last), new_lines,
           EmptyString))
  /\ (old_lines = 1 \/ new_lines = 1 -> match_header (header_line g) = None).
Proof.
  intros first last old_lines new_lines. rewrite header_read.
  unfold prints_counts. fold first last. fold old_lines new_lines.
  split.
  - intros [O N]. apply Nat.eqb_neq in O, N. now rewrite O, N.
  - intros [O|N].
    + apply Nat.eqb_eq in O. now rewrite O.
    + apply Nat.eqb_eq in N. rewrite N. now destruct (old_lines =? 1)%nat.
Qed.



Lemma slice_index_minus_one len :
  Py.slice_index len (-1) = len - 1.
Proof.
  unfold Py.slice_index. cbv beta iota zeta.
  change (-1 <? 0)%Z with true. cbv iota.
  destruct (Z.ltb_spec (-1 + Z.of_nat len) 0).
  - lia.
  - destruct (Z.ltb_spec (Z.of_nat len) (-1 + Z.of_nat len)); lia.
Qed.

(** X13. A hunk replaces its old range wherever it falls.  Applying a hunk
    checks nothing and never fails: the lines from [old_start] on,
    [old_count] of them or as many as the file has left, are replaced by
    the new content of the hunk, whatever these lines hold, and a hunk
    that starts behind the end of the file is appended to it.  A hunk
    for an old file that was empty, which starts at line 0 and has no
    old lines, goes before the last line of the file it is applied
    to. *)
Theorem a_hunk_replaces_its_old_range_wherever_it_falls
    (h : hunk) (original_lines : list string) :
  (1 <= old_start h ->
   _apply_hunk h original_lines
   = (firstn (old_start h - 1) original_lines ++ new_content h
      ++ skipn (old_start h - 1 + old_count h) original_lines)%list)
  /\ (old_start h = 0 -> old_count h = 0 ->
      _apply_hunk h original_lines
      = (firstn (List.length original_lines - 1) original_lines
         ++ new_content h
         ++ skipn (List.length original_lines - 1) original_lines)%list).
Proof.
  unfold _apply_hunk. split.
  - intros L.
    replace (Z.of_nat (old_start h) - 1)%Z with (Z.of_nat (old_start h - 1))
      by lia.
    rewrite <- Nat2Z.inj_add. apply slice_assign_nat. lia.
  - intros -> ->. cbn [Z.of_nat Z.sub Z.add Z.opp Z.pos_sub].
    unfold Py.slice_assign. rewrite slice_index_minus_one.
    now rewrite Nat.max_id.
Qed.

End ParserTheorems.

Section StatisticsFacts.

Lemma count_marked_nil m mmm ls :
  (forall l, In l ls -> Py.startswith l m && negb (Py.startswith l mmm) = false) ->
  Sync.count_marked m mmm ls = 0.
Proof.
  intros H. unfold Sync.count_marked. now rewrite filter_none.
Qed.

Lemma count_removed_marked ls :
  Sync.count_marked "-" "---" (Difflib.marked "-" ls) = text_lines "--" ls.
Proof.
  unfold Sync.count_marked, text_lines, Difflib.marked.
  induction ls as [|l ls IH]; [reflexivity|]. cbn [map filter].
  change (Py.startswith ("-" ++ l) "---") with (Py.startswith l "--").
  rewrite (startswith_mark "-" l : Py.startswith ("-" ++ l) "-" = true).
  cbn [andb].
  destruct (negb (Py.startswith l "--")); cbn [List.length]; now rewrite IH.
Qed.

Lemma count_added_marked ls :
  Sync.count_marked "+" "+++" (Difflib.marked "+" ls) = text_lines "++" ls.
Proof.
  unfold Sync.count_marked, text_lines, Difflib.marked.
  induction ls as [|l ls IH]; [reflexivity|]. cbn [map filter].
  change (Py.startswith ("+" ++ l) "+++") with (Py.startswith l "++").
  rewrite (startswith_mark "+" l : Py.startswith ("+" ++ l) "+" = true).
  cbn [andb].
  destruct (negb (Py.startswith l "++")); cbn [List.length]; now rewrite IH.
Qed.

Lemma count_marked_cons m mmm l ls :
  Sync.count_marked m mmm (l :: ls)
  = Sync.count_marked m mmm [l] + Sync.count_marked m mmm ls.
Proof. apply (count_marked_app m mmm [l] ls). Qed.

Lemma count_marked_body m mmm a b g :
  Sync.count_marked m mmm (body a b g)
  = list_sum (map (fun o => Sync.count_marked m mmm (Difflib.opcode_lines a b o)) g).
Proof.
  unfold body. induction g as [|o g IH]; [reflexivity|].
  cbn [flat_map map]. rewrite count_marked_app, IH. reflexivity.
Qed.

Lemma count_added_opcode a b o :
  Sync.count_marked "+" "+++" (Difflib.opcode_lines a b o) = added_by b o.
Proof.
  unfold Difflib.opcode_lines, added_by.
  destruct (Difflib.op o); rewrite ?count_marked_app, ?count_added_marked;
    try reflexivity.
  - apply count_marked_nil. intros l Hl. apply in_map_iff in Hl as (x & <- & _).
    reflexivity.
  - rewrite count_marked_nil; [reflexivity|]. intros l Hl.
    apply in_map_iff in Hl as (x & <- & _). reflexivity.
  - apply count_marked_nil. intros l Hl. apply in_map_iff in Hl as (x & <- & _).
    reflexivity.
Qed.

Lemma count_removed_opcode a b o :
  Sync.count_marked "-" "---" (Difflib.opcode_lines a b o) = removed_by a o.
Proof.
  unfold Difflib.opcode_lines, removed_by.
  destruct (Difflib.op o); rewrite ?count_marked_app, ?count_removed_marked;
    try reflexivity.
  - apply count_marked_nil. intros l Hl. apply in_map_iff in Hl as (x & <- & _).
    reflexivity.
  - rewrite (count_marked_nil _ _ (Difflib.marked "+" _)); [lia|]. intros l Hl.
    apply in_map_iff in Hl as (x & <- & _). reflexivity.
  - apply count_marked_nil. intros l Hl. apply in_map_iff in Hl as (x & <- & _).
    reflexivity.
Qed.

(** The marked lines of a diff are the marked lines of its groups: the
    two lines that name the files and the headers of the hunks are not
    counted. *)
Lemma count_marked_unified_diff m mmm gs a b fromfile tofile :
  (m = "+" /\ mmm = "+++") \/ (m = "-" /\ mmm = "---") ->
  Sync.count_marked m mmm (Difflib.unified_diff gs a b fromfile tofile)
  = list_sum (map (fun g => Sync.count_marked m mmm (body a b g)) gs).
Proof.
  intros M. unfold Difflib.unified_diff. destruct gs as [|g0 gs0]; [reflexivity|].
  set (gs := g0 :: gs0).
  rewrite count_marked_cons, (count_marked_cons _ _ ("+++ " ++ tofile ++ LF)).
  assert (Sync.count_marked m mmm ["--- " ++ fromfile ++ LF] = 0) as ->
    by (destruct M as [[-> ->]|[-> ->]]; reflexivity).
  assert (Sync.count_marked m mmm ["+++ " ++ tofile ++ LF] = 0) as ->
    by (destruct M as [[-> ->]|[-> ->]]; reflexivity).
  cbn [Nat.add]. clearbody gs. clear g0 gs0.
  induction gs as [|g gs IH]; [reflexivity|].
  cbn [flat_map map].
  change (list_sum (?x :: ?l)) with (x + list_sum l).
  rewrite count_marked_app, IH. f_equal.
  change (Difflib.group_lines a b g) with (header_line g :: body a b g).
  rewrite count_marked_cons.
  assert (Sync.count_marked m mmm [header_line g] = 0) as ->
    by (destruct M as [[-> ->]|[-> ->]]; reflexivity).
  reflexivity.
Qed.

Lemma sum_over_groups (f : Difflib.opcode -> nat)
    (c : Difflib.group -> nat) (gs : list Difflib.group) :
  (forall g, c g = list_sum (map f g)) ->
  list_sum (map c gs) = list_sum (map f (concat gs)).
Proof.
  intros H. induction gs as [|g gs IH]; [reflexivity|].
  cbn [map concat].
  change (list_sum (c g :: map c gs)) with (c g + list_sum (map c gs)).
  now rewrite map_app, list_sum_app, IH, H.
Qed.

End StatisticsFacts.

Section StatisticsTheorems.
Import Sync.

(** X14. What the statistics of a diff count.  For two files that can be
    read, [Lines Added] is the number of lines of the inserting and
    replacing opcodes whose text does not begin with two plus signs, and
    [Lines Removed] the number of lines of the deleting and replacing
    opcodes whose text does not begin with two minus signs: the lines
    that name the files and the hunk headers are not counted, and
    neither is a changed line of that kind. *)
Theorem statistics_count_the_changed_lines
    (get_grouped_opcodes : list string -> list string -> list Difflib.group)
    (fs : FS.t) (old_file new_file diff_file : string)
    (a b : list string) :
  read_both fs old_file new_file = Ok (a, b) ->
  let ops := concat (get_grouped_opcodes a b) in
  snd (_create_diff_file get_grouped_opcodes fs old_file new_file diff_file)
  = Stats (list_sum (map (added_by b) ops))
      (list_sum (map (removed_by a) ops)).
Proof.
  intros R ops. unfold _create_diff_file. rewrite R. cbn [snd].
  rewrite !count_marked_unified_diff by tauto.
  unfold ops. f_equal; apply sum_over_groups; intros g;
    rewrite count_marked_body; f_equal; apply map_ext; intros o.
  - apply count_added_opcode.
  - apply count_removed_opcode.
Qed.


End StatisticsTheorems.

Section ReviewLoopFacts.
Import Review.

Lemma ask_suffix inputs :
  exists used, inputs = (used ++ snd (ask inputs))%list.
Proof.
  induction inputs as [|typed rest [used IH]]; cbn [ask].
  - now exists [].
  - destruct (choice_of typed =? "a"); [now exists [typed]|].
    destruct (choice_of typed =? "r"); [now exists [typed]|].
    destruct (choice_of typed =? "s"); [now exists [typed]|].
    destruct (choice_of typed =? "v");
      [exists (typed :: used); cbn [app]; now f_equal|].
    destruct (choice_of typed =? "q"); [now exists [typed]|].
    exists (typed :: used). cbn [app]. now f_equal.
Qed.

Lemma review_hunks_suffix hunks : forall inputs a0 r0,
  exists used, inputs = (used ++ snd (review_hunks hunks inputs a0 r0))%list.
Proof.
  induction hunks as [|h hunks IH]; intros inputs a0 r0; cbn [review_hunks].
  - now exists [].
  - destruct (ask_suffix inputs) as [used E].
    destruct (ask inputs) as [[v|e] rest]; cbn [snd] in E.
    + destruct v.
      * destruct (IH rest (a0 ++ [h])%list r0) as [used' E'].
        exists (used ++ used')%list. rewrite <- app_assoc. congruence.
      * destruct (IH rest a0 (r0 ++ [h])%list) as [used' E'].
        exists (used ++ used')%list. rewrite <- app_assoc. congruence.
      * destruct (IH rest a0 r0) as [used' E'].
        exists (used ++ used')%list. rewrite <- app_assoc. congruence.
      * now exists used.
    + now exists used.
Qed.

Lemma review_hunks_lengths hunks : forall inputs a0 r0 a rj rest,
  review_hunks hunks inputs a0 r0 = (Ok (visited a rj), rest) ->
  List.length a + List.length rj
  <= List.length a0 + List.length r0 + List.length hunks.
Proof.
  induction hunks as [|h hunks IH]; intros inputs a0 r0 a rj rest;
    cbn [review_hunks].
  - intros [= <- <- _]. cbn [List.length]. lia.
  - destruct (ask inputs) as [[v|e] rest0]; [|discriminate].
    destruct v; [| | |discriminate]; intros H; apply IH in H;
      rewrite ?length_app in H; cbn [List.length] in *; lia.
Qed.

End ReviewLoopFacts.

Section ReviewTheorems.
Import Review.

(** X16. A review changes nothing unless every hunk was visited.  Whatever
    is typed, [review_file] never touches a file other than the decisions
    file, reads the typed lines from the front, and either returns
    [reviewed] with the decisions written to the file, or leaves the
    reviewer as it was: an unknown label, a missing preview file, a diff
    without hunks, the end of the input and [q] all drop the answers
    given so far. *)
Theorem review_changes_nothing_unless_all_hunks_are_visited
    (r : reviewer) (label now : string) (inputs : list string) :
  let '(res, r', rest) := review_file r label now inputs in
  fs r' = fs r /\ tracking_data r' = tracking_data r
  /\ (exists used, inputs = (used ++ rest)%list)
  /\ ((exists a rj hs,
         res = Ok (reviewed a rj hs)
         /\ decisions_file r' = Some (decisions r'))
      \/ (r' = r /\ forall a rj hs, res <> Ok (reviewed a rj hs))).
Proof.
  unfold review_file.
  destruct (Dict.get label (updates r)) as [path|].
  2:{ repeat split; [now exists []|]. right. split; [reflexivity|discriminate]. }
  destruct (open_preview r label) as [diff_lines|e].
  2:{ repeat split; [now exists []|]. right. split; [reflexivity|discriminate]. }
  destruct (_parse_diff_file diff_lines) as [|h hs] eqn:P.
  { repeat split; [now exists []|]. right. split; [reflexivity|discriminate]. }
  destruct (review_hunks_suffix (h :: hs) inputs [] []) as [used E].
  destruct (review_hunks (h :: hs) inputs [] []) as [[[a rj|]|e] rest];
    cbn [snd] in E.
  - repeat split; [now exists used|]. left. exists a, rj, (h :: hs). auto.
  - repeat split; [now exists used|]. right. split; [reflexivity|discriminate].
  - repeat split; [now exists used|]. right. split; [reflexivity|discriminate].
Qed.

(** X17. A review leaves no unanimous entry behind.  After a review of a
    label that visited every hunk, the label is in the partial bucket
    only with counts that are mixed: the total is positive, the approved
    and the rejected hunks together are at most the total, and neither
    count is the total; otherwise the label has left the partial
    bucket. *)
Theorem review_leaves_no_unanimous_partial_entry
    (r r' : reviewer) (label now : string) (inputs rest : list string)
    (a rj hs : list hunk) :
  review_file r label now inputs = (Ok (reviewed a rj hs), r', rest) ->
  match Dict.get label (partial (decisions r')) with
  | Some (Entry e) =>
      (0 < total e)%Z
      /\ (0 <= approved_count e)%Z /\ (0 <= rejected_count e)%Z
      /\ (approved_count e + rejected_count e <= total e)%Z
      /\ approved_count e <> total e /\ rejected_count e <> total e
      /\ fate_of (Entry e) = stays
  | Some NotADict => False
  | None =>
      Dict.contains label (approved (decisions r')) = true
      \/ Dict.contains label (rejected (decisions r')) = true
  end.
Proof.
  unfold review_file.
  destruct (Dict.get label (updates r)) as [path|]; [|discriminate].
  destruct (open_preview r label) as [diff_lines|e]; [|discriminate].
  destruct (_parse_diff_file diff_lines) as [|h hs0] eqn:P; [discriminate|].
  destruct (review_hunks (h :: hs0) inputs [] []) as [[[a0 rj0|]|e] rest0]
    eqn:RH; try discriminate.
  intros [= <- <- <- <- _].
  apply review_hunks_lengths in RH. cbn [List.length] in RH.
  cbn [_save_decisions with_decisions decisions]. unfold record_review.
  destruct (List.length a0 =? List.length (h :: hs0))%nat eqn:EA.
  - cbn [partial approved]. rewrite remove_from_partial_get. left.
    unfold Dict.contains. now rewrite get_set_eq.
  - destruct (List.length rj0 =? List.length (h :: hs0))%nat eqn:ER.
    + cbn [partial rejected]. rewrite remove_from_partial_get. right.
      unfold Dict.contains. now rewrite get_set_eq.
    + cbn [partial]. rewrite get_set_eq.
      apply Nat.eqb_neq in EA, ER. cbn [List.length] in EA, ER.
      cbn [total approved_count rejected_count List.length].
      assert (Z.of_nat (List.length a0) <> Z.of_nat (S (List.length hs0)))
        as NA by lia.
      assert (Z.of_nat (List.length rj0) <> Z.of_nat (S (List.length hs0)))
        as NR by lia.
      repeat split; try lia.
      unfold fate_of. cbn [total approved_count rejected_count].
      apply Z.eqb_neq in NA, NR. now rewrite NA, NR.
Qed.

End ReviewTheorems.

Section StoreFacts.
Import Review.

Lemma keeps_labels_refl d : keeps_labels d d.
Proof. split; auto. Qed.

Lemma keeps_labels_trans d1 d2 d3 :
  keeps_labels d1 d2 -> keeps_labels d2 d3 -> keeps_labels d1 d3.
Proof. intros [A1 R1] [A2 R2]. split; auto. Qed.

Lemma contains_after_set {V : Type} k l (v : V) d :
  Dict.contains l d = true -> Dict.contains l (Dict.set k v d) = true.
Proof.
  unfold Dict.contains. destruct (String.eqb_spec k l) as [->|N].
  - now rewrite get_set_eq.
  - now rewrite get_set_neq.
Qed.

Lemma keeps_labels_set_approved d k v p :
  keeps_labels d (Decisions (Dict.set k v (approved d)) (rejected d) p).
Proof. split; cbn; intros l H; [now apply contains_after_set|exact H]. Qed.

Lemma keeps_labels_set_rejected d k v p :
  keeps_labels d (Decisions (approved d) (Dict.set k v (rejected d)) p).
Proof. split; cbn; intros l H; [exact H|now apply contains_after_set]. Qed.

Lemma keeps_labels_partial d p :
  keeps_labels d (Decisions (approved d) (rejected d) p).
Proof. split; cbn; auto. Qed.

Lemma record_review_keeps d label path now a rj hs :
  keeps_labels d (record_review d label path now a rj hs).
Proof.
  unfold record_review.
  destruct (_ =? _)%nat; [apply keeps_labels_set_approved|].
  destruct (_ =? _)%nat; [apply keeps_labels_set_rejected|].
  apply keeps_labels_partial.
Qed.

Lemma review_file_keeps r label now inputs :
  keeps_labels (decisions r)
    (decisions (snd (fst (review_file r label now inputs)))).
Proof.
  unfold review_file.
  destruct (Dict.get label (updates r)) as [path|]; [|apply keeps_labels_refl].
  destruct (open_preview r label) as [diff_lines|e]; [|apply keeps_labels_refl].
  destruct (_parse_diff_file diff_lines) as [|h hs]; [apply keeps_labels_refl|].
  destruct (review_hunks (h :: hs) inputs [] []) as [[[a rj|]|e] rest];
    try apply keeps_labels_refl.
  cbn [fst snd _save_decisions with_decisions decisions].
  apply record_review_keeps.
Qed.

Lemma include_keeps items : forall d,
  keeps_labels d (fold_left include_if_approved items d).
Proof.
  induction items as [|[l pv] items IH]; intros d; cbn [fold_left];
    [apply keeps_labels_refl|].
  eapply keeps_labels_trans; [|apply IH].
  unfold include_if_approved. destruct pv as [e|]; [|apply keeps_labels_refl].
  destruct (_ =? _)%Z; [apply keeps_labels_set_approved|apply keeps_labels_refl].
Qed.

Lemma apply_decisions_keeps r :
  keeps_labels (decisions r) (decisions (snd (apply_decisions r))).
Proof.
  destruct (apply_decisions_decisions r) as [-> _]. apply include_keeps.
Qed.

Lemma fix_step_keeps acc item :
  keeps_labels (fst acc) (fst (fix_step acc item)).
Proof.
  destruct acc as [d fixed], item as [l [e|]]; cbn [fix_step fst];
    [|apply keeps_labels_refl].
  destruct (_ && _)%bool; [apply keeps_labels_set_approved|].
  destruct (_ && _)%bool; [apply keeps_labels_set_rejected|].
  apply keeps_labels_refl.
Qed.

Lemma fix_loop_keeps items : forall acc,
  keeps_labels (fst acc) (fst (fold_left fix_step items acc)).
Proof.
  induction items as [|item items IH]; intros acc; cbn [fold_left];
    [apply keeps_labels_refl|].
  eapply keeps_labels_trans; [apply fix_step_keeps|apply IH].
Qed.

Lemma fix_decisions_keeps r :
  keeps_labels (decisions r) (decisions (fix_decisions r)).
Proof.
  unfold fix_decisions.
  pose proof (fix_loop_keeps (partial (decisions r)) (decisions r, false)) as K.
  destruct (fold_left fix_step _ _) as [d fixed]. cbn [fst] in K.
  now destruct fixed.
Qed.

Lemma show_final_summary_keeps r inputs :
  keeps_labels (decisions r)
    (decisions (snd (fst (_show_final_summary r inputs)))).
Proof.
  unfold _show_final_summary.
  destruct (Dict.truthy (approved (decisions r))); [|apply keeps_labels_refl].
  destruct inputs as [|typed rest]; [apply keeps_labels_refl|].
  destruct (choice_of typed =? "y"); [|apply keeps_labels_refl].
  pose proof (apply_decisions_keeps (_generate_apply_script r)) as K.
  destruct (apply_decisions (_generate_apply_script r)) as [res r'].
  exact K.
Qed.

Lemma quick_loop_keeps items : forall r now inputs,
  keeps_labels (decisions r)
    (decisions (snd (fst (quick_loop items r now inputs)))).
Proof.
  induction items as [|[label path] items IH]; intros r now inputs;
    cbn [quick_loop]; [apply keeps_labels_refl|].
  destruct (FS.exists_ (fs r) _); [|apply IH].
  destruct (read_summary (fs r) _); [|apply keeps_labels_refl].
  destruct inputs as [|typed rest]; [apply keeps_labels_refl|].
  destruct (choice_of typed =? "a").
  { eapply keeps_labels_trans; [|apply IH].
    apply keeps_labels_set_approved. }
  destruct (choice_of typed =? "r").
  { eapply keeps_labels_trans; [|apply IH].
    apply keeps_labels_set_rejected. }
  destruct (choice_of typed =? "v").
  { pose proof (review_file_keeps r label now rest) as K.
    destruct (review_file r label now rest) as [[[st|e] r'] rest'];
      cbn [fst snd] in K; [|exact K].
    eapply keeps_labels_trans; [exact K|apply IH]. }
  destruct (choice_of typed =? "q"); [|apply IH].
  pose proof (show_final_summary_keeps (_save_decisions r) rest) as K.
  destruct (_show_final_summary (_save_decisions r) rest) as [[[u|e] r'] rest'];
    exact K.
Qed.

Lemma quick_review_all_keeps r now inputs :
  keeps_labels (decisions r)
    (decisions (snd (fst (quick_review_all r now inputs)))).
Proof.
  unfold quick_review_all.
  destruct (updates r) as [|item items]; [apply keeps_labels_refl|].
  pose proof (quick_loop_keeps (item :: items) r now inputs) as K.
  destruct (quick_loop (item :: items) r now inputs) as [[[[|]|e] r'] rest];
    cbn [fst snd] in K; try exact K.
  eapply keeps_labels_trans; [exact K|].
  apply (show_final_summary_keeps (_save_decisions r') rest).
Qed.

(** X18. No operation withdraws a decision.  A label that is in the
    approved bucket stays in the approved bucket, and a label that is in
    the rejected bucket stays in the rejected bucket, through a review of
    a file, a quick review, the reconciliation and the apply, whatever is
    typed: the buckets only grow, so a label that is decided again the
    other way ends in both. *)
Theorem no_operation_withdraws_a_decision
    (r : reviewer) (label now : string) (inputs : list string) :
  keeps_labels (decisions r)
    (decisions (snd (fst (review_file r label now inputs))))
  /\ keeps_labels (decisions r)
       (decisions (snd (fst (quick_review_all r now inputs))))
  /\ keeps_labels (decisions r) (decisions (fix_decisions r))
  /\ keeps_labels (decisions r) (decisions (snd (apply_decisions r))).
Proof.
  split; [apply review_file_keeps|].
  split; [apply quick_review_all_keeps|].
  split; [apply fix_decisions_keeps|apply apply_decisions_keeps].
Qed.

End StoreFacts.

Section QuickReviewFacts.
Import Review.

Lemma review_file_fs r label now inputs :
  fs (snd (fst (review_file r label now inputs))) = fs r.
Proof.
  unfold review_file.
  destruct (Dict.get label (updates r)) as [path|]; [|reflexivity].
  destruct (open_preview r label) as [diff_lines|e]; [|reflexivity].
  destruct (_parse_diff_file diff_lines) as [|h hs]; [reflexivity|].
  destruct (review_hunks (h :: hs) inputs [] []) as [[[a rj|]|e] rest];
    reflexivity.
Qed.

Lemma show_final_summary_saved r inputs :
  decisions_file r = Some (decisions r) ->
  saved (snd (fst (_show_final_summary r inputs))).
Proof.
  intros S. unfold _show_final_summary.
  assert (saved r) as Sr by (exists (decisions r); auto).
  destruct (Dict.truthy (approved (decisions r))); [|exact Sr].
  assert (saved (_generate_apply_script r)) as Sg
    by (exists (decisions r); auto).
  destruct inputs as [|typed rest]; [exact Sg|].
  destruct (choice_of typed =? "y"); [|exact Sg].
  destruct (apply_decisions_decisions (_generate_apply_script r)) as [D F].
  destruct (apply_decisions (_generate_apply_script r)) as [res r'].
  cbn [fst snd] in *. exists (decisions r). split.
  - rewrite F. exact S.
  - right. exact D.
Qed.

Lemma quick_loop_saved items : forall r now inputs,
  let r' := snd (fst (quick_loop items r now inputs)) in
  fs r' = fs r \/ saved r'.
Proof.
  induction items as [|[label path] items IH]; intros r now inputs;
    cbn [quick_loop]; [now left|].
  destruct (FS.exists_ (fs r) _); [|apply IH].
  destruct (read_summary (fs r) _); [|now left].
  destruct inputs as [|typed rest]; [now left|].
  destruct (choice_of typed =? "a");
    [exact (IH (with_decisions r _) now rest)|].
  destruct (choice_of typed =? "r");
    [exact (IH (with_decisions r _) now rest)|].
  destruct (choice_of typed =? "v").
  { pose proof (review_file_fs r label now rest) as F.
    destruct (review_file r label now rest) as [[[st|e] r1] rest1];
      cbn [fst snd] in F; [|now left].
    rewrite <- F. apply IH. }
  destruct (choice_of typed =? "q"); [|apply IH].
  pose proof (show_final_summary_saved (_save_decisions r) rest eq_refl) as S.
  destruct (_show_final_summary (_save_decisions r) rest)
    as [[[u|e] r1] rest1]; right; exact S.
Qed.

(** X19. A quick review touches no file before the decisions are on disk.
    However a quick review ends, with a result or with an exception,
    either no file other than the decisions file has changed, or the
    decisions file holds the decisions of the session: the apply script
    is written and the approved changes are applied only after the
    decisions have been saved. *)
Theorem quick_review_saves_before_it_touches_a_file
    (r : reviewer) (now : string) (inputs : list string) :
  let r' := snd (fst (quick_review_all r now inputs)) in
  fs r' = fs r \/ saved r'.
Proof.
  unfold quick_review_all.
  destruct (updates r) as [|item items]; [now left|].
  pose proof (quick_loop_saved (item :: items) r now inputs) as L.
  destruct (quick_loop (item :: items) r now inputs) as [[[[|]|e] r1] rest];
    cbn [fst snd] in L |- *; try exact L.
  right. apply show_final_summary_saved. reflexivity.
Qed.

End QuickReviewFacts.

Section ApplyMore.

Lemma first_glob_found fs dir suffix p :
  FS.first (FS.glob fs dir suffix) = Ok p ->
  Py.endswith p suffix = true /\ exists c, Dict.get p fs = Some c.
Proof.
  intros H. assert (In p (FS.glob fs dir suffix)) as Hi.
  { destruct (FS.glob fs dir suffix) as [|q l]; [discriminate|].
    injection H as ->. now left. }
  unfold FS.glob in Hi. apply filter_In in Hi as [Hk Hc]. split.
  - destruct (FS.strip_prefix (dir ++ "/") p) as [n|] eqn:S; [|discriminate].
    apply andb_true_iff in Hc as [_ He].
    now apply (endswith_strip_prefix _ _ _ _ S).
  - apply contains_iff in Hk. unfold Dict.contains in Hk.
    destruct (Dict.get p fs) as [c|]; [now exists c|discriminate].
Qed.

Lemma new_version_is_no_backup fs dir p target :
  FS.first (FS.glob fs dir ".NEW") = Ok p -> p <> Path.with_backup_suffix target.
Proof.
  intros H E. apply first_glob_found in H as [He _]. subst p.
  now rewrite backup_is_no_new_version in He.
Qed.

Lemma backup_then_copy_missing fs src dest :
  Dict.get dest fs = None -> backup_then_copy fs src dest = Raise FileNotFoundError.
Proof.
  intros G. unfold backup_then_copy, FS.copy2, FS.read_bytes, bind.
  now rewrite G.
Qed.

(** The two copies give the same files for two sources with the same
    bytes. *)
Lemma backup_then_copy_same_bytes fs src1 src2 dest c :
  Dict.get src1 fs = Some c -> Dict.get src2 fs = Some c ->
  src1 <> dest -> src2 <> dest ->
  src1 <> Path.with_backup_suffix dest ->
  src2 <> Path.with_backup_suffix dest ->
  backup_then_copy fs src1 dest = backup_then_copy fs src2 dest.
Proof.
  intros G1 G2 D1 D2 B1 B2.
  destruct (Dict.get dest fs) as [old_c|] eqn:Gd.
  - destruct (backup_then_copy_ok fs src1 dest old_c c Gd G1 D1 B1) as [-> _].
    destruct (backup_then_copy_ok fs src2 dest old_c c Gd G2 D2 B2) as [-> _].
    reflexivity.
  - now rewrite !backup_then_copy_missing.
Qed.

End ApplyMore.

Section ApplyTheorems.

(** X20. Adding a new file overwrites without a backup.  For a label of a
    new file whose source can be read, [--add-file] copies the source to
    its place in the project and returns true; a file that is already
    there is replaced, and no other path changes, so that nothing keeps
    the bytes that were there: no backup is written and nothing is
    asked. *)
Theorem add_file_overwrites_without_backup
    (t : Sync.tracking) (fs : FS.t) (l p c : string) :
  let src := Path.join (Sync.t_new_figma t) p in
  let dest := Path.join (Sync.t_old_project t) p in
  Dict.get l (Sync.files_of t) = Some p ->
  Dict.get src fs = Some c ->
  src <> dest ->
  exists fs',
    Sync.apply_change (Some t) fs l Sync.file = Ok (true, fs')
    /\ Dict.get dest fs' = Some c
    /\ (forall x, x <> dest -> Dict.get x fs' = Dict.get x fs)
    /\ Dict.get (Path.with_backup_suffix dest) fs'
       = Dict.get (Path.with_backup_suffix dest) fs.
Proof.
  intros src dest L G N. exists (Dict.set dest c fs).
  unfold Sync.apply_change. rewrite L. fold src dest.
  rewrite (copy2_ok _ _ _ _ G N). cbn [bind].
  split; [reflexivity|]. split; [apply get_set_eq|].
  split.
  - intros x Hx. apply get_set_neq. congruence.
  - apply get_set_neq. apply backup_path_differs.
Qed.


(** X22. An update needs its target.  When the file to update is not in
    the project any more, both ways to apply the update raise
    [FileNotFoundError] at the backup copy, before anything is written,
    and a batch ends there: the labels after it are not applied. *)
Theorem update_needs_its_target
    (r : Review.reviewer) (t : Sync.tracking) (l p new_file : string)
    (rest : list (string * string)) :
  Review.tracking_data r = Some t ->
  Dict.get (Path.join (Sync.t_old_project t) p) (Review.fs r) = None ->
  (Dict.get l (Sync.updates_of t) = Some p ->
   Sync.apply_change (Some t) (Review.fs r) l Sync.update
   = Raise FileNotFoundError)
  /\ (FS.first (FS.glob (Review.fs r) (Path.join (Review.updates_dir r) l)
                  ".NEW") = Ok new_file ->
      Review.apply_one r l p = Raise FileNotFoundError
      /\ Review.apply_loop ((l, p) :: rest) r = (Raise FileNotFoundError, r)).
Proof.
  intros T G. split.
  - intros L. rewrite (apply_change_update _ _ _ _ L).
    now rewrite backup_then_copy_missing.
  - intros F. assert (Review.apply_one r l p = Raise FileNotFoundError) as E.
    { rewrite (apply_one_found _ _ _ _ _ T F).
      now apply backup_then_copy_missing. }
    split; [exact E|]. cbn [Review.apply_loop]. now rewrite E.
Qed.

(** X23. The two ways to apply an update agree.  The script that the
    review writes runs [sync.py --apply-update] for each approved label,
    which copies from the new tree, where [review.py --apply] copies the
    [.NEW] preview file.  When the preview file holds the bytes of the
    file in the new tree, both leave the same files: the same backup and
    the same target, or the same error. *)
Theorem both_ways_to_apply_agree
    (r : Review.reviewer) (t : Sync.tracking) (l p new_file c : string) :
  let src := Path.join (Sync.t_new_figma t) p in
  let target := Path.join (Sync.t_old_project t) p in
  Review.tracking_data r = Some t ->
  Dict.get l (Sync.updates_of t) = Some p ->
  FS.first (FS.glob (Review.fs r) (Path.join (Review.updates_dir r) l) ".NEW")
  = Ok new_file ->
  Dict.get new_file (Review.fs r) = Some c ->
  Dict.get src (Review.fs r) = Some c ->
  src <> target -> src <> Path.with_backup_suffix target ->
  new_file <> target ->
  Sync.apply_change (Some t) (Review.fs r) l Sync.update
  = do fs' <- Review.apply_one r l p; Ok (true, fs').
Proof.
  intros src target T L F Gn Gs N1 N2 N3.
  rewrite (apply_change_update _ _ _ _ L), (apply_one_found _ _ _ _ _ T F).
  fold src target.
  now rewrite (backup_then_copy_same_bytes _ src new_file target c Gs Gn N1 N3 N2
                 (new_version_is_no_backup _ _ _ _ F)).
Qed.

(** X24. A batch ends at the first label without a new version.  When the
    labels [before] are applied and the next label has no [.NEW] file,
    the apply loop raises [IndexError] there: the files are as the labels
    before left them, nothing is rolled back, and the labels after it
    are not applied. *)
Theorem batch_ends_at_a_label_without_new_version
    (r r1 : Review.reviewer) (before after : list (string * string))
    (l p : string) :
  Review.apply_loop before r = (Ok tt, r1) ->
  FS.glob (Review.fs r1) (Path.join (Review.updates_dir r1) l) ".NEW" = [] ->
  Review.apply_loop (before ++ (l, p) :: after) r = (Raise IndexError, r1).
Proof.
  revert r. induction before as [|[l0 p0] before IH]; intros r H G;
    cbn [Review.apply_loop app] in *.
  - injection H as <-. unfold Review.apply_one. now rewrite G.
  - destruct (Review.apply_one r l0 p0) as [fs'|e]; [|discriminate].
    now apply IH.
Qed.

End ApplyTheorems.

Section ReconciliationFrame.
Import Review.

Lemma fix_loop_keeps_entry items : forall d fixed l,
  (forall pv, In (l, pv) items -> fate_of pv = stays) ->
  Dict.get l (partial (fst (fold_left fix_step items (d, fixed))))
  = Dict.get l (partial d).
Proof.
  induction items as [|[l0 pv0] items IH]; intros d fixed l H;
    cbn [fold_left]; [reflexivity|].
  destruct (fix_step (d, fixed) (l0, pv0)) as [d1 f1] eqn:S.
  rewrite IH by (intros pv Hi; apply H; now right).
  pose proof (fix_step_partial d fixed l0 pv0) as P. rewrite S in P.
  cbn [fst] in P. rewrite P.
  destruct (fate_of pv0) eqn:F; try reflexivity;
    (apply get_del_neq; intros ->;
     specialize (H pv0 (or_introl eq_refl)); congruence).
Qed.

(** X25. The reconciliation touches unanimous entries only.  When no entry
    of the partial bucket is unanimous, [--fix-decisions] changes nothing
    and does not write the decisions file; in any case it changes no file
    other than the decisions file, leaves the approved and the rejected
    entry of every label that is not in the partial bucket as they were,
    and keeps every entry of the partial bucket that is not unanimous. *)
Theorem fix_decisions_touches_unanimous_entries_only (r : reviewer) :
  let r' := fix_decisions r in
  fs r' = fs r
  /\ (Forall (fun it => fate_of (snd it) = stays) (partial (decisions r)) ->
      r' = r)
  /\ (forall l,
        Dict.contains l (partial (decisions r)) = false ->
        Dict.get l (approved (decisions r')) = Dict.get l (approved (decisions r))
        /\ Dict.get l (rejected (decisions r'))
           = Dict.get l (rejected (decisions r)))
  /\ (forall l pv,
        Dict.unique (partial (decisions r)) = true ->
        Dict.get l (partial (decisions r)) = Some pv ->
        fate_of pv = stays ->
        Dict.get l (partial (decisions r')) = Some pv).
Proof.
  unfold fix_decisions.
  pose proof (fix_loop_frame (partial (decisions r)) (decisions r) false) as Fr.
  pose proof (fix_loop_keeps_entry (partial (decisions r)) (decisions r) false)
    as Ke.
  pose proof (fix_loop_stays (partial (decisions r)) (decisions r, false)) as St.
  destruct (fold_left fix_step (partial (decisions r)) (decisions r, false))
    as [d fixed].
  cbn [fst] in Fr, Ke.
  split; [now destruct fixed|].
  split.
  { intros H. apply St in H. injection H as -> ->. now destruct r. }
  split.
  - intros l C.
    assert (~ In l (map fst (partial (decisions r)))) as NI.
    { intros Hi. apply contains_iff in Hi. congruence. }
    destruct (Fr l NI) as (A & R & _).
    destruct fixed; cbn [decisions _save_decisions with_decisions]; auto.
  - intros l pv U G F.
    assert (Dict.get l (partial d) = Some pv) as E.
    { rewrite Ke; [exact G|]. intros pv' Hi.
      rewrite (unique_in_get _ _ _ U Hi) in G. now injection G as ->. }
    destruct fixed; cbn [decisions _save_decisions with_decisions]; exact E.
Qed.

End ReconciliationFrame.

Section PathFacts.

Lemma prefix_iff (a x : string) :
  String.prefix a x = true <-> exists rest, x = a ++ rest.
Proof.
  revert x. induction a as [|c a IH]; intros x.
  - split; [intros _; now exists x|]. intros _. now destruct x.
  - destruct x as [|c' x]; cbn [String.prefix].
    + split; [discriminate|]. intros [rest E]. discriminate.
    + destruct (Ascii.ascii_dec c c') as [<-|N].
      * rewrite IH. split; intros [rest E]; exists rest.
        -- cbn. now rewrite E.
        -- cbn in E. now injection E.
      * split; [discriminate|]. intros [rest E]. cbn in E. congruence.
Qed.

Lemma startswith_append (a b : string) : Py.startswith (a ++ b) a = true.
Proof. unfold Py.startswith. apply prefix_iff. now exists b. Qed.

Lemma startswith_shorter (x a b : string) :
  Py.startswith x (a ++ b) = true -> Py.startswith x a = true.
Proof.
  unfold Py.startswith. rewrite !prefix_iff. intros [rest ->].
  exists (b ++ rest). apply append_assoc.
Qed.

(** A path under the directory [d/l] is under [d]. *)
Lemma under_label_dir x d l :
  Py.startswith x (Path.join d l ++ "/") = true ->
  Py.startswith x (d ++ "/") = true.
Proof.
  unfold Path.join. rewrite !append_assoc.
  change (d ++ "/" ++ l ++ "/") with (d ++ "/" ++ (l ++ "/")).
  rewrite <- (append_assoc d "/" (l ++ "/")). apply startswith_shorter.
Qed.

Lemma has_slash_append a b :
  FS.has_slash (a ++ b) = FS.has_slash a || FS.has_slash b.
Proof.
  induction a as [|c a IH]; cbn; [reflexivity|].
  now rewrite IH, orb_assoc.
Qed.

Lemma no_slash_split l1 l2 r1 r2 :
  FS.has_slash l1 = false -> FS.has_slash l2 = false ->
  l1 ++ "/" ++ r1 = l2 ++ "/" ++ r2 -> l1 = l2.
Proof.
  revert l2. induction l1 as [|c l1 IH]; intros [|c' l2] H1 H2 E;
    cbn in *; try reflexivity.
  - injection E as <- _. cbn in H2. discriminate.
  - injection E as -> _. cbn in H1. discriminate.
  - apply orb_false_iff in H1 as [_ H1], H2 as [_ H2].
    injection E as -> E. f_equal. now apply IH.
Qed.

(** Two label directories of one directory have no path in common. *)
Lemma label_dirs_disjoint x d l1 l2 :
  FS.has_slash l1 = false -> FS.has_slash l2 = false ->
  Py.startswith x (Path.join d l1 ++ "/") = true ->
  Py.startswith x (Path.join d l2 ++ "/") = true ->
  l1 = l2.
Proof.
  intros H1 H2. unfold Py.startswith, Path.join. rewrite !prefix_iff.
  intros [r1 ->] [r2 E]. rewrite !append_assoc in E.
  apply append_injective in E. cbn [append] in E. injection E as E.
  now apply (no_slash_split l1 l2 r1 r2).
Qed.

Lemma uint_no_slash d : FS.has_slash (NilEmpty.string_of_uint d) = false.
Proof. induction d; cbn; auto. Qed.

Lemma zeros_no_slash k : FS.has_slash (Py.zeros k) = false.
Proof. induction k; cbn; auto. Qed.

Lemma label_no_slash idx : FS.has_slash (Sync.label "U" idx) = false.
Proof.
  unfold Sync.label, Py.format_03d, Py.str_of_nat.
  rewrite !has_slash_append, zeros_no_slash, uint_no_slash. reflexivity.
Qed.

Lemma join_injective d a b : Path.join d a = Path.join d b -> a = b.
Proof.
  unfold Path.join. intros E. apply append_injective in E.
  now apply (append_injective "/") in E.
Qed.

Lemma append_same_length_tail (a b s s' : string) :
  String.length s = String.length s' -> a ++ s = b ++ s' -> s = s'.
Proof.
  intros L. revert b. induction a as [|c a IH]; intros [|c' b] E; cbn in E.
  - exact E.
  - exfalso. apply (f_equal String.length) in E. cbn in E.
    rewrite string_length_append in E. lia.
  - exfalso. apply (f_equal String.length) in E. cbn in E.
    rewrite string_length_append in E. lia.
  - injection E as _ E. now apply (IH b).
Qed.

Lemma preview_names_differ name :
  name ++ ".OLD" <> name ++ ".NEW"
  /\ name ++ ".OLD" <> name ++ ".diff"
  /\ name ++ ".NEW" <> name ++ ".diff"
  /\ name ++ ".OLD" <> "SUMMARY.txt"
  /\ name ++ ".NEW" <> "SUMMARY.txt".
Proof.
  repeat split; try (intros E; apply append_injective in E; discriminate);
    intros E; change "SUMMARY.txt" with ("SUMMARY" ++ ".txt") in E;
    apply append_same_length_tail in E; discriminate || reflexivity.
Qed.

End PathFacts.

Section PreviewFacts.
Import Sync.
Variable get_grouped_opcodes : list string -> list string -> list Difflib.group.

Lemma create_diff_file_frame fs old_file new_file diff_file x :
  x <> diff_file ->
  Dict.get x (fst (_create_diff_file get_grouped_opcodes fs old_file new_file
                     diff_file))
  = Dict.get x fs.
Proof.
  intros N. unfold _create_diff_file.
  destruct (read_both fs old_file new_file) as [[old_lines new_lines]|e];
    cbn [fst]; [|reflexivity].
  unfold FS.writelines, FS.write. apply get_set_neq. congruence.
Qed.

Lemma copy2_get fs src dst fs' x :
  FS.copy2 fs src dst = Ok fs' ->
  Dict.get x fs' = if String.eqb dst x then Dict.get src fs else Dict.get x fs.
Proof.
  unfold FS.copy2, FS.read_bytes, FS.write, bind.
  destruct (Dict.get src fs) as [c|] eqn:G; [|discriminate].
  destruct (String.eqb src dst); [discriminate|]. intros [= <-].
  destruct (String.eqb_spec dst x) as [->|N].
  - apply get_set_eq.
  - now apply get_set_neq.
Qed.

Lemma not_under x dir name :
  Py.startswith x (dir ++ "/") = false -> x <> Path.join dir name.
Proof.
  intros H ->. unfold Path.join in H.
  rewrite <- append_assoc, startswith_append in H. discriminate.
Qed.

(** One turn of the loop changes paths of its label directory only, and
    leaves there the two versions as they are outside. *)
Lemma process_updated_file_spec m fs idx p m' fs' :
  process_updated_file get_grouped_opcodes m fs idx p = Ok (m', fs') ->
  let dir := Path.join (updated_files_dir m) (label "U" idx) in
  output_dir m' = output_dir m
  /\ old_project m' = old_project m /\ new_figma m' = new_figma m
  /\ (forall x, Py.startswith x (dir ++ "/") = false ->
        Dict.get x fs' = Dict.get x fs)
  /\ (Py.startswith (Path.join (old_project m) p) (dir ++ "/") = false ->
      Py.startswith (Path.join (new_figma m) p) (dir ++ "/") = false ->
      Dict.get (Path.join dir (Path.name p ++ ".OLD")) fs'
      = Dict.get (Path.join (old_project m) p) fs
      /\ Dict.get (Path.join dir (Path.name p ++ ".NEW")) fs'
         = Dict.get (Path.join (new_figma m) p) fs
      /\ Dict.get (Path.join (old_project m) p) fs <> None
      /\ Dict.get (Path.join (new_figma m) p) fs <> None).
Proof.
  intros H dir. unfold process_updated_file, updated_files_dir in H.
  cbn [old_project new_figma output_dir] in H.
  change (Path.join (Path.join (output_dir m) "03_UPDATED_FILES")
            (label "U" idx)) with dir in H.
  pose proof (fun x => create_diff_file_frame fs (Path.join (old_project m) p)
                (Path.join (new_figma m) p)
                (Path.join dir (Path.name p ++ ".diff")) x) as Fd.
  destruct (_create_diff_file _ fs _ _ _) as [fs1 st]. cbn [fst] in Fd.
  unfold bind in H.
  destruct (FS.copy2 fs1 _ _) as [fs2|] eqn:C1; [|discriminate].
  destruct (FS.copy2 fs2 _ _) as [fs3|] eqn:C2; [|discriminate].
  injection H as <- <-. cbn [old_project new_figma output_dir].
  pose proof (fun x => copy2_get _ _ _ _ x C1) as G1.
  pose proof (fun x => copy2_get _ _ _ _ x C2) as G2.
  destruct (preview_names_differ (Path.name p)) as (N1 & N2 & N3 & N4 & N5).
  split; [reflexivity|]. split; [reflexivity|]. split; [reflexivity|].
  split; [|intros Ho Hn; repeat split].
  - intros x Hx. unfold FS.write.
    rewrite get_set_neq by (apply not_eq_sym, not_under, Hx).
    rewrite G2. destruct (String.eqb_spec (Path.join dir (Path.name p ++ ".NEW")) x)
      as [E|_]; [exfalso; exact (not_under _ _ _ Hx (eq_sym E))|].
    rewrite G1. destruct (String.eqb_spec (Path.join dir (Path.name p ++ ".OLD")) x)
      as [E|_]; [exfalso; exact (not_under _ _ _ Hx (eq_sym E))|].
    apply Fd. now apply not_under.
  - unfold FS.write.
    rewrite get_set_neq by (intros E; apply join_injective in E; congruence).
    rewrite G2.
    destruct (String.eqb_spec (Path.join dir (Path.name p ++ ".NEW"))
                (Path.join dir (Path.name p ++ ".OLD"))) as [E|_];
      [apply join_injective in E; congruence|].
    rewrite G1, String.eqb_refl. apply Fd. now apply not_under.
  - unfold FS.write.
    rewrite get_set_neq by (intros E; apply join_injective in E; congruence).
    rewrite G2, String.eqb_refl. rewrite G1.
    destruct (String.eqb_spec (Path.join dir (Path.name p ++ ".OLD"))
                (Path.join (new_figma m) p)) as [E|_];
      [exfalso; exact (not_under _ _ _ Hn (eq_sym E))|].
    apply Fd. now apply not_under.
  - intros E. unfold FS.copy2, FS.read_bytes, bind in C1.
    rewrite Fd in C1 by now apply not_under. now rewrite E in C1.
  - intros E. unfold FS.copy2, FS.read_bytes, bind in C2.
    rewrite G1 in C2.
    destruct (String.eqb_spec (Path.join dir (Path.name p ++ ".OLD"))
                (Path.join (new_figma m) p)) as [E'|_];
      [exfalso; exact (not_under _ _ _ Hn (eq_sym E'))|].
    rewrite Fd in C2 by now apply not_under. now rewrite E in C2.
Qed.

End PreviewFacts.

Section PreviewLoop.
Import Sync.
Variable get_grouped_opcodes : list string -> list string -> list Difflib.group.

Lemma not_under_label_dir x d l :
  Py.startswith x (d ++ "/") = false ->
  Py.startswith x (Path.join d l ++ "/") = false.
Proof.
  intros H. destruct (Py.startswith x (Path.join d l ++ "/")) eqn:E;
    [|reflexivity].
  apply under_label_dir in E. congruence.
Qed.

(** The loop changes paths of the label directories of its items only. *)
Lemma process_updated_loop_frame items : forall m fs m' fs' x,
  process_updated_loop get_grouped_opcodes m fs items = Ok (m', fs') ->
  (forall idx, In idx (map fst items) ->
     Py.startswith x (Path.join (updated_files_dir m) (label "U" idx) ++ "/")
     = false) ->
  Dict.get x fs' = Dict.get x fs.
Proof.
  induction items as [|[idx p] items IH]; intros m fs m' fs' x H Hx;
    cbn [process_updated_loop] in H.
  - now injection H as _ <-.
  - unfold bind in H.
    destruct (process_updated_file _ m fs idx p) as [[m1 fs1]|e] eqn:S;
      [|discriminate].
    cbn [fst snd] in H.
    apply process_updated_file_spec in S as (Eo & _ & _ & Fr & _).
    rewrite (IH _ _ _ _ x H).
    + apply Fr. apply Hx. now left.
    + intros i Hi. unfold updated_files_dir. rewrite Eo.
      apply Hx. now right.
Qed.

Lemma process_updated_loop_previews items : forall m fs m' fs',
  process_updated_loop get_grouped_opcodes m fs items = Ok (m', fs') ->
  NoDup (map fst items) ->
  (forall idx q, In (idx, q) items -> outside_previews m q) ->
  forall idx p, In (idx, p) items ->
    let dir := Path.join (updated_files_dir m) (label "U" idx) in
    Dict.get (Path.join dir (Path.name p ++ ".OLD")) fs'
    = Dict.get (Path.join (old_project m) p) fs
    /\ Dict.get (Path.join dir (Path.name p ++ ".NEW")) fs'
       = Dict.get (Path.join (new_figma m) p) fs
    /\ Dict.get (Path.join (old_project m) p) fs <> None
    /\ Dict.get (Path.join (new_figma m) p) fs <> None.
Proof.
  induction items as [|[i0 p0] items IH]; intros m fs m' fs' H ND Out idx p Hi;
    [contradiction|].
  cbn [process_updated_loop] in H. unfold bind in H.
  destruct (process_updated_file _ m fs i0 p0) as [[m1 fs1]|e] eqn:S;
    [|discriminate].
  cbn [fst snd] in H.
  apply process_updated_file_spec in S as (Eo & Eold & Enew & Fr & Here).
  cbn [map fst] in ND. inversion ND as [|? ? Hn ND']; subst.
  assert (updated_files_dir m1 = updated_files_dir m) as Ed
    by (unfold updated_files_dir; now rewrite Eo).
  destruct Hi as [[= -> ->]|Hi].
  - destruct (Out idx p (or_introl eq_refl)) as [O1 O2].
    destruct (Here (not_under_label_dir _ _ _ O1) (not_under_label_dir _ _ _ O2))
      as (C1 & C2 & S1 & S2).
    intros dir.
    assert (forall name,
              Dict.get (Path.join dir name) fs'
              = Dict.get (Path.join dir name) fs1) as Keep.
    { intros name. apply (process_updated_loop_frame _ _ _ _ _ _ H).
      intros i Hin.
      destruct (Py.startswith (Path.join dir name)
                  (Path.join (updated_files_dir m1) (label "U" i) ++ "/"))
        eqn:E; [|reflexivity].
      exfalso. rewrite Ed in E.
      assert (label "U" idx = label "U" i) as EL.
      { apply (label_dirs_disjoint (Path.join dir name) (updated_files_dir m));
          try apply label_no_slash; [|exact E].
        unfold dir, Path.join. rewrite <- !append_assoc.
        apply startswith_append. }
      apply label_injective in EL. subst i. contradiction. }
    rewrite !Keep. repeat split; assumption.
  - assert (forall i q, In (i, q) items -> outside_previews m1 q) as Out1.
    { intros i q Hq. unfold outside_previews. rewrite Ed, Eold, Enew.
      apply (Out i q). now right. }
    destruct (Out idx p (or_intror Hi)) as [O1 O2].
    pose proof (IH _ _ _ _ H ND' Out1 idx p Hi) as R.
    cbv zeta in R. rewrite Ed, Eold, Enew in R.
    rewrite !Fr in R by now apply not_under_label_dir.
    exact R.
Qed.

End PreviewLoop.

Section PreviewTheorems.
Import Sync.

(** X26. The analysis of the updates writes preview files only.  When
    [process_updated_files] gets through, every path that is not under
    the directory [03_UPDATED_FILES] of the output directory holds what
    it held before: the two trees that are compared are not changed,
    unless they lie in that directory. *)
Theorem analysis_of_updates_writes_previews_only
    (get_grouped_opcodes : list string -> list string -> list Difflib.group)
    (m m' : manager) (fs fs' : FS.t) (x : string) :
  process_updated_files get_grouped_opcodes m fs = Ok (m', fs') ->
  Py.startswith x (updated_files_dir m ++ "/") = false ->
  Dict.get x fs' = Dict.get x fs.
Proof.
  intros H Hx. unfold process_updated_files in H.
  apply (process_updated_loop_frame _ _ _ _ _ _ x H).
  intros idx _. now apply not_under_label_dir.
Qed.

(** X27. The previews hold the two versions.  When the analysis of the
    updates of a fresh manager gets through and the two trees lie
    outside the preview area, then for every label of the registry the
    directory of the label holds the old file under its name followed by
    [.OLD] and the new file under its name followed by [.NEW], byte for
    byte as the two trees had them, and both files were there. *)
Theorem previews_hold_the_two_versions
    (get_grouped_opcodes : list string -> list string -> list Difflib.group)
    (m m' : manager) (fs fs' : FS.t) (l p : string) :
  update_labels m = [] ->
  process_updated_files get_grouped_opcodes m fs = Ok (m', fs') ->
  (forall q, In q (updated_files m) -> outside_previews m q) ->
  Dict.get l (update_labels m') = Some p ->
  let dir := Path.join (updated_files_dir m) l in
  Dict.get (Path.join dir (Path.name p ++ ".OLD")) fs'
  = Dict.get (Path.join (old_project m) p) fs
  /\ Dict.get (Path.join dir (Path.name p ++ ".NEW")) fs'
     = Dict.get (Path.join (new_figma m) p) fs
  /\ Dict.get (Path.join (old_project m) p) fs <> None
  /\ Dict.get (Path.join (new_figma m) p) fs <> None.
Proof.
  intros Fresh H Out G.
  rewrite (update_labels_in_sorted_order _ _ _ _ _ Fresh H) in G.
  apply get_in, in_map_iff in G as ([idx q] & [= <- ->] & Hi).
  cbn [fst snd]. unfold process_updated_files in H.
  apply (process_updated_loop_previews _ _ _ _ _ _ H); [| |exact Hi].
  - unfold enumerate1. rewrite map_fst_combine by apply length_seq.
    apply seq_NoDup.
  - intros i q' Hq. apply Out. unfold enumerate1 in Hq.
    apply in_combine_r in Hq.
    apply (Permutation_in _ (Permutation_sym (sorted_permutation _))), Hq.
Qed.

End PreviewTheorems.

(** ** The further properties on the worked inputs *)

Lemma analysis_labels_each_change_once_witness :
  exists t fs',
    shop_analysis = Ok (t, fs')
    /\ map snd (Sync.folders_of t) = ["lib"]
    /\ Dict.keys (Sync.folders_of t) = ["F001"]
    /\ Permutation (map snd (Sync.files_of t)) ["z.ts"; "src/c.ts"; "lib/x.ts"]
    /\ Dict.keys (Sync.files_of t) = ["N001"; "N002"; "N003"]
    /\ map snd (Sync.updates_of t) = ["a.ts"]
    /\ Dict.keys (Sync.updates_of t) = ["U001"].
Proof.
  destruct shop_analysis as [[t fs']|e] eqn:E; [|vm_compute in E; discriminate].
  exists t, fs'. split; [reflexivity|]. unfold shop_analysis in E.
  destruct (analysis_labels_each_change_once (fun bytes => bytes)
              (fun _ _ => one_groups) shop_old shop_new shop_files fs'
              "proj" "figma" "figma-sync" t E)
    as ((F1 & F2) & (N1 & N2) & (U1 & U2) & _).
  split; [rewrite F1; vm_compute; reflexivity|].
  split; [rewrite F2; vm_compute; reflexivity|].
  split; [eapply Permutation_trans; [exact N1|]; vm_compute;
          apply Permutation_refl|].
  split; [rewrite N2; vm_compute; reflexivity|].
  split; [rewrite U1; vm_compute; reflexivity|].
  rewrite U2. vm_compute. reflexivity.
Defined.

Lemma new_files_are_labelled_directory_by_directory_witness :
  Sync.file_labels shop_scan = []
  /\ Sync.new_files shop_scan = ["z.ts"; "src/c.ts"; "lib/x.ts"]
  /\ Sync.file_labels (Sync.process_new_files shop_scan)
     = [("N001", "z.ts"); ("N002", "lib/x.ts"); ("N003", "src/c.ts")]
  /\ Py.sorted (Sync.new_files shop_scan) = ["lib/x.ts"; "src/c.ts"; "z.ts"]
  /\ StronglySorted dir_then_path
       (map snd (Sync.file_labels (Sync.process_new_files shop_scan))).
Proof.
  split; [reflexivity|]. split; [reflexivity|]. split; [reflexivity|].
  split; [reflexivity|].
  apply (new_files_are_labelled_directory_by_directory shop_scan).
  reflexivity.
Defined.

Lemma analysis_of_updates_writes_previews_only_witness :
  exists m' fs',
    Sync.process_updated_files (fun _ _ => app_groups) app_manager app_files
    = Ok (m', fs')
    /\ Py.startswith "proj/src/App.tsx" "figma-sync/03_UPDATED_FILES/" = false
    /\ Dict.get "proj/src/App.tsx" fs' = Dict.get "proj/src/App.tsx" app_files.
Proof.
  destruct (Sync.process_updated_files (fun _ _ => app_groups) app_manager
              app_files) as [[m' fs']|e] eqn:E;
    [|vm_compute in E; discriminate].
  exists m', fs'. split; [reflexivity|]. split; [reflexivity|].
  apply (analysis_of_updates_writes_previews_only (fun _ _ => app_groups)
           app_manager m' app_files fs' "proj/src/App.tsx" E).
  reflexivity.
Defined.

Lemma previews_hold_the_two_versions_witness :
  exists m' fs',
    Sync.process_updated_files (fun _ _ => app_groups) app_manager app_files
    = Ok (m', fs')
    /\ Dict.get "U001" (Sync.update_labels m') = Some "src/App.tsx"
    /\ Dict.get "figma-sync/03_UPDATED_FILES/U001/App.tsx.OLD" fs'
       = Some (String.concat EmptyString app_old)
    /\ Dict.get "figma-sync/03_UPDATED_FILES/U001/App.tsx.NEW" fs'
       = Some (String.concat EmptyString app_new).
Proof.
  destruct (Sync.process_updated_files (fun _ _ => app_groups) app_manager
              app_files) as [[m' fs']|e] eqn:E;
    [|vm_compute in E; discriminate].
  exists m', fs'. split; [reflexivity|].
  assert (Dict.get "U001" (Sync.update_labels m') = Some "src/App.tsx") as L.
  { vm_compute in E. injection E as <- _. reflexivity. }
  split; [exact L|].
  destruct (previews_hold_the_two_versions (fun _ _ => app_groups)
              app_manager m' app_files fs' "U001" "src/App.tsx")
    as (O & N & _); [reflexivity|exact E| |exact L|].
  - intros q [<-|[]]. split; reflexivity.
  - split; [exact O|exact N].
Defined.

Lemma add_file_overwrites_without_backup_witness :
  Dict.get "proj/b.ts" taken_files = Some "mine"
  /\ exists fs',
       Sync.apply_change (Some taken_tracking) taken_files "N001" Sync.file
       = Ok (true, fs')
       /\ Dict.get "proj/b.ts" fs' = Some "theirs"
       /\ Dict.get "proj/b.ts.backup" fs' = None.
Proof.
  split; [reflexivity|].
  destruct (add_file_overwrites_without_backup taken_tracking taken_files
              "N001" "b.ts" "theirs")
    as (fs' & E & D & _ & B); [reflexivity|reflexivity|discriminate|].
  exists fs'. split; [exact E|]. split; [exact D|]. exact B.
Defined.

Lemma update_needs_its_target_witness :
  Dict.get "proj/a.ts" (Review.fs gone_reviewer) = None
  /\ Sync.apply_change (Some xy_tracking) (Review.fs gone_reviewer) "U001"
       Sync.update = Raise FileNotFoundError
  /\ Review.apply_decisions gone_reviewer
     = (Raise FileNotFoundError, gone_reviewer).
Proof.
  split; [reflexivity|].
  destruct (update_needs_its_target gone_reviewer xy_tracking "U001" "a.ts"
              "figma-sync/03_UPDATED_FILES/U001/a.ts.NEW" [])
    as (S & R); [reflexivity|reflexivity|].
  split; [now apply S|].
  destruct (R eq_refl) as [_ L]. exact L.
Defined.

Lemma both_ways_to_apply_agree_witness :
  exists fs',
    Review.apply_one xy_reviewer "U001" "a.ts" = Ok fs'
    /\ Sync.apply_change (Some xy_tracking) xy_files "U001" Sync.update
       = Ok (true, fs')
    /\ Dict.get "proj/a.ts" fs' = Some "Y"
    /\ Dict.get "proj/a.ts.backup" fs' = Some "X".
Proof.
  destruct (Review.apply_one xy_reviewer "U001" "a.ts") as [fs'|e] eqn:E;
    [|vm_compute in E; discriminate].
  exists fs'. split; [reflexivity|].
  pose proof (both_ways_to_apply_agree xy_reviewer xy_tracking "U001" "a.ts"
                "figma-sync/03_UPDATED_FILES/U001/a.ts.NEW" "Y") as A.
  cbv zeta in A. rewrite E in A. cbn [bind] in A.
  split; [apply A; solve [reflexivity|discriminate]|].
  vm_compute in E. injection E as <-. split; reflexivity.
Defined.

Lemma batch_ends_at_a_label_without_new_version_witness :
  Review.apply_loop [("U001", "a.ts")] xy_reviewer
  = (Ok tt, xy_reviewer_after_first)
  /\ Review.apply_loop [("U001", "a.ts"); ("U002", "b.ts"); ("U003", "c.ts")]
       xy_reviewer
     = (Raise IndexError, xy_reviewer_after_first)
  /\ Dict.get "proj/a.ts" (Review.fs xy_reviewer_after_first) = Some "Y".
Proof.
  split; [reflexivity|]. split; [|reflexivity].
  apply (batch_ends_at_a_label_without_new_version xy_reviewer
           xy_reviewer_after_first [("U001", "a.ts")] [("U003", "c.ts")]
           "U002" "b.ts"); reflexivity.
Defined.



Lemma statistics_count_the_changed_lines_witness :
  Sync.read_both sql_files "proj/q.sql" "figma/q.sql" = Ok (sql_old, sql_new)
  /\ snd (Sync._create_diff_file (fun _ _ => sql_groups) sql_files
            "proj/q.sql" "figma/q.sql" "out/q.sql.diff")
     = Sync.Stats 1 0
  /\ removed_by sql_old (Difflib.Opcode Difflib.replace 0 1 0 1) = 0
  /\ added_by sql_new (Difflib.Opcode Difflib.replace 0 1 0 1) = 1.
Proof.
  split; [reflexivity|]. split; [|split; reflexivity].
  rewrite (statistics_count_the_changed_lines (fun _ _ => sql_groups) sql_files
             "proj/q.sql" "figma/q.sql" "out/q.sql.diff" sql_old sql_new
             eq_refl).
  reflexivity.
Defined.


Lemma review_leaves_no_unanimous_partial_entry_witness :
  exists a rj r',
    Review.review_file app_reviewer "U001" "2024-05-01T10:00:00" ["a"; "r"; "a"]
    = (Ok (Review.reviewed a rj (Review._parse_diff_file app_diff)), r', [])
    /\ match Dict.get "U001" (Review.partial (Review.decisions r')) with
       | Some (Review.Entry e) =>
           Review.approved_count e = 2%Z /\ Review.rejected_count e = 1%Z
           /\ Review.total e = 3%Z /\ fate_of (Review.Entry e) = stays
       | _ => False
       end.
Proof.
  destruct (Review.review_file app_reviewer "U001" "2024-05-01T10:00:00"
              ["a"; "r"; "a"]) as [[res r'] rest] eqn:E.
  assert (exists a rj,
            res = Ok (Review.reviewed a rj (Review._parse_diff_file app_diff))
            /\ rest = []
            /\ Dict.get "U001" (Review.partial (Review.decisions r'))
               = Some (Review.Entry
                         (Review.Details "src/App.tsx" 2 1 3
                            "2024-05-01T10:00:00"))) as (a & rj & -> & -> & P).
  { vm_compute in E. injection E as <- <- <-.
    eexists. eexists. split; [vm_compute; reflexivity|].
    split; reflexivity. }
  exists a, rj, r'. split; [reflexivity|].
  pose proof (review_leaves_no_unanimous_partial_entry app_reviewer r' "U001"
                "2024-05-01T10:00:00" ["a"; "r"; "a"] [] a rj
                (Review._parse_diff_file app_diff) E) as H.
  rewrite P in H |- *. destruct H as (_ & _ & _ & _ & _ & _ & F).
  split; [reflexivity|]. split; [reflexivity|]. split; [reflexivity|].
  exact F.
Defined.

Lemma scan_has_the_kept_files_witness :
  kept_file EmptyString shop_new "src/c.ts" "C"
  /\ Dict.contains "src/c.ts"
       (Sync.files (Sync._get_project_structure (fun bytes => bytes) shop_new))
     = true
  /\ Dict.contains "node_modules/dep.js"
       (Sync.files (Sync._get_project_structure (fun bytes => bytes) shop_new))
     = false.
Proof.
  assert (kept_file EmptyString shop_new "src/c.ts" "C") as K.
  { apply (kept_file_below EmptyString shop_new "src"
             [Sync.File "b.ts" (Some "B"); Sync.File "c.ts" (Some "C")]);
      [right; right; now left|reflexivity|].
    apply (kept_file_here "src" _ "c.ts" "C"); [right; now left|reflexivity]. }
  split; [exact K|]. split; [|reflexivity].
  exact (proj2 (scan_has_the_kept_files (fun bytes => bytes) shop_new "src/c.ts")
           "C" K).
Defined.

Lemma scan_has_the_kept_folders_witness :
  Sync.folders (Sync._get_project_structure (fun bytes => bytes) shop_new)
  = ["src"; "lib"]
  /\ kept_folder EmptyString shop_new "lib"
  /\ ~ kept_folder EmptyString shop_new "node_modules".
Proof.
  split; [reflexivity|]. split.
  - apply (proj1 (scan_has_the_kept_folders (fun bytes => bytes) shop_new "lib")).
    reflexivity.
  - intros K.
    apply (proj2 (scan_has_the_kept_folders (fun bytes => bytes) shop_new
                    "node_modules")) in K.
    discriminate.
Defined.

Lemma header_is_read_iff_both_counts_are_printed_witness :
  header_line patch_group = "@@ -1,6 +1,7 @@" ++ LF
  /\ Review.match_header (header_line patch_group)
     = Some (1, 6, 1, 7, EmptyString)
  /\ header_line [Difflib.Opcode Difflib.replace 0 1 0 1] = "@@ -1 +1 @@" ++ LF
  /\ Review.match_header (header_line [Difflib.Opcode Difflib.replace 0 1 0 1])
     = None.
Proof.
  split; [reflexivity|]. split.
  - apply (proj1 (header_is_read_iff_both_counts_are_printed patch_group)).
    split; discriminate.
  - split; [reflexivity|].
    apply (proj2 (header_is_read_iff_both_counts_are_printed
                    [Difflib.Opcode Difflib.replace 0 1 0 1])).
    left. reflexivity.
Defined.

Lemma a_hunk_replaces_its_old_range_wherever_it_falls_witness :
  Review._apply_hunk
    (Review.Hunk "@@ -9,2 +9,1 @@" 9 2 9 1 EmptyString ["+new" ++ LF] 1 0)
    patch_old
  = app patch_old ["new" ++ LF]
  /\ Review._apply_hunk
       (Review.Hunk "@@ -0,0 +1,2 @@" 0 0 1 2 EmptyString ["+new" ++ LF] 1 0)
       ["a" ++ LF; "b" ++ LF]
     = ["a" ++ LF; "new" ++ LF; "b" ++ LF].
Proof.
  split.
  - rewrite (proj1 (a_hunk_replaces_its_old_range_wherever_it_falls
                      (Review.Hunk "@@ -9,2 +9,1 @@" 9 2 9 1 EmptyString
                         ["+new" ++ LF] 1 0)
                      patch_old)) by (cbn; lia).
    reflexivity.
  - rewrite (proj2 (a_hunk_replaces_its_old_range_wherever_it_falls
                      (Review.Hunk "@@ -0,0 +1,2 @@" 0 0 1 2 EmptyString
                         ["+new" ++ LF] 1 0)
                      ["a" ++ LF; "b" ++ LF]) eq_refl eq_refl).
    reflexivity.
Defined.


Lemma fix_decisions_touches_unanimous_entries_only_witness :
  let r := Review.make "figma-sync" None (Some stale_store) [] in
  Dict.get "U009" (Review.approved (Review.decisions (Review.fix_decisions r)))
  = Some "src/kept.ts"
  /\ Dict.get "U003" (Review.partial (Review.decisions (Review.fix_decisions r)))
     = Some (Review.Entry
               (Review.Details "src/c.ts" 1 1 3 "2024-05-01T10:09:00"))
  /\ Dict.get "U004" (Review.partial (Review.decisions (Review.fix_decisions r)))
     = Some Review.NotADict.
Proof.
  intros r.
  destruct (fix_decisions_touches_unanimous_entries_only r)
    as (_ & _ & Fr & Ke).
  split; [|split].
  - rewrite (proj1 (Fr "U009" eq_refl)). reflexivity.
  - apply Ke; reflexivity.
  - apply Ke; reflexivity.
Defined.
